(** * Gift-subscription engine: lifecycle, limits and redemption

    A shallow embedding of [db/models.py] (the [GiftedSubscription]
    table), [db/dal/gift_dal.py] and [bot/services/gift_service.py],
    together with the properties the specification states about them.

    Conventions of the embedding.
    - A [datetime] is an integer count of microseconds since the epoch
      (UTC); a [timedelta] is a count of microseconds.
    - [amount] and [price] are [Float] columns, and the limits on them
      are Python floats: the embedding computes with IEEE binary64
      numbers, as specified by the library's [SpecFloat], every sum and
      difference rounded to nearest-even and every comparison the
      IEEE one.
    - The asynchronous session is a state: the committed table, the view
      of the open transaction, the rows it holds [FOR UPDATE], and a
      trace of the transaction-level events it issued.
    - [datetime.now] and [secrets.choice] read two oracles, [clock] and
      [rng], one entry per call. *)

From Stdlib Require Import Ascii String SpecFloat.
From stdpp Require Import base option list gmap strings fin_maps sorting.

Open Scope Z_scope.

(** ** Floating-point numbers

    A [FLOAT] column of the database and a Python [float] are both IEEE
    binary64 numbers: 53 bits of precision, exponents up to 1024. *)

Definition float : Type := spec_float.

#[global] Instance float_eq_dec : EqDecision float.
Proof. unfold float. solve_decision. Defined.

(** The float nearest to an integer: what an integer literal, or
    [float(n)], denotes. An integer written where a float is expected
    stands for it. *)
Definition float_of_Z (z : Z) : float := binary_normalize 53 1024 z 0 false.
Coercion float_of_Z : Z >-> float.

(** [x + y], [x - y], [x / y] and [x < y] on floats. *)
Definition float_add (x y : float) : float := SFadd 53 1024 x y.
Definition float_sub (x y : float) : float := SFsub 53 1024 x y.
Definition float_div (x y : float) : float := SFdiv 53 1024 x y.
Definition float_lt (x y : float) : bool := SFltb x y.

(** The float a decimal literal with two places denotes, e.g.
    [9700.01] for [cents 970001]: the float nearest to the quotient. *)
Definition cents (c : Z) : float := float_div c 100.

(** Python's truth value of a float: zero, of either sign, is falsy. *)
Definition truthy_float (x : float) : bool :=
  match x with
  | S754_zero _ => false
  | _ => true
  end.

(** ** Data model ([db/models.py]) *)

Inductive GiftRecipientType := random | direct.

Inductive GiftStatus :=
  | pending_payment
  | payment_failed
  | ready
  | activated
  | expired
  | cancelled
  | refunded.

#[global] Instance GiftRecipientType_eq_dec : EqDecision GiftRecipientType.
Proof. solve_decision. Defined.

#[global] Instance GiftStatus_eq_dec : EqDecision GiftStatus.
Proof. solve_decision. Defined.

(** The columns of [users] and [tariffs] the gift engine reads; the key
    of the table ([user_id], [id]) is the key of the map holding it. *)
Record User := mkUser {
  user_username : option string;
  user_is_banned : bool;
}.

Record Tariff := mkTariff {
  tariff_name : string;
  tariff_price : float;
  tariff_currency : string;
  tariff_duration_days : Z;
  tariff_is_active : bool;
}.

(** A row of [gifted_subscriptions]; [gift_id], the primary key, is the
    key of the map holding the table. *)
Record Gift := mkGift {
  gift_code : string;
  donor_user_id : Z;
  donor_username : option string;
  recipient_type : GiftRecipientType;
  recipient_user_id : option Z;
  recipient_username : option string;
  tariff_id : Z;
  duration_days : Z;
  payment_id : option Z;
  amount : float;
  currency : string;
  status : GiftStatus;
  created_at : Z;
  paid_at : option Z;
  activated_at : option Z;
  expires_at : option Z;
  cancelled_at : option Z;
  idempotency_key : string;
  message_to_recipient : option string;
  metadata : option (list (string * string));
}.

#[global] Instance User_eq_dec : EqDecision User.
Proof. solve_decision. Defined.

#[global] Instance Tariff_eq_dec : EqDecision Tariff.
Proof. solve_decision. Defined.

#[global] Instance Gift_eq_dec : EqDecision Gift.
Proof. solve_decision. Defined.

(** [gift.recipient_type], for the places where a parameter of the same
    name is in scope. *)
Definition recipient_type_of (g : Gift) : GiftRecipientType := recipient_type g.

(** Attribute assignments [gift.<column> = v]. *)
Definition set_status (v : GiftStatus) (g : Gift) : Gift :=
  mkGift (gift_code g) (donor_user_id g) (donor_username g) (recipient_type g)
    (recipient_user_id g) (recipient_username g) (tariff_id g) (duration_days g)
    (payment_id g) (amount g) (currency g) v (created_at g) (paid_at g)
    (activated_at g) (expires_at g) (cancelled_at g) (idempotency_key g)
    (message_to_recipient g) (metadata g).

Definition set_payment_id (v : option Z) (g : Gift) : Gift :=
  mkGift (gift_code g) (donor_user_id g) (donor_username g) (recipient_type g)
    (recipient_user_id g) (recipient_username g) (tariff_id g) (duration_days g)
    v (amount g) (currency g) (status g) (created_at g) (paid_at g)
    (activated_at g) (expires_at g) (cancelled_at g) (idempotency_key g)
    (message_to_recipient g) (metadata g).

Definition set_paid_at (v : option Z) (g : Gift) : Gift :=
  mkGift (gift_code g) (donor_user_id g) (donor_username g) (recipient_type g)
    (recipient_user_id g) (recipient_username g) (tariff_id g) (duration_days g)
    (payment_id g) (amount g) (currency g) (status g) (created_at g) v
    (activated_at g) (expires_at g) (cancelled_at g) (idempotency_key g)
    (message_to_recipient g) (metadata g).

Definition set_activated_at (v : option Z) (g : Gift) : Gift :=
  mkGift (gift_code g) (donor_user_id g) (donor_username g) (recipient_type g)
    (recipient_user_id g) (recipient_username g) (tariff_id g) (duration_days g)
    (payment_id g) (amount g) (currency g) (status g) (created_at g) (paid_at g)
    v (expires_at g) (cancelled_at g) (idempotency_key g)
    (message_to_recipient g) (metadata g).

Definition set_expires_at (v : option Z) (g : Gift) : Gift :=
  mkGift (gift_code g) (donor_user_id g) (donor_username g) (recipient_type g)
    (recipient_user_id g) (recipient_username g) (tariff_id g) (duration_days g)
    (payment_id g) (amount g) (currency g) (status g) (created_at g) (paid_at g)
    (activated_at g) v (cancelled_at g) (idempotency_key g)
    (message_to_recipient g) (metadata g).

Definition set_cancelled_at (v : option Z) (g : Gift) : Gift :=
  mkGift (gift_code g) (donor_user_id g) (donor_username g) (recipient_type g)
    (recipient_user_id g) (recipient_username g) (tariff_id g) (duration_days g)
    (payment_id g) (amount g) (currency g) (status g) (created_at g) (paid_at g)
    (activated_at g) (expires_at g) v (idempotency_key g)
    (message_to_recipient g) (metadata g).

Definition set_recipient_user_id (v : option Z) (g : Gift) : Gift :=
  mkGift (gift_code g) (donor_user_id g) (donor_username g) (recipient_type g)
    v (recipient_username g) (tariff_id g) (duration_days g)
    (payment_id g) (amount g) (currency g) (status g) (created_at g) (paid_at g)
    (activated_at g) (expires_at g) (cancelled_at g) (idempotency_key g)
    (message_to_recipient g) (metadata g).

Definition set_recipient_username (v : option string) (g : Gift) : Gift :=
  mkGift (gift_code g) (donor_user_id g) (donor_username g) (recipient_type g)
    (recipient_user_id g) v (tariff_id g) (duration_days g)
    (payment_id g) (amount g) (currency g) (status g) (created_at g) (paid_at g)
    (activated_at g) (expires_at g) (cancelled_at g) (idempotency_key g)
    (message_to_recipient g) (metadata g).

(** The keyword arguments [**additional_fields] of
    [update_gift_status]: one constructor per column of the row, with
    the value given, and one for any other name. [gift_id] cannot be
    among them (it is a parameter of the function). A name that is not
    an attribute of the row is skipped by [hasattr]; [donor_lock_key],
    a column no function of the engine reads, is not part of the
    record; both leave the record as it is. Assignments to the
    relationships ([donor], [recipient], [tariff], [payment]) are not
    covered, nor is [None] for a column that is not nullable. *)
Inductive Field :=
  | F_gift_code (v : string)
  | F_donor_user_id (v : Z)
  | F_donor_username (v : option string)
  | F_recipient_type (v : GiftRecipientType)
  | F_recipient_user_id (v : option Z)
  | F_recipient_username (v : option string)
  | F_tariff_id (v : Z)
  | F_duration_days (v : Z)
  | F_payment_id (v : option Z)
  | F_amount (v : float)
  | F_currency (v : string)
  | F_status (v : GiftStatus)
  | F_created_at (v : Z)
  | F_paid_at (v : option Z)
  | F_activated_at (v : option Z)
  | F_expires_at (v : option Z)
  | F_cancelled_at (v : option Z)
  | F_idempotency_key (v : string)
  | F_message_to_recipient (v : option string)
  | F_metadata (v : option (list (string * string)))
  | F_other (name : string).

(** [setattr(gift, field, value)] *)
Definition setattr (f : Field) (g : Gift) : Gift :=
  match f with
  | F_gift_code v =>
      mkGift v (donor_user_id g) (donor_username g) (recipient_type g)
        (recipient_user_id g) (recipient_username g) (tariff_id g)
        (duration_days g) (payment_id g) (amount g) (currency g) (status g)
        (created_at g) (paid_at g) (activated_at g) (expires_at g)
        (cancelled_at g) (idempotency_key g) (message_to_recipient g)
        (metadata g)
  | F_donor_user_id v =>
      mkGift (gift_code g) v (donor_username g) (recipient_type g)
        (recipient_user_id g) (recipient_username g) (tariff_id g)
        (duration_days g) (payment_id g) (amount g) (currency g) (status g)
        (created_at g) (paid_at g) (activated_at g) (expires_at g)
        (cancelled_at g) (idempotency_key g) (message_to_recipient g)
        (metadata g)
  | F_donor_username v =>
      mkGift (gift_code g) (donor_user_id g) v (recipient_type g)
        (recipient_user_id g) (recipient_username g) (tariff_id g)
        (duration_days g) (payment_id g) (amount g) (currency g) (status g)
        (created_at g) (paid_at g) (activated_at g) (expires_at g)
        (cancelled_at g) (idempotency_key g) (message_to_recipient g)
        (metadata g)
  | F_recipient_type v =>
      mkGift (gift_code g) (donor_user_id g) (donor_username g) v
        (recipient_user_id g) (recipient_username g) (tariff_id g)
        (duration_days g) (payment_id g) (amount g) (currency g) (status g)
        (created_at g) (paid_at g) (activated_at g) (expires_at g)
        (cancelled_at g) (idempotency_key g) (message_to_recipient g)
        (metadata g)
  | F_recipient_user_id v => set_recipient_user_id v g
  | F_recipient_username v => set_recipient_username v g
  | F_tariff_id v =>
      mkGift (gift_code g) (donor_user_id g) (donor_username g)
        (recipient_type g) (recipient_user_id g) (recipient_username g) v
        (duration_days g) (payment_id g) (amount g) (currency g) (status g)
        (created_at g) (paid_at g) (activated_at g) (expires_at g)
        (cancelled_at g) (idempotency_key g) (message_to_recipient g)
        (metadata g)
  | F_duration_days v =>
      mkGift (gift_code g) (donor_user_id g) (donor_username g)
        (recipient_type g) (recipient_user_id g) (recipient_username g)
        (tariff_id g) v (payment_id g) (amount g) (currency g) (status g)
        (created_at g) (paid_at g) (activated_at g) (expires_at g)
        (cancelled_at g) (idempotency_key g) (message_to_recipient g)
        (metadata g)
  | F_payment_id v => set_payment_id v g
  | F_amount v =>
      mkGift (gift_code g) (donor_user_id g) (donor_username g)
        (recipient_type g) (recipient_user_id g) (recipient_username g)
        (tariff_id g) (duration_days g) (payment_id g) v (currency g)
        (status g) (created_at g) (paid_at g) (activated_at g) (expires_at g)
        (cancelled_at g) (idempotency_key g) (message_to_recipient g)
        (metadata g)
  | F_currency v =>
      mkGift (gift_code g) (donor_user_id g) (donor_username g)
        (recipient_type g) (recipient_user_id g) (recipient_username g)
        (tariff_id g) (duration_days g) (payment_id g) (amount g) v
        (status g) (created_at g) (paid_at g) (activated_at g) (expires_at g)
        (cancelled_at g) (idempotency_key g) (message_to_recipient g)
        (metadata g)
  | F_status v => set_status v g
  | F_created_at v =>
      mkGift (gift_code g) (donor_user_id g) (donor_username g)
        (recipient_type g) (recipient_user_id g) (recipient_username g)
        (tariff_id g) (duration_days g) (payment_id g) (amount g)
        (currency g) (status g) v (paid_at g) (activated_at g) (expires_at g)
        (cancelled_at g) (idempotency_key g) (message_to_recipient g)
        (metadata g)
  | F_paid_at v => set_paid_at v g
  | F_activated_at v => set_activated_at v g
  | F_expires_at v => set_expires_at v g
  | F_cancelled_at v => set_cancelled_at v g
  | F_idempotency_key v =>
      mkGift (gift_code g) (donor_user_id g) (donor_username g)
        (recipient_type g) (recipient_user_id g) (recipient_username g)
        (tariff_id g) (duration_days g) (payment_id g) (amount g)
        (currency g) (status g) (created_at g) (paid_at g) (activated_at g)
        (expires_at g) (cancelled_at g) v (message_to_recipient g)
        (metadata g)
  | F_message_to_recipient v =>
      mkGift (gift_code g) (donor_user_id g) (donor_username g)
        (recipient_type g) (recipient_user_id g) (recipient_username g)
        (tariff_id g) (duration_days g) (payment_id g) (amount g)
        (currency g) (status g) (created_at g) (paid_at g) (activated_at g)
        (expires_at g) (cancelled_at g) (idempotency_key g) v (metadata g)
  | F_metadata v =>
      mkGift (gift_code g) (donor_user_id g) (donor_username g)
        (recipient_type g) (recipient_user_id g) (recipient_username g)
        (tariff_id g) (duration_days g) (payment_id g) (amount g)
        (currency g) (status g) (created_at g) (paid_at g) (activated_at g)
        (expires_at g) (cancelled_at g) (idempotency_key g)
        (message_to_recipient g) v
  | F_other _ => g
  end.

(** ** Constants ([gift_dal.py], [GiftService]) *)

Definition GIFT_CODE_LENGTH : nat := 16.
Definition GIFT_CODE_ALPHABET : string := "ABCDEFGHIJKLMNOPQRSTUVWXYZ0123456789".
Definition MAX_GIFT_CODE_ATTEMPTS : nat := 50.
Definition GIFT_EXPIRATION_DAYS : Z := 90.

Definition MAX_GIFTS_PER_HOUR : Z := 3.
Definition MAX_GIFTS_PER_DAY : Z := 10.
Definition MAX_DAILY_SPENDING : float := 10000.

Definition HOUR : Z := 3600 * 1000000.
Definition DAY : Z := 24 * HOUR.

(** [timedelta(days=d)], [timedelta(hours=h)]. *)
Definition timedelta_days (d : Z) : Z := d * DAY.
Definition timedelta_hours (h : Z) : Z := h * HOUR.

(** [t.replace(hour=0, minute=0, second=0, microsecond=0)] on a UTC time. *)
Definition replace_midnight (t : Z) : Z := t - t mod DAY.

(** ** Messages, exceptions, results *)

(** The exceptions the modelled code can meet. *)
Inductive Exn :=
  | ValueError_donor_not_found (donor : Z)
  | ValueError_tariff_not_found (tariff : Z)
  | ValueError_recipient_required
  | ValueError_recipient_not_found (recipient : Z)
  | RuntimeError_code_attempts (attempts : nat)
  | IntegrityError
  | MultipleResultsFound
  | AttributeError
  | SubscriptionError.

(** The texts the functions return, one constructor per literal or
    f-string of the source, carrying the interpolated values. *)
Inductive Msg :=
  (* create_gift *)
  | Donor_user_not_found
  | Donor_user_is_banned
  | Hourly_gift_limit_exceeded (count limit : Z)
  | Daily_gift_limit_exceeded (count limit : Z)
  | Daily_spending_limit_exceeded (spent limit : float)
  | Tariff_not_found_id (tariff : Z)
  | Tariff_not_active (tariff : Z)
  | Recipient_id_required
  | Recipient_user_not_found (recipient : Z)
  | Recipient_user_is_banned
  | Cannot_gift_yourself
  | Insufficient_daily_budget (remaining : float)
  | Gift_created_successfully
  (* validate_gift_code_for_activation *)
  | Invalid_gift_code
  | This_gift_already_activated
  | This_gift_has_expired
  | This_gift_has_been_cancelled
  | Gift_is_not_available (st : GiftStatus)
  | This_gift_for_another_user
  | You_cannot_activate_own_gift
  (* gift_dal.activate_gift *)
  | Gift_not_found
  | Gift_not_ready (st : GiftStatus)
  | Gift_has_expired
  | Cannot_activate_your_own_gift
  (* gift_dal.cancel_gift *)
  | Not_the_donor
  | Cannot_cancel_in_status (st : GiftStatus)
  (* GiftService *)
  | Tariff_not_found
  | Failed_to_activate_subscription
  | Gift_activated_successfully
  | Gift_not_found_for_payment
  | Gift_status_is (st : GiftStatus)
  | Failed_to_update_gift_status
  | Gift_payment_processed
  | Gift_code_is_valid
  | Not_authorized_to_cancel
  | Gift_cancelled_successfully
  | Internal_error (e : Exn).

(** What the external subscription capability hands back. *)
Record SubscriptionResult := mkSub {
  subscription_id : option Z;
  end_date : option Z;
  subscription_url : option string;
}.

Inductive SubscriptionOutcome :=
  | SubActivated (r : SubscriptionResult)
  | SubNothing
  | SubRaised.

(** The [result_data] dictionaries of the service. *)
Inductive ResultData :=
  | CreatedData (gift_id : Z) (code : string) (amt : float) (cur : string)
      (tname : string) (days : Z) (rtype : GiftRecipientType)
      (st : GiftStatus) (created : Z)
  | ActivatedData (gift_id : Z) (sub_id : option Z) (sub_end : option Z)
      (sub_url : option string) (donor_name : option string)
      (message_from_donor : option string)
  | PaidData (gift_id : Z) (code : string) (st : GiftStatus)
      (paid : option Z) (expires : option Z)
  | PreviewData (gift_id : Z) (rtype : GiftRecipientType) (tname : string)
      (days : Z) (donor_name : option string)
      (message_from_donor : option string) (created : Z) (expires : option Z)
  | CancelledData (gift_id : Z) (code : string) (st : GiftStatus)
      (cancelled_time : option Z).

Definition ServiceResult : Type := bool * Msg * option ResultData.

#[global] Instance Exn_eq_dec : EqDecision Exn.
Proof. solve_decision. Defined.

#[global] Instance Msg_eq_dec : EqDecision Msg.
Proof. solve_decision. Defined.

(** ** The session *)

Inductive Event :=
  | EvLockRow (gift_id : Z)
  | EvActivateSubscription (user tariff : Z)
  | EvCommit
  | EvRollback.

#[global] Instance Event_eq_dec : EqDecision Event.
Proof. solve_decision. Defined.

Record World := mkWorld {
  committed : gmap Z Gift;
  gifts : gmap Z Gift;
  row_locks : gset Z;
  gift_id_seq : Z;
  users : gmap Z User;
  tariffs : gmap Z Tariff;
  ticks : nat;
  draws : nat;
  trace : list Event;
}.

Definition with_gifts (m : gmap Z Gift) (w : World) : World :=
  mkWorld (committed w) m (row_locks w) (gift_id_seq w) (users w) (tariffs w)
    (ticks w) (draws w) (trace w).

Definition with_row_locks (l : gset Z) (w : World) : World :=
  mkWorld (committed w) (gifts w) l (gift_id_seq w) (users w) (tariffs w)
    (ticks w) (draws w) (trace w).

Definition with_gift_id_seq (n : Z) (w : World) : World :=
  mkWorld (committed w) (gifts w) (row_locks w) n (users w) (tariffs w)
    (ticks w) (draws w) (trace w).

Definition with_ticks (n : nat) (w : World) : World :=
  mkWorld (committed w) (gifts w) (row_locks w) (gift_id_seq w) (users w)
    (tariffs w) n (draws w) (trace w).

Definition with_draws (n : nat) (w : World) : World :=
  mkWorld (committed w) (gifts w) (row_locks w) (gift_id_seq w) (users w)
    (tariffs w) (ticks w) n (trace w).

Definition with_event (e : Event) (w : World) : World :=
  mkWorld (committed w) (gifts w) (row_locks w) (gift_id_seq w) (users w)
    (tariffs w) (ticks w) (draws w) (trace w ++ [e]).

(** ** The monad of the asynchronous functions: state and exceptions *)

Inductive Res (A : Type) :=
  | Ok (a : A)
  | Raise (e : Exn).
Arguments Ok {A} a.
Arguments Raise {A} e.

Definition M (A : Type) : Type := World -> Res A * World.

Definition ret {A} (a : A) : M A := fun w => (Ok a, w).

Definition bind {A B} (m : M A) (k : A -> M B) : M B :=
  fun w => match m w with
           | (Ok a, w') => k a w'
           | (Raise e, w') => (Raise e, w')
           end.

Definition raise {A} (e : Exn) : M A := fun w => (Raise e, w).

(** [try: body except Exception as e: handler(e)] *)
Definition try_except {A} (body : M A) (handler : Exn -> M A) : M A :=
  fun w => match body w with
           | (Ok a, w') => (Ok a, w')
           | (Raise e, w') => handler e w'
           end.

Definition get_world : M World := fun w => (Ok w, w).
Definition modify (f : World -> World) : M unit := fun w => (Ok tt, f w).

Declare Scope gift_scope.
Delimit Scope gift_scope with gift.
Notation "'do' x <- m ; k" := (bind m (fun x => k))
  (at level 10, x name, m at level 100, k at level 200) : gift_scope.
Notation "'do' ' p <- m ; k" := (bind m (fun x => match x with p => k end))
  (at level 10, p pattern, m at level 100, k at level 200) : gift_scope.
Notation "'run' m ; k" := (bind m (fun _ => k))
  (at level 10, m at level 100, k at level 200) : gift_scope.
Open Scope gift_scope.

(** [session.commit()], [session.rollback()]: both end the transaction
    and release its row locks. *)
Definition commit : M unit :=
  fun w => (Ok tt,
            mkWorld (gifts w) (gifts w) ∅ (gift_id_seq w) (users w) (tariffs w)
              (ticks w) (draws w) (trace w ++ [EvCommit])).

Definition rollback : M unit :=
  fun w => (Ok tt,
            mkWorld (committed w) (committed w) ∅ (gift_id_seq w) (users w)
              (tariffs w) (ticks w) (draws w) (trace w ++ [EvRollback])).

(** [result.scalar_one_or_none()] *)
Definition scalar_one_or_none {A} (rows : list A) : M (option A) :=
  match rows with
  | [] => ret None
  | [x] => ret (Some x)
  | _ => raise MultipleResultsFound
  end.

(** [SELECT ... FROM gifted_subscriptions WHERE P] in the open transaction. *)
Definition select_gifts (P : Z * Gift -> Prop) `{!∀ x, Decision (P x)}
    : M (list (Z * Gift)) :=
  fun w => (Ok (map_to_list (filter P (gifts w))), w).

(** [... FOR UPDATE]: the selected rows are locked until the transaction
    ends. *)
Definition lock_rows (rows : list (Z * Gift)) : M unit :=
  fun w => (Ok tt,
            mkWorld (committed w) (gifts w)
              (row_locks w ∪ list_to_set rows.*1) (gift_id_seq w) (users w)
              (tariffs w) (ticks w) (draws w)
              (trace w ++ (EvLockRow <$> rows.*1))).

(** ** Integrity constraints of [gifted_subscriptions]

    The unique indexes on [gift_code], [idempotency_key] and [payment_id]
    and the foreign keys into [users] and [tariffs], as the table
    declares them; the database checks them when a flush writes a row,
    and only on the columns the write sets. The foreign key of
    [payment_id] into [payments] is not checked: the engine neither
    reads nor writes that table, and a payment it is told of exists. *)

Definition no_other_row (P : Gift -> Prop) `{!∀ g, Decision (P g)}
    (id : Z) (m : gmap Z Gift) : bool :=
  bool_decide (map_Forall (fun j g => j = id ∨ ¬ P g) m).

Definition fk_user (o : option Z) (us : gmap Z User) : bool :=
  match o with
  | None => true
  | Some u => bool_decide (is_Some (us !! u))
  end.

Definition insert_allowed (id : Z) (g : Gift) (w : World) : bool :=
  bool_decide (gifts w !! id = None)
  && no_other_row (fun g' => gift_code g' = gift_code g) id (gifts w)
  && no_other_row (fun g' => idempotency_key g' = idempotency_key g) id (gifts w)
  && match payment_id g with
     | None => true
     | Some p => no_other_row (fun g' => payment_id g' = Some p) id (gifts w)
     end
  && fk_user (Some (donor_user_id g)) (users w)
  && fk_user (recipient_user_id g) (users w)
  && bool_decide (is_Some (tariffs w !! tariff_id g)).

Definition update_allowed (id : Z) (old new : Gift) (w : World) : bool :=
  (bool_decide (payment_id new = payment_id old)
   || match payment_id new with
      | None => true
      | Some p => no_other_row (fun g' => payment_id g' = Some p) id (gifts w)
      end)
  && (bool_decide (recipient_user_id new = recipient_user_id old)
      || fk_user (recipient_user_id new) (users w))
  && (bool_decide (gift_code new = gift_code old)
      || no_other_row (fun g' => gift_code g' = gift_code new) id (gifts w))
  && (bool_decide (idempotency_key new = idempotency_key old)
      || no_other_row (fun g' => idempotency_key g' = idempotency_key new) id
           (gifts w))
  && (bool_decide (donor_user_id new = donor_user_id old)
      || fk_user (Some (donor_user_id new)) (users w))
  && (bool_decide (tariff_id new = tariff_id old)
      || bool_decide (is_Some (tariffs w !! tariff_id new))).

(** [session.add(new_gift); await session.flush()]: the row gets the
    next value of the [gift_id] sequence, which is consumed even when
    the insert is refused. *)
Definition db_insert (g : Gift) : M Z :=
  fun w =>
    let id := gift_id_seq w + 1 in
    let w1 := with_gift_id_seq id w in
    if insert_allowed id g w
    then (Ok id, with_gifts (<[id := g]> (gifts w)) w1)
    else (Raise IntegrityError, w1).

(** Attribute assignments on a loaded row followed by
    [await session.flush()]. *)
Definition db_update (id : Z) (new : Gift) : M unit :=
  fun w =>
    match gifts w !! id with
    | None => (Ok tt, w)
    | Some old =>
        if update_allowed id old new w
        then (Ok tt, with_gifts (<[id := new]> (gifts w)) w)
        else (Raise IntegrityError, w)
    end.

(** Python truthiness of the values the code tests with [if x] /
    [if not x]. *)
Definition truthy_id (o : option Z) : bool :=
  match o with
  | Some z => bool_decide (z ≠ 0)
  | None => false
  end.

Definition truthy_str (o : option string) : bool :=
  match o with
  | Some s => bool_decide (s ≠ "")
  | None => false
  end.

(** [gift.expires_at and gift.expires_at < now] *)
Definition is_past (o : option Z) (now : Z) : bool :=
  match o with
  | Some e => bool_decide (e < now)
  | None => false
  end.

(** The [gift_data] dictionary handed to [create_gift_record]: keys that
    may be absent are options. *)
Record GiftData := mkGiftData {
  gd_donor_user_id : Z;
  gd_recipient_type : GiftRecipientType;
  gd_tariff_id : Z;
  gd_duration_days : Z;
  gd_amount : float;
  gd_currency : option string;
  gd_idempotency_key : string;
  gd_recipient_user_id : option Z;
  gd_message_to_recipient : option string;
  gd_metadata : option (list (string * string));
  gd_gift_code : option string;
  gd_status : option GiftStatus;
}.

(** Modelled from the spec: [db/dal/user_dal.py] is not among the
    sources; section 6 and the callers use [get_user_by_id] as the
    lookup of a user by primary key, [None] when there is none. *)
Definition get_user_by_id (user_id : Z) : M (option User) :=
  fun w => (Ok (users w !! user_id), w).

(** [tariff_dal.get_tariff_by_id]: [session.get(Tariff, tariff_id)]. *)
Definition get_tariff_by_id (tariff_id : Z) : M (option Tariff) :=
  fun w => (Ok (tariffs w !! tariff_id), w).

(** ** [db/dal/gift_dal.py] *)

Module gift_dal.
Section Dal.

(** [clock n] is what the [n]-th reading of the wall clock returns,
    [rng n] the [n]-th draw of the secure random source. *)
Variable clock : nat -> Z.
Variable rng : nat -> nat.

Definition datetime_now : M Z :=
  fun w => (Ok (clock (ticks w)), with_ticks (S (ticks w)) w).

(** [secrets.choice(alphabet)] *)
Definition secrets_choice (alphabet : string) : M ascii :=
  fun w =>
    let l := list_ascii_of_string alphabet in
    (Ok (nth (rng (draws w) mod length l)%nat l "A"%char),
     with_draws (S (draws w)) w).

Fixpoint choices (n : nat) : M (list ascii) :=
  match n with
  | O => ret []
  | S n' => do c <- secrets_choice GIFT_CODE_ALPHABET;
            do cs <- choices n';
            ret (c :: cs)
  end.

Definition _generate_gift_code_candidate : M string :=
  do cs <- choices GIFT_CODE_LENGTH;
  ret (string_of_list_ascii cs).

Definition _gift_code_exists (code : string) : M bool :=
  do rows <- select_gifts (fun r => gift_code r.2 = code);
  do r <- scalar_one_or_none rows.*1;
  ret (bool_decide (r ≠ None)).

(** The [for attempt in range(MAX_GIFT_CODE_ATTEMPTS)] loop, [n]
    iterations left. *)
Fixpoint generate_unique_gift_code_loop (n : nat) : M string :=
  match n with
  | O => raise (RuntimeError_code_attempts MAX_GIFT_CODE_ATTEMPTS)
  | S n' => do candidate <- _generate_gift_code_candidate;
            do taken <- _gift_code_exists candidate;
            if negb taken then ret candidate
            else generate_unique_gift_code_loop n'
  end.

Definition generate_unique_gift_code : M string :=
  generate_unique_gift_code_loop MAX_GIFT_CODE_ATTEMPTS.

Definition create_gift_record (gift_data : GiftData) : M (Z * Gift) :=
  do donor <- get_user_by_id (gd_donor_user_id gift_data);
  match donor with
  | None => raise (ValueError_donor_not_found (gd_donor_user_id gift_data))
  | Some donor =>
  do tariff <- get_tariff_by_id (gd_tariff_id gift_data);
  match tariff with
  | None => raise (ValueError_tariff_not_found (gd_tariff_id gift_data))
  | Some _ =>
  do _ <- (match gd_recipient_type gift_data with
           | direct =>
               if negb (truthy_id (gd_recipient_user_id gift_data))
               then raise ValueError_recipient_required
               else
                 let rid := default 0 (gd_recipient_user_id gift_data) in
                 do recipient <- get_user_by_id rid;
                 match recipient with
                 | None => raise (ValueError_recipient_not_found rid)
                 | Some _ => ret tt
                 end
           | random => ret tt
           end);
  do code <- (match gd_gift_code gift_data with
              | Some c => ret c
              | None => generate_unique_gift_code
              end);
  let cur := default "RUB"%string (gd_currency gift_data) in
  let st := default pending_payment (gd_status gift_data) in
  let dname := if truthy_str (user_username donor)
               then user_username donor else None in
  do now <- datetime_now;
  let new_gift :=
    mkGift code (gd_donor_user_id gift_data) dname
      (gd_recipient_type gift_data) (gd_recipient_user_id gift_data) None
      (gd_tariff_id gift_data) (gd_duration_days gift_data) None
      (gd_amount gift_data) cur st now None None None None
      (gd_idempotency_key gift_data) (gd_message_to_recipient gift_data)
      (gd_metadata gift_data) in
  do id <- db_insert new_gift;
  ret (id, new_gift)
  end
  end.

Definition get_gift_by_id (gift_id : Z) : M (option Gift) :=
  fun w => (Ok (gifts w !! gift_id), w).

Definition get_gift_by_code (code : string) (for_update : bool)
    : M (option (Z * Gift)) :=
  do rows <- select_gifts (fun r => gift_code r.2 = code);
  do _ <- (if for_update then lock_rows rows else ret tt);
  scalar_one_or_none rows.

Definition get_gift_by_payment_id (pid : Z) : M (option (Z * Gift)) :=
  do rows <- select_gifts (fun r => payment_id r.2 = Some pid);
  scalar_one_or_none rows.

(** [additional_fields] is the dictionary of the keyword arguments, in
    the order they were given; the engine's one call passes none. *)
Definition update_gift_status (gift_id : Z) (new_status : GiftStatus)
    (additional_fields : list Field) : M (option Gift) :=
  do gift <- get_gift_by_id gift_id;
  match gift with
  | None => ret None
  | Some gift =>
      let gift' :=
        foldl (fun g f => setattr f g) (set_status new_status gift)
          additional_fields in
      run db_update gift_id gift';
      ret (Some gift')
  end.

Definition mark_gift_as_paid (gift_id pid : Z) : M (option Gift) :=
  do gift <- get_gift_by_id gift_id;
  match gift with
  | None => ret None
  | Some gift =>
      if bool_decide (status gift ≠ pending_payment) then ret (Some gift)
      else
        do now <- datetime_now;
        let expires := now + timedelta_days GIFT_EXPIRATION_DAYS in
        let gift' :=
          set_expires_at (Some expires)
            (set_paid_at (Some now)
               (set_payment_id (Some pid) (set_status ready gift))) in
        run db_update gift_id gift';
        ret (Some gift')
  end.

Definition activate_gift (gift_id uid : Z) : M (option Gift * option Msg) :=
  do gift <- get_gift_by_id gift_id;
  match gift with
  | None => ret (None, Some Gift_not_found)
  | Some gift =>
      if bool_decide (status gift ≠ ready)
      then ret (Some gift, Some (Gift_not_ready (status gift)))
      else
        do now <- datetime_now;
        if is_past (expires_at gift) now then
          let gift' := set_status expired gift in
          run db_update gift_id gift';
          ret (Some gift', Some Gift_has_expired)
        else
          let finish (g : Gift) : M (option Gift * option Msg) :=
            let g' := set_activated_at (Some now) (set_status activated g) in
            run db_update gift_id g';
            ret (Some g', None) in
          match recipient_type gift with
          | direct =>
              if bool_decide (recipient_user_id gift ≠ Some uid)
              then ret (Some gift, Some This_gift_for_another_user)
              else finish gift
          | random =>
              if bool_decide (donor_user_id gift = uid)
              then ret (Some gift, Some Cannot_activate_your_own_gift)
              else
                let g1 := set_recipient_user_id (Some uid) gift in
                do recipient <- get_user_by_id uid;
                let g2 :=
                  match recipient with
                  | Some r => if truthy_str (user_username r)
                              then set_recipient_username (user_username r) g1
                              else g1
                  | None => g1
                  end in
                finish g2
          end
  end.

Definition cancel_gift (gift_id donor : Z) : M (option Gift * option Msg) :=
  do gift <- get_gift_by_id gift_id;
  match gift with
  | None => ret (None, Some Gift_not_found)
  | Some gift =>
      if bool_decide (donor_user_id gift ≠ donor)
      then ret (Some gift, Some Not_the_donor)
      else if bool_decide (status gift ∉ [pending_payment; ready])
      then ret (Some gift, Some (Cannot_cancel_in_status (status gift)))
      else
        do now <- datetime_now;
        let gift' := set_cancelled_at (Some now) (set_status cancelled gift) in
        run db_update gift_id gift';
        ret (Some gift', None)
  end.

Definition validate_gift_code_for_activation (code : string) (uid : Z)
    : M (option (Z * Gift) * option Msg) :=
  do found <- get_gift_by_code code true;
  match found with
  | None => ret (None, Some Invalid_gift_code)
  | Some (gift_id, gift) =>
      if bool_decide (status gift ≠ ready) then
        match status gift with
        | activated => ret (found, Some This_gift_already_activated)
        | expired => ret (found, Some This_gift_has_expired)
        | cancelled => ret (found, Some This_gift_has_been_cancelled)
        | st => ret (found, Some (Gift_is_not_available st))
        end
      else
        do now <- datetime_now;
        if is_past (expires_at gift) now then
          do updated <- update_gift_status gift_id expired [];
          ret (Some (gift_id, default gift updated), Some This_gift_has_expired)
        else
          match recipient_type gift with
          | direct =>
              if bool_decide (recipient_user_id gift ≠ Some uid)
              then ret (found, Some This_gift_for_another_user)
              else ret (found, None)
          | random =>
              if bool_decide (donor_user_id gift = uid)
              then ret (found, Some You_cannot_activate_own_gift)
              else ret (found, None)
          end
  end.

(** [result.scalar() or 0] over [COUNT(gift_id)]. *)
Definition count_rows (rows : list (Z * Gift)) : Z := Z.of_nat (length rows).

(** [SUM(amount)]: [NULL] over no row; otherwise the first amount, to
    which the database adds the others one by one, each addition
    rounded. The order in which it scans the rows is the database's
    own; the embedding takes the order of the table. The properties
    speak of the sum whatever its value, and their examples sum one row
    or whole amounts, which no order changes. *)
Definition sql_sum_amount (rows : list (Z * Gift)) : option float :=
  match rows with
  | [] => None
  | r :: rest =>
      Some (foldl (fun acc r' => float_add acc (amount r'.2)) (amount r.2)
              rest)
  end.

(** [x or 0.0] on the scalar of a query: [None] and a zero give [0.0]. *)
Definition or_zero (o : option float) : float :=
  match o with
  | Some x => if truthy_float x then x else 0
  | None => 0
  end.

(** [result.scalar() or 0.0] over [SUM(amount)]. *)
Definition sum_amount (rows : list (Z * Gift)) : float :=
  or_zero (sql_sum_amount rows).

(** The [WHERE] clauses of the two limit queries. *)
Definition rate_limit_where (user_id time_threshold : Z) (r : Z * Gift)
    : Prop :=
  donor_user_id r.2 = user_id ∧ time_threshold ≤ created_at r.2.

Definition daily_spending_where (user_id today_start : Z) (r : Z * Gift)
    : Prop :=
  donor_user_id r.2 = user_id
  ∧ today_start ≤ created_at r.2
  ∧ status r.2 ∈ [pending_payment; ready; activated].

#[global] Instance rate_limit_where_dec u t r :
  Decision (rate_limit_where u t r).
Proof. unfold rate_limit_where. apply _. Defined.

#[global] Instance daily_spending_where_dec u t r :
  Decision (daily_spending_where u t r).
Proof. unfold daily_spending_where. apply _. Defined.

Definition check_user_gift_rate_limit (user_id hours max_gifts : Z)
    : M (bool * Z) :=
  do now <- datetime_now;
  let time_threshold := now - timedelta_hours hours in
  do rows <- select_gifts (rate_limit_where user_id time_threshold);
  let count := count_rows rows in
  let can_create := bool_decide (count < max_gifts) in
  ret (can_create, count).

Definition check_user_daily_gift_spending (user_id : Z) (max_amount : float)
    : M (bool * float) :=
  do now <- datetime_now;
  let today_start := replace_midnight now in
  do rows <- select_gifts (daily_spending_where user_id today_start);
  let total_spent := sum_amount rows in
  let can_spend := float_lt total_spent max_amount in
  ret (can_spend, total_spent).

(** The bulk [UPDATE ... WHERE status = ready AND expires_at < now]. *)
Definition lapsed (now : Z) (g : Gift) : bool :=
  bool_decide (status g = ready) && is_past (expires_at g) now.

Definition expire_old_gifts : M Z :=
  do now <- datetime_now;
  fun w =>
    let hit := filter (fun r => lapsed now r.2 = true) (gifts w) in
    (Ok (Z.of_nat (size hit)),
     with_gifts ((fun g => if lapsed now g then set_status expired g else g)
                   <$> gifts w) w).


(** *** Listings

    [ORDER BY created_at DESC]: the order among rows created at the same
    instant is the database's own, and may differ from one execution of
    a query to the next. [tie] is the choice the database makes in one
    execution: among rows of equal [created_at], the row of lower
    [tie gift_id] comes first. Every listing takes the [tie] of its
    execution as an argument. [limit] and [offset] are the natural
    numbers the callers pass. *)
Definition newer_first (tie : Z -> nat) (a b : Z * Gift) : Prop :=
  created_at b.2 < created_at a.2
  ∨ (created_at b.2 = created_at a.2 ∧ (tie a.1 ≤ tie b.1)%nat).

#[global] Instance newer_first_dec tie a b : Decision (newer_first tie a b).
Proof. unfold newer_first. apply _. Defined.

Definition order_by_created_desc (tie : Z -> nat) (rows : list (Z * Gift))
    : list (Z * Gift) :=
  merge_sort (newer_first tie) rows.

(** [if status is not None: stmt = stmt.where(status == status)] *)
Definition status_matches (st : option GiftStatus) (g : Gift) : Prop :=
  match st with
  | None => True
  | Some s => status g = s
  end.

#[global] Instance status_matches_dec st g : Decision (status_matches st g).
Proof. destruct st; cbn; apply _. Defined.

Definition recipient_type_matches (rt : option GiftRecipientType) (g : Gift)
    : Prop :=
  match rt with
  | None => True
  | Some t => recipient_type g = t
  end.

#[global] Instance recipient_type_matches_dec rt g :
  Decision (recipient_type_matches rt g).
Proof. destruct rt; cbn; apply _. Defined.

Definition by_donor_where (donor : Z) (st : option GiftStatus)
    (r : Z * Gift) : Prop :=
  donor_user_id r.2 = donor ∧ status_matches st r.2.

Definition by_recipient_where (recipient : Z) (st : option GiftStatus)
    (r : Z * Gift) : Prop :=
  recipient_user_id r.2 = Some recipient ∧ status_matches st r.2.

Definition admin_where (st : option GiftStatus)
    (rt : option GiftRecipientType) (r : Z * Gift) : Prop :=
  status_matches st r.2 ∧ recipient_type_matches rt r.2.

#[global] Instance by_donor_where_dec d st r : Decision (by_donor_where d st r).
Proof. unfold by_donor_where. apply _. Defined.

#[global] Instance by_recipient_where_dec d st r :
  Decision (by_recipient_where d st r).
Proof. unfold by_recipient_where. apply _. Defined.

#[global] Instance admin_where_dec st rt r : Decision (admin_where st rt r).
Proof. unfold admin_where. apply _. Defined.

Definition get_gifts_by_donor (tie : Z -> nat) (donor : Z)
    (st : option GiftStatus) (limit offset : nat) : M (list (Z * Gift)) :=
  do rows <- select_gifts (by_donor_where donor st);
  ret (take limit (drop offset (order_by_created_desc tie rows))).

Definition get_gifts_by_recipient (tie : Z -> nat) (recipient : Z)
    (st : option GiftStatus) (limit offset : nat) : M (list (Z * Gift)) :=
  do rows <- select_gifts (by_recipient_where recipient st);
  ret (take limit (drop offset (order_by_created_desc tie rows))).

Definition get_gifts_for_admin (tie : Z -> nat) (st : option GiftStatus)
    (rt : option GiftRecipientType) (limit offset : nat)
    : M (list (Z * Gift)) :=
  do rows <- select_gifts (admin_where st rt);
  ret (take limit (drop offset (order_by_created_desc tie rows))).

Definition count_gifts_for_admin (st : option GiftStatus)
    (rt : option GiftRecipientType) : M Z :=
  do rows <- select_gifts (admin_where st rt);
  ret (count_rows rows).

(** *** Statistics *)

(** [for status in GiftStatus], in the order of the enumeration. *)
Definition all_statuses : list GiftStatus :=
  [pending_payment; payment_failed; ready; activated; expired; cancelled;
   refunded].

Record GiftStatistics := mkGiftStatistics {
  total_gifts : Z;
  status_breakdown : list (GiftStatus * Z);
  activated_total_amount : float;
  unique_donors : Z;
  unique_recipients : Z;
  created_last_24h : Z;
  activated_last_24h : Z;
}.

(** [column >= threshold] on a nullable column: never true of [NULL]. *)
Definition not_before (o : option Z) (threshold : Z) : Prop :=
  match o with
  | Some t => threshold ≤ t
  | None => False
  end.

#[global] Instance not_before_dec o t : Decision (not_before o t).
Proof. destruct o; cbn; apply _. Defined.

(** [COUNT(DISTINCT column)]: [NULL]s are not counted. *)
Definition count_distinct (values : list (option Z)) : Z :=
  Z.of_nat (size (list_to_set (omap id values) : gset Z)).

Fixpoint count_by_status (sts : list GiftStatus)
    : M (list (GiftStatus * Z)) :=
  match sts with
  | [] => ret []
  | st :: rest =>
      do rows <- select_gifts (fun r => status r.2 = st);
      do tail <- count_by_status rest;
      ret ((st, count_rows rows) :: tail)
  end.

Definition get_gift_statistics : M GiftStatistics :=
  do all_rows <- select_gifts (fun _ => True);
  let total_count := count_rows all_rows in
  do status_stats <- count_by_status all_statuses;
  do activated_rows <- select_gifts (fun r => status r.2 = activated);
  let activated_sum := sum_amount activated_rows in
  do donor_rows <- select_gifts (fun _ => True);
  let donors := count_distinct ((fun r => Some (donor_user_id r.2))
                                  <$> donor_rows) in
  do recipient_rows <- select_gifts (fun r => recipient_user_id r.2 ≠ None);
  let recipients := count_distinct ((fun r => recipient_user_id r.2)
                                      <$> recipient_rows) in
  do now <- datetime_now;
  let time_threshold := now - timedelta_hours 24 in
  do created_rows <- select_gifts (fun r => time_threshold ≤ created_at r.2);
  do activated_recent <-
     select_gifts (fun r => status r.2 = activated
                            ∧ not_before (activated_at r.2) time_threshold);
  ret (mkGiftStatistics total_count status_stats activated_sum donors
         recipients (count_rows created_rows) (count_rows activated_recent)).


(** *** Random recipient *)

(** [db_random n] is the [n]-th value the database's [random()] ordering
    is driven by: [ORDER BY random() LIMIT 1] hands back the candidate
    at that position, modulo their number. *)
Variable db_random : nat -> nat.

(** [if exclude_user_ids:] an empty list filters nothing, like [None]. *)
Definition active_user_where (exclude_user_ids : option (list Z))
    (r : Z * User) : Prop :=
  user_is_banned r.2 = false
  ∧ match exclude_user_ids with
    | Some (x :: l) => r.1 ∉ x :: l
    | _ => True
    end.

#[global] Instance active_user_where_dec ex r :
  Decision (active_user_where ex r).
Proof. unfold active_user_where. destruct ex as [[|x l]|]; apply _. Defined.

Definition get_random_active_user (exclude_user_ids : option (list Z))
    : M (option (Z * User)) :=
  fun w =>
    let rows :=
      map_to_list (filter (active_user_where exclude_user_ids) (users w)) in
    (Ok (rows !! (db_random (draws w) mod length rows)%nat),
     with_draws (S (draws w)) w).

End Dal.
End gift_dal.

(** ** [bot/services/gift_service.py] *)

Module GiftService.
Section Service.

Variable clock : nat -> Z.
Variable rng : nat -> nat.

(** Modelled from the spec: [bot/services/subscription_service.py] is
    not among the sources; section 1 takes subscription activation as an
    external capability the core calls into. [activate_subscription w
    user tariff] is its outcome in the session state [w]: a result
    dictionary, a falsy value, or an exception; it is taken to leave the
    gift table and the open transaction as they are. *)
Variable activate_subscription : World -> Z -> Z -> SubscriptionOutcome.

Definition call_activate_subscription (user tariff : Z)
    : M (option SubscriptionResult) :=
  fun w =>
    let w' := with_event (EvActivateSubscription user tariff) w in
    match activate_subscription w user tariff with
    | SubActivated r => (Ok (Some r), w')
    | SubNothing => (Ok None, w')
    | SubRaised => (Raise SubscriptionError, w')
    end.

Definition create_gift (donor_id tariff_id : Z)
    (recipient_type : GiftRecipientType) (idempotency_key : string)
    (recipient_user_id : option Z) (message_to_recipient : option string)
    (metadata : option (list (string * string))) : M ServiceResult :=
  try_except
    (do donor <- get_user_by_id donor_id;
     match donor with
     | None => ret (false, Donor_user_not_found, None)
     | Some donor =>
     if user_is_banned donor then ret (false, Donor_user_is_banned, None) else
     do '(can_create_hourly, hourly_count) <-
        gift_dal.check_user_gift_rate_limit clock donor_id 1 MAX_GIFTS_PER_HOUR;
     if negb can_create_hourly
     then ret (false,
               Hourly_gift_limit_exceeded hourly_count MAX_GIFTS_PER_HOUR, None)
     else
     do '(can_create_daily, daily_count) <-
        gift_dal.check_user_gift_rate_limit clock donor_id 24 MAX_GIFTS_PER_DAY;
     if negb can_create_daily
     then ret (false,
               Daily_gift_limit_exceeded daily_count MAX_GIFTS_PER_DAY, None)
     else
     do '(can_spend, daily_spending) <-
        gift_dal.check_user_daily_gift_spending clock donor_id
          MAX_DAILY_SPENDING;
     if negb can_spend
     then ret (false,
               Daily_spending_limit_exceeded daily_spending MAX_DAILY_SPENDING,
               None)
     else
     do tariff <- get_tariff_by_id tariff_id;
     match tariff with
     | None => ret (false, Tariff_not_found_id tariff_id, None)
     | Some tariff =>
     if negb (tariff_is_active tariff)
     then ret (false, Tariff_not_active tariff_id, None)
     else
     let recipient_check : M (option ServiceResult) :=
       match recipient_type with
       | direct =>
           if negb (truthy_id recipient_user_id)
           then ret (Some (false, Recipient_id_required, None))
           else
             let rid := default 0 recipient_user_id in
             do recipient <- get_user_by_id rid;
             match recipient with
             | None => ret (Some (false, Recipient_user_not_found rid, None))
             | Some recipient =>
                 if user_is_banned recipient
                 then ret (Some (false, Recipient_user_is_banned, None))
                 else if bool_decide (donor_id = rid)
                 then ret (Some (false, Cannot_gift_yourself, None))
                 else ret None
             end
       | random => ret None
       end in
     do rejected <- recipient_check;
     match rejected with
     | Some failure => ret failure
     | None =>
     let remaining_budget := float_sub MAX_DAILY_SPENDING daily_spending in
     if float_lt remaining_budget (tariff_price tariff)
     then ret (false, Insufficient_daily_budget remaining_budget, None)
     else
     let gift_data :=
       mkGiftData donor_id recipient_type tariff_id
         (tariff_duration_days tariff) (tariff_price tariff)
         (Some (tariff_currency tariff)) idempotency_key
         (if truthy_id recipient_user_id then recipient_user_id else None)
         (if truthy_str message_to_recipient
          then message_to_recipient else None)
         (match metadata with
          | Some (_ :: _) => metadata
          | _ => None
          end)
         None None in
     do '(gift_id, gift) <- gift_dal.create_gift_record clock rng gift_data;
     ret (true, Gift_created_successfully,
          Some (CreatedData gift_id (gift_code gift) (amount gift)
                  (currency gift) (tariff_name tariff) (duration_days gift)
                  (recipient_type_of gift) (status gift)
                  (created_at gift)))
     end
     end
     end)
    (fun e => run rollback; ret (false, Internal_error e, None)).

(** [_send_gift_activation_notifications] and
    [_send_gift_ready_notification] catch every exception they meet and
    touch neither the session nor the result; they are left out. *)

Definition activate_gift (code : string) (activating_user_id : Z)
    : M ServiceResult :=
  try_except
    (do '(gift, error) <-
        gift_dal.validate_gift_code_for_activation clock code
          activating_user_id;
     match error with
     | Some error => ret (false, error, None)
     | None =>
     match gift with
     | None => ret (false, Invalid_gift_code, None)
     | Some (gift_id, gift) =>
     do '(activated_gift, activation_error) <-
        gift_dal.activate_gift clock gift_id activating_user_id;
     match activation_error with
     | Some activation_error =>
         run rollback; ret (false, activation_error, None)
     | None =>
     do tariff <- get_tariff_by_id (tariff_id gift);
     match tariff with
     | None => run rollback; ret (false, Tariff_not_found, None)
     | Some _ =>
     do subscription_result <-
        call_activate_subscription activating_user_id (tariff_id gift);
     match subscription_result with
     | None => run rollback; ret (false, Failed_to_activate_subscription, None)
     | Some sub =>
         run commit;
         ret (true, Gift_activated_successfully,
              Some (ActivatedData gift_id (subscription_id sub) (end_date sub)
                      (subscription_url sub) (donor_username gift)
                      (message_to_recipient gift)))
     end
     end
     end
     end
     end)
    (fun e => run rollback; ret (false, Internal_error e, None)).

Definition process_gift_payment (pid : Z) : M ServiceResult :=
  try_except
    (do gift <- gift_dal.get_gift_by_payment_id pid;
     match gift with
     | None => ret (false, Gift_not_found_for_payment, None)
     | Some (gift_id, gift) =>
     if bool_decide (status gift ≠ pending_payment)
     then ret (false, Gift_status_is (status gift), None)
     else
     do updated_gift <- gift_dal.mark_gift_as_paid clock gift_id pid;
     match updated_gift with
     | None => run rollback; ret (false, Failed_to_update_gift_status, None)
     | Some updated_gift =>
         run commit;
         ret (true, Gift_payment_processed,
              Some (PaidData gift_id (gift_code updated_gift)
                      (status updated_gift) (paid_at updated_gift)
                      (expires_at updated_gift)))
     end
     end)
    (fun e => run rollback; ret (false, Internal_error e, None)).

Definition validate_gift_code (code : string) (user_id : Z)
    : M ServiceResult :=
  try_except
    (do '(gift, error) <-
        gift_dal.validate_gift_code_for_activation clock code user_id;
     match error with
     | Some error => ret (false, error, None)
     | None =>
     match gift with
     | None => ret (false, Invalid_gift_code, None)
     | Some (gift_id, gift) =>
     do tariff <- get_tariff_by_id (tariff_id gift);
     ret (true, Gift_code_is_valid,
          Some (PreviewData gift_id (recipient_type gift)
                  (match tariff with
                   | Some t => tariff_name t
                   | None => "Unknown"
                   end)
                  (duration_days gift) (donor_username gift)
                  (message_to_recipient gift) (created_at gift)
                  (expires_at gift)))
     end
     end)
    (fun e => ret (false, Internal_error e, None)).

Definition cancel_gift (gift_id cancelling_user_id : Z) (is_admin : bool)
    : M ServiceResult :=
  try_except
    (do gift <- gift_dal.get_gift_by_id gift_id;
     match gift with
     | None => ret (false, Gift_not_found, None)
     | Some gift =>
     if negb is_admin && bool_decide (donor_user_id gift ≠ cancelling_user_id)
     then ret (false, Not_authorized_to_cancel, None)
     else
     do '(cancelled_gift, error) <-
        gift_dal.cancel_gift clock gift_id (donor_user_id gift);
     match error with
     | Some error => ret (false, error, None)
     | None =>
         run commit;
         match cancelled_gift with
         | None => raise AttributeError
         | Some cancelled_gift =>
             ret (true, Gift_cancelled_successfully,
                  Some (CancelledData gift_id (gift_code cancelled_gift)
                          (status cancelled_gift)
                          (cancelled_at cancelled_gift)))
         end
     end
     end)
    (fun e => run rollback; ret (false, Internal_error e, None)).


(** *** Statistics and random recipient *)

Record UserGiftStatistics := mkUserGiftStatistics {
  stats_user_id : Z;
  gifts_sent : Z;
  gifts_received : Z;
  total_spent : float;
  sent_by_status : list (GiftStatus * Z);
  received_by_status : list (GiftStatus * Z);
}.

(** [sum(1 for g in gifts if g.status == status)] *)
Definition count_status (st : GiftStatus) (page : list (Z * Gift)) : Z :=
  Z.of_nat (length (filter (fun r => status r.2 = st) page)).

(** The dictionary built by [for status in GiftStatus: ... if count > 0]. *)
Definition by_status (page : list (Z * Gift)) : list (GiftStatus * Z) :=
  filter (fun p => 0 < p.2)
    ((fun st => (st, count_status st page)) <$> gift_dal.all_statuses).

(** [float(sum(g.amount for g in gifts_sent if g.status !=
    GiftStatus.cancelled))]: Python's [sum] starts from [0] and adds the
    amounts in the order of the list, each addition rounded (CPython
    from 3.12 on compensates the rounding of a sum of floats; no
    property speaks of this total). *)
Definition total_not_cancelled (page : list (Z * Gift)) : float :=
  foldl (fun acc r => float_add acc (amount r.2)) 0
    (filter (fun r => status r.2 ≠ cancelled) page).

(** The listings are called with their defaults, [limit=50],
    [offset=0]; [tie_sent] and [tie_received] are the orders among ties
    of the two executions. *)
Definition get_user_gift_statistics (tie_sent tie_received : Z -> nat)
    (user_id : Z) : M (UserGiftStatistics + Exn) :=
  try_except
    (do sent <- gift_dal.get_gifts_by_donor tie_sent user_id None 50 0;
     do received <-
        gift_dal.get_gifts_by_recipient tie_received user_id None 50 0;
     ret (inl (mkUserGiftStatistics user_id (gift_dal.count_rows sent)
                 (gift_dal.count_rows received) (total_not_cancelled sent)
                 (by_status sent) (by_status received))))
    (fun e => ret (inr e)).

Definition get_global_gift_statistics
    : M (gift_dal.GiftStatistics + Exn) :=
  try_except
    (do stats <- gift_dal.get_gift_statistics clock;
     ret (inl stats))
    (fun e => ret (inr e)).

Variable db_random : nat -> nat.

Inductive PickResult :=
  | No_eligible_users_found
  | Random_user_selected (user_id : Z)
  | Pick_internal_error (e : Exn).

Definition get_random_eligible_user (exclude_user_ids : option (list Z))
    : M PickResult :=
  try_except
    (do user <- gift_dal.get_random_active_user db_random exclude_user_ids;
     match user with
     | None => ret No_eligible_users_found
     | Some (user_id, _) => ret (Random_user_selected user_id)
     end)
    (fun e => ret (Pick_internal_error e)).

End Service.
End GiftService.

(** * Vocabulary of the properties

    The records, predicates and sample data the statements below are
    written with. *)

(** ** Payment and lifecycle *)

(** The record [mark_gift_as_paid] writes for a gift [g] paid at [now]. *)
Definition paid_record (pid now : Z) (g : Gift) : Gift :=
  set_expires_at (Some (now + timedelta_days GIFT_EXPIRATION_DAYS))
    (set_paid_at (Some now) (set_payment_id (Some pid) (set_status ready g))).

Definition terminal (s : GiftStatus) : Prop :=
  match s with
  | activated | expired | cancelled | refunded | payment_failed => True
  | pending_payment | ready => False
  end.

Inductive edge : GiftStatus -> GiftStatus -> Prop :=
  | edge_paid : edge pending_payment ready
  | edge_payment_failed : edge pending_payment payment_failed
  | edge_cancel_pending : edge pending_payment cancelled
  | edge_activate : edge ready activated
  | edge_expire : edge ready expired
  | edge_cancel_ready : edge ready cancelled
  | edge_refund : edge ready refunded.

Definition row_step (m m' : gmap Z Gift) (id : Z) (g : Gift) : Prop :=
  ∃ g', m' !! id = Some g'
        ∧ (g' = g ∨ edge (status g) (status g'))
        ∧ (terminal (status g) -> g' = g)
        ∧ (status g' = pending_payment -> status g = pending_payment)
        ∧ (status g' = ready ->
           status g = ready ∨ status g = pending_payment).

(** ** Redemption and cancellation *)

(** The session after [SELECT ... FOR UPDATE] returned row [id]. *)
Definition locked (id : Z) (w : World) : World :=
  mkWorld (committed w) (gifts w) (row_locks w ∪ {[id]}) (gift_id_seq w)
    (users w) (tariffs w) (ticks w) (draws w) (trace w ++ [EvLockRow id]).

(** The reason [validate_gift_code_for_activation] gives for a status
    other than [ready]. *)
Definition status_error (s : GiftStatus) : Msg :=
  match s with
  | activated => This_gift_already_activated
  | expired => This_gift_has_expired
  | cancelled => This_gift_has_been_cancelled
  | st => Gift_is_not_available st
  end.

(** Recipient eligibility: a direct gift is for its addressee, a random
    gift for anyone but its donor. *)
Definition eligible (g : Gift) (uid : Z) : Prop :=
  match recipient_type g with
  | direct => recipient_user_id g = Some uid
  | random => donor_user_id g ≠ uid
  end.

#[global] Instance eligible_dec g uid : Decision (eligible g uid).
Proof. unfold eligible. destruct (recipient_type g); apply _. Defined.

Definition ineligible_msg (g : Gift) : Msg :=
  match recipient_type g with
  | direct => This_gift_for_another_user
  | random => You_cannot_activate_own_gift
  end.

(** The record [gift_dal.activate_gift] writes when user [uid] redeems
    [g] at [now]: a random gift takes the redeemer as its recipient. *)
Definition activated_record (uid now : Z) (us : gmap Z User) (g : Gift)
    : Gift :=
  let g1 :=
    match recipient_type g with
    | direct => g
    | random =>
        let g1 := set_recipient_user_id (Some uid) g in
        match us !! uid with
        | Some r => if truthy_str (user_username r)
                    then set_recipient_username (user_username r) g1
                    else g1
        | None => g1
        end
    end in
  set_activated_at (Some now) (set_status activated g1).

(** The redeemer of a random gift must be a row of [users] for the
    foreign key of [recipient_user_id] to accept the write. *)
Definition recipient_known (g : Gift) (uid : Z) (us : gmap Z User) : Prop :=
  recipient_type g = random -> is_Some (us !! uid).

(** The session at the moment [activate_gift] invokes the subscription
    capability: row locked, two clock readings taken, the activation
    flushed into the open transaction, nothing committed. *)
Definition at_external_call (clock : nat -> Z) (id uid : Z) (g : Gift)
    (w : World) : World :=
  mkWorld (committed w)
    (<[id := activated_record uid (clock (S (ticks w))) (users w) g]> (gifts w))
    (row_locks w ∪ {[id]}) (gift_id_seq w) (users w) (tariffs w)
    (S (S (ticks w))) (draws w) (trace w ++ [EvLockRow id]).

(** The conditions under which [activate_gift] reaches the external
    call. *)
Record redeemable (clock : nat -> Z) (code : string) (uid : Z) (w : World)
    (id : Z) (g : Gift) : Prop := {
  rd_found : gift_dal.get_gift_by_code code false w = (Ok (Some (id, g)), w);
  rd_ready : status g = ready;
  rd_live_validate : is_past (expires_at g) (clock (ticks w)) = false;
  rd_live_activate : is_past (expires_at g) (clock (S (ticks w))) = false;
  rd_eligible : eligible g uid;
  rd_known : recipient_known g uid (users w);
  rd_tariff : is_Some (tariffs w !! tariff_id g);
}.

(** *** Sample data *)

Definition alice : User := mkUser (Some "alice") false.
Definition bob : User := mkUser (Some "bob") false.
Definition carol : User := mkUser None false.
Definition sample_users : gmap Z User := {[1 := alice; 2 := bob; 3 := carol]}.

Definition monthly : Tariff := mkTariff "Month" 300 "RUB" 30 true.
Definition sample_tariffs : gmap Z Tariff := {[7 := monthly]}.

(** A paid random gift of alice's, created at 1000, paid at 2000. *)
Definition sample_gift (st : GiftStatus) (expires : option Z) : Gift :=
  mkGift "GIFTCODE00000001" 1 (Some "alice") random None None 7 30 (Some 55)
    300 "RUB" st 1000 (Some 2000) None expires None "key-1" None None.

(** A session that has just been opened on a table holding [g] as row 10. *)
Definition sample_world (g : Gift) : World :=
  mkWorld {[10 := g]} {[10 := g]} ∅ 10 sample_users sample_tariffs 0 0 [].

Definition at_9000 (n : nat) : Z := 9000.
Definition sub_fails (w : World) (user tariff : Z) : SubscriptionOutcome :=
  SubNothing.
Definition sub_works (w : World) (user tariff : Z) : SubscriptionOutcome :=
  SubActivated (mkSub (Some 77) (Some 12000) (Some "https://sub/77")).

(** The record [gift_dal.cancel_gift] writes. *)
Definition cancelled_record (now : Z) (g : Gift) : Gift :=
  set_cancelled_at (Some now) (set_status cancelled g).

Definition cancellable (s : GiftStatus) : Prop :=
  s = pending_payment ∨ s = ready.

(** A service call that reports success. *)
Definition succeeded (r : Res ServiceResult) : Prop :=
  ∃ m d, r = Ok (true, m, d).

(** ** Creation and limits *)

(** What [check_user_daily_gift_spending] sums at time [now]. *)
Definition spent_today (user now : Z) (m : gmap Z Gift) : float :=
  gift_dal.sum_amount
    (map_to_list
       (filter (gift_dal.daily_spending_where user (replace_midnight now)) m)).

(** The outcome of a [create_gift] call, in terms of the table. *)
Definition creation_outcome (key : string) (w w' : World)
    (r : Res ServiceResult) : Prop :=
  committed w' = committed w
  ∧ ∃ b m d, r = Ok (b, m, d)
    ∧ if b
      then ∃ id g, gifts w' = <[id := g]> (gifts w)
                   ∧ gifts w !! id = None
                   ∧ idempotency_key g = key
                   ∧ (∀ j g0, gifts w !! j = Some g0 ->
                              idempotency_key g0 ≠ key)
      else d = None ∧ (gifts w' = gifts w ∨ gifts w' = committed w).

Definition count_up (n : nat) : nat := n.

(** An empty table in a freshly opened session. *)
Definition empty_world : World :=
  mkWorld ∅ ∅ ∅ 0 sample_users sample_tariffs 0 0 [].

(** The sum the specification describes: the donor's gifts created since
    midnight whose status is anything but [cancelled]. *)
Definition spec_spend_where (user today_start : Z) (r : Z * Gift) : Prop :=
  donor_user_id r.2 = user
  ∧ today_start ≤ created_at r.2
  ∧ status r.2 ≠ cancelled.

#[global] Instance spec_spend_where_dec u t r :
  Decision (spec_spend_where u t r).
Proof. unfold spec_spend_where. apply _. Defined.

Definition spec_spent_today (user now : Z) (m : gmap Z Gift) : float :=
  gift_dal.sum_amount
    (map_to_list (filter (spec_spend_where user (replace_midnight now)) m)).

(** The checks of [create_gift] that come before the spend checks. *)
Definition recipient_accepted (rtype : GiftRecipientType) (rid : option Z)
    (donor_id : Z) (us : gmap Z User) : Prop :=
  match rtype with
  | random => True
  | direct =>
      ∃ r u, rid = Some r ∧ r ≠ 0 ∧ us !! r = Some u
             ∧ user_is_banned u = false ∧ donor_id ≠ r
  end.

Record passes_earlier_checks (clock : nat -> Z) (donor_id tariff_id : Z)
    (rtype : GiftRecipientType) (rid : option Z) (w : World) (t : Tariff)
    : Prop := {
  pc_donor : ∃ d, users w !! donor_id = Some d ∧ user_is_banned d = false;
  pc_hourly :
    gift_dal.count_rows
      (map_to_list
         (filter (gift_dal.rate_limit_where donor_id
                    (clock (ticks w) - timedelta_hours 1)) (gifts w)))
    < MAX_GIFTS_PER_HOUR;
  pc_daily :
    gift_dal.count_rows
      (map_to_list
         (filter (gift_dal.rate_limit_where donor_id
                    (clock (S (ticks w)) - timedelta_hours 24)) (gifts w)))
    < MAX_GIFTS_PER_DAY;
  pc_tariff : tariffs w !! tariff_id = Some t;
  pc_active : tariff_is_active t = true;
  pc_recipient : recipient_accepted rtype rid donor_id (users w);
}.

(** The session after the three limit queries. *)
Definition after_limit_checks (w : World) : World :=
  with_ticks (S (S (S (ticks w)))) w.

(** *** The examples of section 8 *)

Definition half_year : Tariff := mkTariff "Half" 500 "RUB" 180 true.
Definition week : Tariff := mkTariff "Week" 250 "RUB" 7 true.

(** A tariff of 299.99. *)
Definition odd_price : Tariff := mkTariff "Odd" (cents 29999) "RUB" 30 true.

Definition priced_tariffs : gmap Z Tariff :=
  {[7 := monthly; 8 := half_year; 9 := week; 10 := odd_price]}.

(** Alice has one gift of [amt] created today (at 1000), in status [st]. *)
Definition spent_world (st : GiftStatus) (amt : float) : World :=
  let g := mkGift "GIFTCODE00000002" 1 (Some "alice") random None None 7 30
             None amt "RUB" st 1000 None None None None "key-0" None None in
  mkWorld {[1 := g]} {[1 := g]} ∅ 1 sample_users priced_tariffs 0 0 [].

(** ** Concurrent redemption *)

(** What one [activate_gift] call does when it runs on a session that
    has nothing uncommitted and finds the gift [g] under the code. *)
Definition activation_outcome (id : Z) (g : Gift) (w w' : World)
    (r : Res ServiceResult) : Prop :=
  ∃ b m d, r = Ok (b, m, d)
    ∧ (status g = activated -> b = false ∧ m = This_gift_already_activated)
    ∧ if b
      then status g = ready
           ∧ ∃ g', status g' = activated ∧ gift_code g' = gift_code g
                   ∧ committed w' = <[id := g']> (committed w)
                   ∧ gifts w' = committed w'
                   ∧ row_locks w' = ∅
      else d = None
           ∧ committed w' = committed w
           ∧ (gifts w' = committed w
              ∨ (status g = ready
                 ∧ gifts w' = <[id := set_status expired g]> (committed w)
                 ∧ row_locks w' ≠ ∅)).

(** *** The calls as concurrent transactions

    Several callers redeem the same code against one committed table.
    [SELECT ... FOR UPDATE] is the first statement of [activate_gift]
    and the row stays locked until the transaction ends, so between that
    statement and the end of its transaction no other caller gets past
    its own first statement: a call is admitted only while no open
    transaction holds the row, and then runs as one step on the
    committed table. A call that returns without having committed or
    rolled back leaves its transaction, and the lock, open until its
    caller closes the session, by a commit or by a rollback. *)

Inductive Caller :=
  | Idle (uid : Z)
  | Returned (uid : Z) (r : ServiceResult) (w : World)
  | Done (uid : Z) (r : ServiceResult).

Record Sys := mkSys {
  store : gmap Z Gift;
  sys_seq : Z;
  sys_users : gmap Z User;
  sys_tariffs : gmap Z Tariff;
  sys_ticks : nat;
  callers : list Caller;
}.

Definition open_session (s : Sys) : World :=
  mkWorld (store s) (store s) ∅ (sys_seq s) (sys_users s) (sys_tariffs s)
    (sys_ticks s) 0 [].

Definition holds_row (c : Caller) : Prop :=
  match c with
  | Returned _ _ w => row_locks w ≠ ∅
  | _ => False
  end.

#[global] Instance holds_row_dec c : Decision (holds_row c).
Proof. destruct c; cbn; apply _. Defined.

(** The rows a session has written and not committed. *)
Definition uncommitted (w : World) : gmap Z Gift :=
  filter (fun r => committed w !! r.1 ≠ Some r.2) (gifts w).

Definition result_of (c : Caller) : option ServiceResult :=
  match c with
  | Idle _ => None
  | Returned _ r _ | Done _ r => Some r
  end.

Definition uid_of (c : Caller) : Z :=
  match c with
  | Idle u | Returned u _ _ | Done u _ => u
  end.

Definition is_win (c : Caller) : bool :=
  match result_of c with
  | Some (true, _, _) => true
  | _ => false
  end.

Definition wins (l : list Caller) : nat :=
  length (filter (fun c => is_win c = true) l).

Definition is_done (c : Caller) : Prop :=
  match c with Done _ _ => True | _ => False end.

#[global] Instance is_done_dec c : Decision (is_done c).
Proof. destruct c; cbn; apply _. Defined.

Definition conflict : ServiceResult :=
  (false, This_gift_already_activated, None).

Inductive step (clock : nat -> Z)
    (sub : World -> Z -> Z -> SubscriptionOutcome) (code : string)
    : Sys -> Sys -> Prop :=
  | step_call s i uid r w' :
      callers s !! i = Some (Idle uid) ->
      Forall (fun c => ¬ holds_row c) (callers s) ->
      GiftService.activate_gift clock sub code uid (open_session s)
      = (Ok r, w') ->
      step clock sub code s
        (mkSys (committed w') (sys_seq s) (sys_users s) (sys_tariffs s)
           (ticks w') (<[i := Returned uid r w']> (callers s)))
  | step_commit s i uid r w :
      callers s !! i = Some (Returned uid r w) ->
      step clock sub code s
        (mkSys (uncommitted w ∪ store s) (sys_seq s) (sys_users s)
           (sys_tariffs s) (sys_ticks s) (<[i := Done uid r]> (callers s)))
  | step_rollback s i uid r w :
      callers s !! i = Some (Returned uid r w) ->
      step clock sub code s
        (mkSys (store s) (sys_seq s) (sys_users s) (sys_tariffs s)
           (sys_ticks s) (<[i := Done uid r]> (callers s))).

(** The callers [uids], none of which has started, on table [m]. *)
Definition initial (m : gmap Z Gift) (us : gmap Z User) (ts : gmap Z Tariff)
    (uids : list Z) : Sys :=
  mkSys m 0 us ts 0 (Idle <$> uids).

(** The table holds [g] as row [id], and no other row carries its code. *)
Definition sole_holder (m : gmap Z Gift) (code : string) (id : Z) (g : Gift)
    : Prop :=
  m !! id = Some g ∧ gift_code g = code
  ∧ ∀ j g', m !! j = Some g' -> gift_code g' = code -> j = id.

Section RedemptionSpec.

Variable clock : nat -> Z.
Variable sub : World -> Z -> Z -> SubscriptionOutcome.
Variable code : string.
Variable id : Z.

(** What holds of a session a call has returned from and its caller has
    not closed yet: it has nothing to commit, or it holds the row and
    its one uncommitted write is a copy of the gift that is not
    [activated]. *)
Definition settled (g : Gift) (c : Caller) : Prop :=
  match c with
  | Returned _ _ w =>
      uncommitted w = ∅
      ∨ (row_locks w ≠ ∅ ∧ status g ≠ activated
         ∧ ∃ ge, uncommitted w = {[id := ge]} ∧ gift_code ge = code
                 ∧ status ge ≠ activated)
  | _ => True
  end.

(** Every caller that has its result is the winner or got the conflict
    error. *)
Definition served (c : Caller) : Prop :=
  match result_of c with
  | None => True
  | Some r => is_win c = true ∨ r = conflict
  end.

Definition redemption_inv (s : Sys) : Prop :=
  ∃ g, sole_holder (store s) code id g
       ∧ (status g ≠ activated -> wins (callers s) = 0%nat)
       ∧ (wins (callers s) ≤ 1)%nat
       ∧ Forall (settled g) (callers s).

(** The conditions under which a call on the ready gift [g0] goes
    through: the gift lapses at no reading of the clock, every caller
    is eligible and known, the tariff exists, and the subscription
    capability delivers. *)
Record favourable (g0 : Gift) (us : gmap Z User) (ts : gmap Z Tariff)
    (uids : list Z) : Prop := {
  fv_ready : status g0 = ready;
  fv_live : ∀ n, is_past (expires_at g0) (clock n) = false;
  fv_eligible : ∀ u, u ∈ uids -> eligible g0 u ∧ recipient_known g0 u us;
  fv_tariff : is_Some (ts !! tariff_id g0);
  fv_sub : ∀ w u t, ∃ r, sub w u t = SubActivated r;
}.

Definition favourable_inv (g0 : Gift) (us : gmap Z User) (ts : gmap Z Tariff)
    (uids : list Z) (s : Sys) : Prop :=
  sys_users s = us ∧ sys_tariffs s = ts ∧ uid_of <$> callers s = uids
  ∧ ((sole_holder (store s) code id g0
      ∧ Forall (fun c => result_of c = None) (callers s))
     ∨ (∃ g, sole_holder (store s) code id g ∧ status g = activated
             ∧ wins (callers s) = 1%nat ∧ Forall served (callers s))).

End RedemptionSpec.

(** *** A schedule, step by step

    [serve i] admits caller [i] and runs its call; [close_commit i]
    has the caller of a returned call commit and close its session. *)

Definition serve (clock : nat -> Z)
    (sub : World -> Z -> Z -> SubscriptionOutcome) (code : string) (i : nat)
    (s : Sys) : Sys :=
  match callers s !! i with
  | Some (Idle uid) =>
      match GiftService.activate_gift clock sub code uid (open_session s) with
      | (Ok r, w') =>
          mkSys (committed w') (sys_seq s) (sys_users s) (sys_tariffs s)
            (ticks w') (<[i := Returned uid r w']> (callers s))
      | (Raise _, _) => s
      end
  | _ => s
  end.

Definition close_commit (i : nat) (s : Sys) : Sys :=
  match callers s !! i with
  | Some (Returned uid r w) =>
      mkSys (uncommitted w ∪ store s) (sys_seq s) (sys_users s)
        (sys_tariffs s) (sys_ticks s) (<[i := Done uid r]> (callers s))
  | _ => s
  end.

Definition is_idle (c : option Caller) : Prop :=
  match c with Some (Idle _) => True | _ => False end.

Definition is_returned (c : option Caller) : Prop :=
  match c with Some (Returned _ _ _) => True | _ => False end.

(** ** Further vocabulary: generation, frames, listings *)

(** A random source that keeps spelling the code of [sample_gift]. *)
Definition spells_sample_code (n : nat) : nat :=
  nth (n mod 16)
    [6; 8; 5; 19; 2; 14; 3; 4; 26; 26; 26; 26; 26; 26; 26; 27]%nat 0%nat.

(** A redemption code as [_generate_gift_code_candidate] draws it:
    [GIFT_CODE_LENGTH] characters of [GIFT_CODE_ALPHABET]. *)
Definition well_formed_code (code : string) : Prop :=
  String.length code = GIFT_CODE_LENGTH
  ∧ Forall (fun c => c ∈ list_ascii_of_string GIFT_CODE_ALPHABET)
      (list_ascii_of_string code).


(** The row [create_gift_record] builds from its [gift_data], the donor
    it looked up, the code and the clock reading. *)
Definition inserted_record (gd : GiftData) (donor : User) (code : string)
    (now : Z) : Gift :=
  mkGift code (gd_donor_user_id gd)
    (if truthy_str (user_username donor) then user_username donor else None)
    (gd_recipient_type gd) (gd_recipient_user_id gd) None (gd_tariff_id gd)
    (gd_duration_days gd) None (gd_amount gd)
    (default "RUB"%string (gd_currency gd))
    (default pending_payment (gd_status gd)) now None None None None
    (gd_idempotency_key gd) (gd_message_to_recipient gd) (gd_metadata gd).

(** A table of four gifts: three of user 1's (one cancelled, one ready,
    one activated) and one of user 2's, all created shortly before 9000. *)
Definition listed_gift (code : string) (donor : Z) (st : GiftStatus)
    (amt created : Z) : Gift :=
  mkGift code donor None random None None 7 30 None amt "RUB" st created None
    None None None code None None.

Definition busy_table : gmap Z Gift :=
  {[1 := listed_gift "A" 1 cancelled 300 8000;
    2 := listed_gift "B" 1 ready 500 8500;
    3 := listed_gift "C" 1 activated 250 7000;
    4 := listed_gift "D" 2 ready 300 8800]}.

Definition world_of (m : gmap Z Gift) : World :=
  mkWorld m m ∅ 4 sample_users sample_tariffs 0 0 [].

(** ** Columns no operation writes *)

(** [g'] is [g] but for the columns the lifecycle writes: status,
    payment, the four timestamps and the recipient. *)
Definition same_purchase (g g' : Gift) : Prop :=
  gift_code g' = gift_code g
  ∧ donor_user_id g' = donor_user_id g
  ∧ donor_username g' = donor_username g
  ∧ recipient_type g' = recipient_type g
  ∧ tariff_id g' = tariff_id g
  ∧ duration_days g' = duration_days g
  ∧ amount g' = amount g
  ∧ currency g' = currency g
  ∧ created_at g' = created_at g
  ∧ idempotency_key g' = idempotency_key g
  ∧ message_to_recipient g' = message_to_recipient g
  ∧ metadata g' = metadata g
  ∧ (recipient_type g = direct -> recipient_user_id g' = recipient_user_id g).

(** Table [m'] has the rows of [m], each the same purchase. *)
Definition rows_kept (m m' : gmap Z Gift) : Prop :=
  ∀ id, match m !! id, m' !! id with
        | Some g, Some g' => same_purchase g g'
        | None, None => True
        | _, _ => False
        end.

(** No two rows carry the same code. *)
Definition codes_unique (m : gmap Z Gift) : Prop :=
  ∀ i j g h, m !! i = Some g -> m !! j = Some h ->
             gift_code g = gift_code h -> i = j.

(** A clock that advances by 1000 at every reading, from 9000. *)
Definition ticking (n : nat) : Z := 9000 + 1000 * Z.of_nat n.

(** ** Listings and statistics *)

(** [page] is the page [limit], [offset] of the rows of [m] that satisfy
    [P], newest first: it has the length that is left after the offset,
    up to the limit; its rows are rows of [m] satisfying [P], each at
    most once, no row coming before a newer one; and when everything
    fits on the first page, every such row is on it. *)
Definition is_page (P : Z * Gift -> Prop) `{!∀ x, Decision (P x)}
    (m : gmap Z Gift) (limit offset : nat) (page : list (Z * Gift)) : Prop :=
  length page = (limit `min` (size (filter P m) - offset))%nat
  ∧ (∀ id g, (id, g) ∈ page -> m !! id = Some g ∧ P (id, g))
  ∧ NoDup page.*1
  ∧ StronglySorted (fun a b : Z * Gift => created_at b.2 ≤ created_at a.2)
      page
  ∧ (offset = 0%nat -> (size (filter P m) ≤ limit)%nat ->
     ∀ id g, m !! id = Some g -> P (id, g) -> (id, g) ∈ page).

(** No two rows of [m] that satisfy [P] were created at the same
    instant. *)
Definition created_apart (P : Z * Gift -> Prop) (m : gmap Z Gift) : Prop :=
  ∀ i j g h, m !! i = Some g -> m !! j = Some h -> P (i, g) -> P (j, h) ->
             created_at g = created_at h -> i = j.

(** Two gifts created at the same instant. *)
Definition twins : gmap Z Gift :=
  {[1 := listed_gift "A" 1 ready 300 8000;
    2 := listed_gift "B" 1 ready 300 8000]}.

(** The total of a breakdown by status. *)
Definition sum_counts (l : list (GiftStatus * Z)) : Z :=
  foldr (fun p acc => p.2 + acc) 0 l.

(** No two rows carry the same payment. *)
Definition payments_unique (m : gmap Z Gift) : Prop :=
  ∀ i j g h p, m !! i = Some g -> m !! j = Some h ->
               payment_id g = Some p -> payment_id h = Some p -> i = j.

(** What [check_user_gift_rate_limit] counts on table [m]: the gifts of
    [user] created at or after [threshold]. *)
Definition created_since (user threshold : Z) (m : gmap Z Gift) : Z :=
  gift_dal.count_rows
    (map_to_list (filter (gift_dal.rate_limit_where user threshold) m)).

(** * Properties *)

(** ** Reasoning about the monad and the queries *)

Lemma bind_ok {A B} (m : M A) (k : A -> M B) w a w' :
  m w = (Ok a, w') -> bind m k w = k a w'.
Proof. intros H. unfold bind. by rewrite H. Qed.

Lemma bind_raise {A B} (m : M A) (k : A -> M B) w e w' :
  m w = (Raise e, w') -> bind m k w = (Raise e, w').
Proof. intros H. unfold bind. by rewrite H. Qed.

Lemma scalar_one_or_none_Some {A} (rows : list A) w x r :
  scalar_one_or_none rows w = (Ok (Some x), r) -> rows = [x] ∧ r = w.
Proof.
  destruct rows as [|y [|z rows]]; cbn; intros H; inversion H; auto.
Qed.

Lemma scalar_one_or_none_None {A} (rows : list A) w r :
  scalar_one_or_none rows w = (Ok None, r) -> rows = [] ∧ r = w.
Proof.
  destruct rows as [|y [|z rows]]; cbn; intros H; inversion H; auto.
Qed.

(** A query that returns exactly one row: the row is in the table, it
    satisfies the condition, and no other row does. *)
Lemma select_one (P : Z * Gift -> Prop) `{!∀ x, Decision (P x)}
    (m : gmap Z Gift) id g :
  map_to_list (filter P m) = [(id, g)] ->
  m !! id = Some g ∧ P (id, g)
  ∧ ∀ j g', m !! j = Some g' -> P (j, g') -> j = id.
Proof.
  intros Hrows.
  assert (Hin : ∀ j g', (j, g') ∈ map_to_list (filter P m)
                        ↔ m !! j = Some g' ∧ P (j, g')).
  { intros j g'. rewrite elem_of_map_to_list. apply map_lookup_filter_Some. }
  rewrite Hrows in Hin. split_and!.
  - apply (Hin id g). by left.
  - apply (Hin id g). by left.
  - intros j g' Hj HP.
    assert (Hm : (j, g') ∈ [(id, g)]) by (apply Hin; auto).
    apply list_elem_of_singleton in Hm. congruence.
Qed.

Lemma select_one_inv (P : Z * Gift -> Prop) `{!∀ x, Decision (P x)}
    (m : gmap Z Gift) id g :
  m !! id = Some g -> P (id, g) ->
  (∀ j g', m !! j = Some g' -> P (j, g') -> j = id) ->
  map_to_list (filter P m) = [(id, g)].
Proof.
  intros Hm HP Huniq.
  assert (Heq : filter P m = {[id := g]}).
  { apply map_eq. intros j. destruct (decide (j = id)) as [->|Hne].
    - rewrite lookup_singleton_eq. apply map_lookup_filter_Some. auto.
    - rewrite lookup_singleton_ne by done.
      apply map_lookup_filter_None. right. intros g' Hj HPj.
      apply Hne. eauto. }
  rewrite Heq. apply map_to_list_singleton.
Qed.

Lemma get_gift_by_payment_id_Some pid w id g r :
  gift_dal.get_gift_by_payment_id pid w = (Ok (Some (id, g)), r) ->
  r = w ∧ gifts w !! id = Some g ∧ payment_id g = Some pid
  ∧ ∀ j g', gifts w !! j = Some g' -> payment_id g' = Some pid -> j = id.
Proof.
  unfold gift_dal.get_gift_by_payment_id, bind, select_gifts. intros H.
  apply scalar_one_or_none_Some in H as [Hrows ->].
  apply select_one in Hrows as (? & ? & ?). auto.
Qed.

Lemma get_gift_by_payment_id_intro pid w id g :
  gifts w !! id = Some g -> payment_id g = Some pid ->
  (∀ j g', gifts w !! j = Some g' -> payment_id g' = Some pid -> j = id) ->
  gift_dal.get_gift_by_payment_id pid w = (Ok (Some (id, g)), w).
Proof.
  intros Hm Hp Hu.
  unfold gift_dal.get_gift_by_payment_id, bind, select_gifts.
  by rewrite (select_one_inv _ _ id g Hm Hp Hu).
Qed.

(** ** Payment notification *)

Lemma get_gift_by_id_eq id w :
  gift_dal.get_gift_by_id id w = (Ok (gifts w !! id), w).
Proof. reflexivity. Qed.

Lemma datetime_now_eq clock w :
  gift_dal.datetime_now clock w
  = (Ok (clock (ticks w)), with_ticks (S (ticks w)) w).
Proof. reflexivity. Qed.

Lemma db_update_ok id g g' w :
  gifts w !! id = Some g ->
  update_allowed id g g' w = true ->
  db_update id g' w = (Ok tt, with_gifts (<[id := g']> (gifts w)) w).
Proof. intros Hm Hok. unfold db_update. by rewrite Hm, Hok. Qed.

(** A write that leaves the constrained columns as they are passes
    every constraint. *)
Lemma update_allowed_same id g g' w :
  payment_id g' = payment_id g ->
  recipient_user_id g' = recipient_user_id g ->
  gift_code g' = gift_code g ->
  idempotency_key g' = idempotency_key g ->
  donor_user_id g' = donor_user_id g ->
  tariff_id g' = tariff_id g ->
  update_allowed id g g' w = true.
Proof.
  intros Hp Hr Hc Hk Hd Ht. unfold update_allowed.
  rewrite (bool_decide_true _ Hp), (bool_decide_true _ Hr),
    (bool_decide_true _ Hc), (bool_decide_true _ Hk),
    (bool_decide_true _ Hd), (bool_decide_true _ Ht).
  reflexivity.
Qed.

(** So does a write that moreover sets [recipient_user_id] to a user
    that exists. *)
Lemma update_allowed_new_recipient id g g' w :
  payment_id g' = payment_id g ->
  fk_user (recipient_user_id g') (users w) = true ->
  gift_code g' = gift_code g ->
  idempotency_key g' = idempotency_key g ->
  donor_user_id g' = donor_user_id g ->
  tariff_id g' = tariff_id g ->
  update_allowed id g g' w = true.
Proof.
  intros Hp Hr Hc Hk Hd Ht. unfold update_allowed.
  rewrite (bool_decide_true _ Hp), Hr, (bool_decide_true _ Hc),
    (bool_decide_true _ Hk), (bool_decide_true _ Hd),
    (bool_decide_true _ Ht).
  by rewrite orb_true_r.
Qed.

Ltac mstep H := rewrite (bind_ok _ _ _ _ _ H).
Ltac mstep_get := rewrite (bind_ok _ _ _ _ _ (get_gift_by_id_eq _ _)).
Ltac mstep_now := rewrite (bind_ok _ _ _ _ _ (datetime_now_eq _ _)).

Lemma update_gift_status_ok id st g w :
  gifts w !! id = Some g ->
  gift_dal.update_gift_status id st [] w
  = (Ok (Some (set_status st g)),
     with_gifts (<[id := set_status st g]> (gifts w)) w).
Proof.
  intros Hm. unfold gift_dal.update_gift_status. mstep_get. rewrite Hm.
  erewrite bind_ok; last first.
  { apply (db_update_ok _ g); [exact Hm|]. by apply update_allowed_same. }
  reflexivity.
Qed.

(** [update_gift_status] on a row that exists: the status and then
    each given field are assigned, and the flush writes the row or is
    refused by a constraint. *)
Lemma update_gift_status_eq id st fields g w :
  gifts w !! id = Some g ->
  gift_dal.update_gift_status id st fields w
  = let g' := foldl (fun g f => setattr f g) (set_status st g) fields in
    if update_allowed id g g' w
    then (Ok (Some g'), with_gifts (<[id := g']> (gifts w)) w)
    else (Raise IntegrityError, w).
Proof.
  intros Hm. unfold gift_dal.update_gift_status. mstep_get. rewrite Hm.
  cbv zeta. unfold bind, db_update. rewrite Hm.
  by destruct (update_allowed _ _ _ _).
Qed.

(** Marking as paid passes the constraints when no other row carries
    the payment. *)
Lemma update_allowed_paid id pid now g w :
  (∀ j h, gifts w !! j = Some h -> payment_id h = Some pid -> j = id) ->
  update_allowed id g (paid_record pid now g) w = true.
Proof.
  intros Hfree. unfold update_allowed, paid_record. cbn.
  repeat (apply andb_true_intro; split);
    try (apply orb_true_iff; left; by apply bool_decide_eq_true).
  apply orb_true_iff. right. unfold no_other_row.
  apply bool_decide_eq_true. intros j h Hj.
  destruct (decide (j = id)) as [|Hne]; [by left|right].
  intros Hp. apply Hne. by apply (Hfree j h).
Qed.

(** [mark_gift_as_paid] on a gift awaiting payment, whatever payment it
    carried before: the gift gets the payment, the two dates and
    [ready]. *)
Lemma mark_gift_as_paid_writes clock id pid w g :
  gifts w !! id = Some g ->
  status g = pending_payment ->
  (∀ j h, gifts w !! j = Some h -> payment_id h = Some pid -> j = id) ->
  gift_dal.mark_gift_as_paid clock id pid w
  = (Ok (Some (paid_record pid (clock (ticks w)) g)),
     mkWorld (committed w) (<[id := paid_record pid (clock (ticks w)) g]> (gifts w))
       (row_locks w) (gift_id_seq w) (users w) (tariffs w) (S (ticks w))
       (draws w) (trace w)).
Proof.
  intros Hm Hst Hfree. unfold gift_dal.mark_gift_as_paid.
  mstep_get. rewrite Hm. rewrite bool_decide_false by (rewrite Hst; auto).
  mstep_now. cbn zeta.
  erewrite bind_ok; last first.
  { apply (db_update_ok _ g); [exact Hm|]. by apply update_allowed_paid. }
  reflexivity.
Qed.

(** On a gift in any other status it hands the gift back and writes
    nothing. *)
Lemma mark_gift_as_paid_not_pending clock id pid w g :
  gifts w !! id = Some g ->
  status g ≠ pending_payment ->
  gift_dal.mark_gift_as_paid clock id pid w = (Ok (Some g), w).
Proof.
  intros Hm Hst. unfold gift_dal.mark_gift_as_paid. mstep_get. rewrite Hm.
  by rewrite bool_decide_true.
Qed.

Lemma mark_gift_as_paid_pending clock id pid w g :
  gifts w !! id = Some g ->
  status g = pending_payment ->
  payment_id g = Some pid ->
  gift_dal.mark_gift_as_paid clock id pid w
  = (Ok (Some (paid_record pid (clock (ticks w)) g)),
     mkWorld (committed w) (<[id := paid_record pid (clock (ticks w)) g]> (gifts w))
       (row_locks w) (gift_id_seq w) (users w) (tariffs w) (S (ticks w))
       (draws w) (trace w)).
Proof.
  intros Hm Hst Hp. unfold gift_dal.mark_gift_as_paid.
  mstep_get. rewrite Hm. rewrite bool_decide_false by (rewrite Hst; auto).
  mstep_now. cbn zeta.
  erewrite bind_ok; last first.
  { apply (db_update_ok _ g); [exact Hm|].
    apply update_allowed_same; cbn; congruence. }
  reflexivity.
Qed.

Lemma process_gift_payment_pending clock pid w id g :
  gift_dal.get_gift_by_payment_id pid w = (Ok (Some (id, g)), w) ->
  status g = pending_payment ->
  let now := clock (ticks w) in
  let g' := paid_record pid now g in
  GiftService.process_gift_payment clock pid w
  = (Ok (true, Gift_payment_processed,
         Some (PaidData id (gift_code g) ready (Some now)
                 (Some (now + 90 * DAY)))),
     mkWorld (<[id := g']> (gifts w)) (<[id := g']> (gifts w)) ∅
       (gift_id_seq w) (users w) (tariffs w) (S (ticks w)) (draws w)
       (trace w ++ [EvCommit])).
Proof.
  intros Hfind Hst now g'.
  destruct (get_gift_by_payment_id_Some _ _ _ _ _ Hfind) as (_ & Hm & Hp & _).
  unfold GiftService.process_gift_payment, try_except.
  rewrite (bind_ok _ _ _ _ _ Hfind).
  rewrite bool_decide_false by (rewrite Hst; auto).
  rewrite (bind_ok _ _ _ _ _ (mark_gift_as_paid_pending clock _ _ _ _ Hm Hst Hp)).
  reflexivity.
Qed.

Lemma process_gift_payment_not_pending clock pid w id g :
  gift_dal.get_gift_by_payment_id pid w = (Ok (Some (id, g)), w) ->
  status g ≠ pending_payment ->
  GiftService.process_gift_payment clock pid w
  = (Ok (false, Gift_status_is (status g), None), w).
Proof.
  intros Hfind Hst.
  unfold GiftService.process_gift_payment, try_except.
  rewrite (bind_ok _ _ _ _ _ Hfind).
  by rewrite bool_decide_true.
Qed.

(** C9. [process_gift_payment], for the gift [get_gift_by_payment_id]
    finds: while its status is [pending_payment] the call writes
    [payment_id], [paid_at = now], [expires_at = paid_at + 90 days] and
    [status = ready], touches no other column, and commits; when the
    status is anything else the call changes nothing; so a second
    delivery of the same notification finds the gift [ready] and leaves
    the session exactly as the first delivery left it. The write is
    [mark_gift_as_paid]'s: on any gift awaiting payment, whether it
    carries no payment, another payment or this one, and no other gift
    carrying this one, it sets [payment_id] to the payment it is given
    together with the two dates and [ready], and touches no other
    column; on a gift in any other status it hands the gift back and
    writes nothing. *)
Theorem process_gift_payment_idempotent clock pid w id g :
  gift_dal.get_gift_by_payment_id pid w = (Ok (Some (id, g)), w) ->
  let now := clock (ticks w) in
  let first := GiftService.process_gift_payment clock pid w in
  (status g = pending_payment ->
     ∃ g', first.1 = Ok (true, Gift_payment_processed,
                         Some (PaidData id (gift_code g) ready (Some now)
                                 (Some (now + 90 * DAY))))
           ∧ gifts first.2 = <[id := g']> (gifts w)
           ∧ committed first.2 = gifts first.2
           ∧ payment_id g' = Some pid
           ∧ paid_at g' = Some now
           ∧ expires_at g' = Some (now + 90 * DAY)
           ∧ status g' = ready
           ∧ g' = set_expires_at (expires_at g')
                    (set_paid_at (paid_at g')
                       (set_payment_id (payment_id g')
                          (set_status (status g') g)))
           ∧ GiftService.process_gift_payment clock pid first.2
             = (Ok (false, Gift_status_is ready, None), first.2))
  ∧ (status g ≠ pending_payment ->
     first = (Ok (false, Gift_status_is (status g), None), w))
  ∧ (∀ w0 id0 g0 p,
       gifts w0 !! id0 = Some g0 ->
       status g0 = pending_payment ->
       (∀ j h, gifts w0 !! j = Some h -> payment_id h = Some p -> j = id0) ->
       let now0 := clock (ticks w0) in
       let paid := gift_dal.mark_gift_as_paid clock id0 p w0 in
       ∃ g', paid.1 = Ok (Some g')
             ∧ gifts paid.2 = <[id0 := g']> (gifts w0)
             ∧ payment_id g' = Some p
             ∧ paid_at g' = Some now0
             ∧ expires_at g' = Some (now0 + 90 * DAY)
             ∧ status g' = ready
             ∧ g' = set_expires_at (expires_at g')
                      (set_paid_at (paid_at g')
                         (set_payment_id (payment_id g')
                            (set_status (status g') g0))))
  ∧ (∀ w0 id0 g0 p,
       gifts w0 !! id0 = Some g0 ->
       status g0 ≠ pending_payment ->
       gift_dal.mark_gift_as_paid clock id0 p w0 = (Ok (Some g0), w0)).
Proof.
  intros Hfind now first. split_and!.
  - intros Hst. exists (paid_record pid now g).
    subst first. rewrite (process_gift_payment_pending _ _ _ _ _ Hfind Hst).
    cbn. split_and!; try reflexivity.
    destruct (get_gift_by_payment_id_Some _ _ _ _ _ Hfind)
      as (_ & Hm & Hp & Hu).
    fold now.
    match goal with |- GiftService.process_gift_payment _ _ ?w1 = _ =>
      set (w1' := w1) end.
    assert (Hfind' : gift_dal.get_gift_by_payment_id pid w1'
                     = (Ok (Some (id, paid_record pid now g)), w1')).
    { apply get_gift_by_payment_id_intro; cbn.
      - apply lookup_insert_eq.
      - reflexivity.
      - intros j g' Hj Hpj. destruct (decide (j = id)) as [|Hne]; [done|].
        rewrite lookup_insert_ne in Hj by done. eauto. }
    exact (process_gift_payment_not_pending clock _ _ _ _ Hfind'
             ltac:(discriminate)).
  - intros Hst. subst first.
    by apply (process_gift_payment_not_pending _ _ _ id).
  - intros w0 id0 g0 p Hm Hst Hfree now0 paid.
    exists (paid_record p now0 g0). subst paid now0.
    rewrite (mark_gift_as_paid_writes clock _ _ _ _ Hm Hst Hfree).
    cbn. split_and!; reflexivity.
  - intros w0 id0 g0 p Hm Hst.
    by apply mark_gift_as_paid_not_pending.
Qed.

(** ** Lifecycle *)

Lemma edge_not_terminal s s' : edge s s' -> ¬ terminal s.
Proof.
  intros He Ht. destruct He; exact Ht.
Qed.

Lemma row_step_same m id g : m !! id = Some g -> row_step m m id g.
Proof. intros H. exists g. split_and!; auto. Qed.

Lemma row_step_insert m id g gid h h' :
  m !! id = Some g -> m !! gid = Some h -> edge (status h) (status h') ->
  row_step m (<[gid := h']> m) id g.
Proof.
  intros Hg Hh He. destruct (decide (gid = id)) as [->|Hne].
  - assert (h = g) by congruence. subst h.
    exists h'. rewrite lookup_insert_eq. split_and!; auto.
    + intros Ht. by destruct (edge_not_terminal _ _ He).
    + intros Hs. rewrite Hs in He. inversion He.
    + intros Hs. rewrite Hs in He. inversion He; auto.
  - exists g. rewrite lookup_insert_ne by done. split_and!; auto.
Qed.

Ltac dal_unfold :=
  unfold bind, gift_dal.get_gift_by_id, gift_dal.datetime_now, db_update,
    get_user_by_id, ret, raise, select_gifts, lock_rows;
  cbn.

Lemma cancellable_cases (s : GiftStatus) :
  ¬ (s ∉ [pending_payment; ready]) -> s = pending_payment ∨ s = ready.
Proof.
  intros H. destruct s; auto; exfalso; apply H;
    rewrite !elem_of_cons, elem_of_nil; intros [|[|[]]]; discriminate.
Qed.

Ltac status_facts :=
  repeat match goal with
  | H : bool_decide _ = true |- _ => apply bool_decide_eq_true in H
  | H : bool_decide _ = false |- _ => apply bool_decide_eq_false in H
  | H : ¬ (_ ≠ _) |- _ => apply dec_stable in H
  end.

Ltac finish_row :=
  right; eexists _, _; split_and!; try reflexivity; eauto; try reflexivity.

Lemma mark_gift_as_paid_gifts clock gid pid w :
  let w' := (gift_dal.mark_gift_as_paid clock gid pid w).2 in
  gifts w' = gifts w
  ∨ ∃ h h', gifts w !! gid = Some h ∧ status h = pending_payment
            ∧ status h' = ready ∧ gifts w' = <[gid := h']> (gifts w).
Proof.
  unfold gift_dal.mark_gift_as_paid. dal_unfold.
  repeat case_match; simplify_eq/=; auto.
  status_facts. finish_row.
Qed.

Lemma activate_gift_gifts clock gid uid w :
  let w' := (gift_dal.activate_gift clock gid uid w).2 in
  gifts w' = gifts w
  ∨ ∃ h h', gifts w !! gid = Some h ∧ status h = ready
            ∧ (status h' = expired ∨ status h' = activated)
            ∧ gifts w' = <[gid := h']> (gifts w).
Proof.
  unfold gift_dal.activate_gift. dal_unfold.
  repeat case_match; simplify_eq/=; auto; status_facts; finish_row.
Qed.

Lemma cancel_gift_gifts clock gid donor w :
  let w' := (gift_dal.cancel_gift clock gid donor w).2 in
  gifts w' = gifts w
  ∨ ∃ h h', gifts w !! gid = Some h
            ∧ (status h = pending_payment ∨ status h = ready)
            ∧ status h' = cancelled
            ∧ gifts w' = <[gid := h']> (gifts w).
Proof.
  unfold gift_dal.cancel_gift. dal_unfold.
  repeat case_match; simplify_eq/=; auto.
  status_facts. finish_row.
  by apply cancellable_cases.
Qed.

Lemma validate_gift_code_for_activation_gifts clock code uid w :
  let w' := (gift_dal.validate_gift_code_for_activation clock code uid w).2 in
  gifts w' = gifts w
  ∨ ∃ gid h, gifts w !! gid = Some h ∧ status h = ready
             ∧ gifts w' = <[gid := set_status expired h]> (gifts w).
Proof.
  unfold gift_dal.validate_gift_code_for_activation, gift_dal.get_gift_by_code,
    gift_dal.update_gift_status, scalar_one_or_none.
  dal_unfold.
  repeat case_match; simplify_eq/=; auto.
  all: status_facts.
  all: match goal with
       | H : map_to_list _ = [_] |- _ =>
           apply select_one in H as (? & ? & ?)
       end.
  all: simplify_eq/=.
  all: right; eexists _, _; split_and!; eauto.
Qed.

Lemma expire_old_gifts_gifts clock w :
  gifts (gift_dal.expire_old_gifts clock w).2
  = (fun g => if gift_dal.lapsed (clock (ticks w)) g
              then set_status expired g else g) <$> gifts w.
Proof. reflexivity. Qed.

Lemma row_step_of_update m m' id g gid :
  m !! id = Some g ->
  (m' = m ∨ ∃ h h', m !! gid = Some h ∧ edge (status h) (status h')
                    ∧ m' = <[gid := h']> m) ->
  row_step m m' id g.
Proof.
  intros Hg [->|(h & h' & Hh & He & ->)].
  - by apply row_step_same.
  - by eapply row_step_insert.
Qed.

(** C5, amended. Each lifecycle operation of the data layer
    ([mark_gift_as_paid], the lazy expiry of
    [validate_gift_code_for_activation], [activate_gift], [cancel_gift],
    [expire_old_gifts]) leaves every
    stored record in place with its status either unchanged or moved
    along an edge of the state machine; a record whose status is
    terminal is left exactly as it is, and the operation aimed at it is
    turned down without a write: [mark_gift_as_paid] hands the record
    back as it found it, the other three return an error; none of these
    five produces [pending_payment], and they produce [ready] from
    [pending_payment] only. This is what one session does to the records
    as it reads them: [mark_gift_as_paid] and [cancel_gift] decide on a
    record they have read without locking it. [update_gift_status], the
    function the lazy expiry writes through, has no guard of its own: on
    a record of any status it writes the status it is given. *)
Theorem lifecycle_moves_along_edges clock w id g :
  gifts w !! id = Some g ->
  (∀ gid pid,
     row_step (gifts w) (gifts (gift_dal.mark_gift_as_paid clock gid pid w).2)
       id g)
  ∧ (∀ code uid,
     row_step (gifts w)
       (gifts (gift_dal.validate_gift_code_for_activation clock code uid w).2)
       id g)
  ∧ (∀ gid uid,
     row_step (gifts w) (gifts (gift_dal.activate_gift clock gid uid w).2)
       id g)
  ∧ (∀ gid donor,
     row_step (gifts w) (gifts (gift_dal.cancel_gift clock gid donor w).2)
       id g)
  ∧ row_step (gifts w) (gifts (gift_dal.expire_old_gifts clock w).2) id g
  ∧ (terminal (status g) ->
     (∀ pid, gift_dal.mark_gift_as_paid clock id pid w = (Ok (Some g), w))
     ∧ (∀ uid, gift_dal.activate_gift clock id uid w
               = (Ok (Some g, Some (Gift_not_ready (status g))), w))
     ∧ (∀ donor, ∃ e, gift_dal.cancel_gift clock id donor w
                      = (Ok (Some g, Some e), w))
     ∧ (∀ uid, gift_dal.get_gift_by_code (gift_code g) false w
               = (Ok (Some (id, g)), w) ->
               ∃ e w', gift_dal.validate_gift_code_for_activation clock
                         (gift_code g) uid w
                       = (Ok (Some (id, g), Some e), w')
                       ∧ gifts w' = gifts w)
     ∧ (∀ pid, gift_dal.get_gift_by_payment_id pid w
               = (Ok (Some (id, g)), w) ->
               GiftService.process_gift_payment clock pid w
               = (Ok (false, Gift_status_is (status g), None), w)))
  ∧ (∀ gid pid,
     row_locks (gift_dal.mark_gift_as_paid clock gid pid w).2 = row_locks w)
  ∧ (∀ gid donor,
     row_locks (gift_dal.cancel_gift clock gid donor w).2 = row_locks w)
  ∧ (∀ st, gift_dal.update_gift_status id st [] w
           = (Ok (Some (set_status st g)),
              with_gifts (<[id := set_status st g]> (gifts w)) w)).
Proof.
  intros Hg. split_and!.
  - intros gid pid. apply (row_step_of_update _ _ _ _ gid Hg).
    destruct (mark_gift_as_paid_gifts clock gid pid w)
      as [|(h & h' & ? & Hs & Hs' & ?)]; [by left|right].
    exists h, h'. rewrite Hs, Hs'. split_and!; auto. constructor.
  - intros code uid.
    destruct (validate_gift_code_for_activation_gifts clock code uid w)
      as [Heq|(gid & h & ? & Hs & Heq)]; rewrite Heq.
    + by apply row_step_same.
    + apply (row_step_insert _ _ _ gid h); auto. rewrite Hs. constructor.
  - intros gid uid. apply (row_step_of_update _ _ _ _ gid Hg).
    destruct (activate_gift_gifts clock gid uid w)
      as [|(h & h' & ? & Hs & Hs' & ?)]; [by left|right].
    exists h, h'. rewrite Hs. split_and!; auto.
    destruct Hs' as [-> | ->]; constructor.
  - intros gid donor. apply (row_step_of_update _ _ _ _ gid Hg).
    destruct (cancel_gift_gifts clock gid donor w)
      as [|(h & h' & ? & Hs & Hs' & ?)]; [by left|right].
    exists h, h'. rewrite Hs'. split_and!; auto.
    destruct Hs as [-> | ->]; constructor.
  - rewrite expire_old_gifts_gifts.
    unfold row_step. rewrite lookup_fmap, Hg. cbn.
    unfold gift_dal.lapsed.
    destruct (decide (status g = ready)) as [Hr|Hr].
    + rewrite (bool_decide_true _ Hr). cbn.
      destruct (is_past (expires_at g) (clock (ticks w))).
      * eexists. split; [reflexivity|]. cbn. rewrite Hr.
        split_and!; try done. right. constructor.
      * exists g. split_and!; auto.
    + rewrite (bool_decide_false _ Hr). cbn. exists g. split_and!; auto.
  - intros Ht. split_and!.
    + intros pid. unfold gift_dal.mark_gift_as_paid. mstep_get. rewrite Hg.
      rewrite bool_decide_true; [done|]. intros Hs. by rewrite Hs in Ht.
    + intros uid. unfold gift_dal.activate_gift. mstep_get. rewrite Hg.
      rewrite bool_decide_true; [done|]. intros Hs. by rewrite Hs in Ht.
    + intros donor. unfold gift_dal.cancel_gift. mstep_get. rewrite Hg.
      case_bool_decide; [by eexists|].
      rewrite bool_decide_true; [by eexists|].
      rewrite !elem_of_cons, elem_of_nil.
      intros [Hs|[Hs|[]]]; by rewrite Hs in Ht.
    + intros uid Hfind.
      unfold gift_dal.validate_gift_code_for_activation.
      unfold gift_dal.get_gift_by_code in *.
      unfold bind, select_gifts in *. cbn in *.
      destruct (map_to_list _) as [|r [|r' rows]] eqn:Hrows;
        cbn in Hfind; unfold ret, raise in Hfind; simplify_eq/=.
      rewrite bool_decide_true
        by (intros Hs; by rewrite Hs in Ht).
      unfold ret. destruct (status g) eqn:Hs; try done; by eexists _, _.
    + intros pid Hfind.
      apply (process_gift_payment_not_pending clock pid w id g Hfind).
      intros Hs. by rewrite Hs in Ht.
  - intros gid pid. unfold gift_dal.mark_gift_as_paid. dal_unfold.
    repeat case_match; simplify_eq/=; auto.
  - intros gid donor. unfold gift_dal.cancel_gift. dal_unfold.
    repeat case_match; simplify_eq/=; auto.
  - intros st. by apply update_gift_status_ok.
Qed.

(** C5, as stated, fails: there is an operation that moves a record
    back. [update_gift_status] moves a gift that has been [activated]
    back to [ready], and to [pending_payment]: the record is terminal,
    the call is not turned down, and the row it leaves is no step of the
    state machine. *)
Lemma update_gift_status_reopens :
  let g := sample_gift activated (Some 99999) in
  let w := sample_world g in
  let res := gift_dal.update_gift_status 10 ready [] w in
  gifts w !! 10 = Some g
  ∧ terminal (status g)
  ∧ res.1 = Ok (Some (set_status ready g))
  ∧ gifts res.2 !! 10 = Some (set_status ready g)
  ∧ status (set_status ready g) = ready
  ∧ ¬ edge (status g) ready
  ∧ ¬ row_step (gifts w) (gifts res.2) 10 g
  ∧ gifts (gift_dal.update_gift_status 10 pending_payment [] w).2 !! 10
    = Some (set_status pending_payment g).
Proof.
  intros g w res.
  assert (Hrow : gifts res.2 !! 10 = Some (set_status ready g))
    by (vm_compute; reflexivity).
  split_and!; try (vm_compute; reflexivity); try exact I.
  - intros He. inversion He.
  - intros (g' & Hg' & _ & Hterm & _).
    rewrite Hrow in Hg'. specialize (Hterm I).
    assert (Hst : status g' = status g) by (by rewrite Hterm).
    injection Hg' as <-. discriminate Hst.
Qed.

(** ** Redemption *)

Lemma get_gift_by_code_Some code w id g r :
  gift_dal.get_gift_by_code code false w = (Ok (Some (id, g)), r) ->
  r = w ∧ gifts w !! id = Some g ∧ gift_code g = code
  ∧ gift_dal.get_gift_by_code code true w = (Ok (Some (id, g)), locked id w).
Proof.
  unfold gift_dal.get_gift_by_code, bind, select_gifts, lock_rows. cbn.
  intros H. apply scalar_one_or_none_Some in H as [Hrows ->].
  rewrite Hrows. cbn.
  apply select_one in Hrows as (? & ? & ?). split_and!; auto.
  unfold locked, ret. by rewrite union_empty_r_L.
Qed.

Lemma get_gift_by_code_None code w r :
  gift_dal.get_gift_by_code code false w = (Ok None, r) ->
  r = w ∧ gift_dal.get_gift_by_code code true w
          = (Ok None,
             mkWorld (committed w) (gifts w) (row_locks w ∪ ∅) (gift_id_seq w)
               (users w) (tariffs w) (ticks w) (draws w) (trace w ++ [])).
Proof.
  unfold gift_dal.get_gift_by_code, bind, select_gifts, lock_rows. cbn.
  intros H. apply scalar_one_or_none_None in H as [Hrows ->].
  rewrite Hrows. cbn. auto.
Qed.

Lemma validate_status_rejected clock code uid w id g :
  gift_dal.get_gift_by_code code false w = (Ok (Some (id, g)), w) ->
  status g ≠ ready ->
  gift_dal.validate_gift_code_for_activation clock code uid w
  = (Ok (Some (id, g), Some (status_error (status g))), locked id w).
Proof.
  intros Hfind Hst.
  apply get_gift_by_code_Some in Hfind as (_ & Hm & Hc & Hlock).
  unfold gift_dal.validate_gift_code_for_activation. mstep Hlock.
  rewrite bool_decide_true by done.
  by destruct (status g).
Qed.

Lemma validate_expired clock code uid w id g :
  gift_dal.get_gift_by_code code false w = (Ok (Some (id, g)), w) ->
  status g = ready ->
  is_past (expires_at g) (clock (ticks w)) = true ->
  gift_dal.validate_gift_code_for_activation clock code uid w
  = (Ok (Some (id, set_status expired g), Some This_gift_has_expired),
     with_gifts (<[id := set_status expired g]> (gifts w))
       (with_ticks (S (ticks w)) (locked id w))).
Proof.
  intros Hfind Hst Hpast.
  apply get_gift_by_code_Some in Hfind as (_ & Hm & Hc & Hlock).
  unfold gift_dal.validate_gift_code_for_activation. mstep Hlock.
  rewrite bool_decide_false by (rewrite Hst; auto).
  mstep_now. cbn [ticks locked]. rewrite Hpast.
  erewrite bind_ok; last first.
  { by apply (update_gift_status_ok _ _ g). }
  reflexivity.
Qed.

Lemma validate_live clock code uid w id g :
  gift_dal.get_gift_by_code code false w = (Ok (Some (id, g)), w) ->
  status g = ready ->
  is_past (expires_at g) (clock (ticks w)) = false ->
  gift_dal.validate_gift_code_for_activation clock code uid w
  = (Ok (Some (id, g),
         if decide (eligible g uid) then None else Some (ineligible_msg g)),
     with_ticks (S (ticks w)) (locked id w)).
Proof.
  intros Hfind Hst Hpast.
  apply get_gift_by_code_Some in Hfind as (_ & Hm & Hc & Hlock).
  unfold gift_dal.validate_gift_code_for_activation. mstep Hlock.
  rewrite bool_decide_false by (rewrite Hst; auto).
  mstep_now. cbn [ticks locked]. rewrite Hpast.
  destruct (decide (eligible g uid)) as [He|He];
    unfold eligible, ineligible_msg in *;
    destruct (recipient_type g); case_bool_decide;
    try reflexivity; try contradiction.
  all: exfalso; auto.
Qed.

(** C8. [activate_gift] on the code of a gift that is [ready] and whose
    [expires_at] is before the time the validation reads: the call
    returns the failure "This gift has expired"; in the open
    transaction, which holds the row lock taken by [SELECT ... FOR
    UPDATE], the record's status is now [expired] and nothing else of it
    changed; the call neither commits nor rolls back. *)
Theorem activate_gift_lazy_expiry clock sub code uid w id g e :
  gift_dal.get_gift_by_code code false w = (Ok (Some (id, g)), w) ->
  status g = ready ->
  expires_at g = Some e ->
  e < clock (ticks w) ->
  ∃ w', GiftService.activate_gift clock sub code uid w
        = (Ok (false, This_gift_has_expired, None), w')
        ∧ gifts w' = <[id := set_status expired g]> (gifts w)
        ∧ status (set_status expired g) = expired
        ∧ id ∈ row_locks w'
        ∧ trace w' = trace w ++ [EvLockRow id]
        ∧ committed w' = committed w.
Proof.
  intros Hfind Hst He Hlt.
  assert (Hpast : is_past (expires_at g) (clock (ticks w)) = true).
  { rewrite He. cbn. by apply bool_decide_true. }
  eexists. split.
  - unfold GiftService.activate_gift, try_except.
    mstep (validate_expired clock code uid w id g Hfind Hst Hpast).
    reflexivity.
  - cbn. split_and!; try reflexivity.
    apply elem_of_union_r. by apply elem_of_singleton.
Qed.

Lemma dal_activate_gift_ok clock id uid w g :
  gifts w !! id = Some g ->
  status g = ready ->
  is_past (expires_at g) (clock (ticks w)) = false ->
  eligible g uid ->
  recipient_known g uid (users w) ->
  gift_dal.activate_gift clock id uid w
  = (Ok (Some (activated_record uid (clock (ticks w)) (users w) g), None),
     with_gifts
       (<[id := activated_record uid (clock (ticks w)) (users w) g]> (gifts w))
       (with_ticks (S (ticks w)) w)).
Proof.
  intros Hm Hst Hpast Hel Hknown.
  unfold gift_dal.activate_gift. mstep_get. rewrite Hm.
  rewrite bool_decide_false by (rewrite Hst; auto).
  mstep_now. rewrite Hpast. cbn zeta.
  unfold eligible, recipient_known, activated_record in *.
  destruct (recipient_type g) eqn:Hrt.
  - rewrite bool_decide_false by done.
    unfold get_user_by_id. unfold bind at 1. cbn [users with_ticks].
    destruct (Hknown eq_refl) as [r Hr]. rewrite Hr.
    erewrite bind_ok; last first.
    { apply (db_update_ok _ g); [exact Hm|].
      apply update_allowed_new_recipient;
        try (by destruct (truthy_str _)).
      assert (Hrid : ∀ g', recipient_user_id g' = Some uid ->
                fk_user (recipient_user_id g')
                  (users (with_ticks (S (ticks w)) w)) = true).
      { intros g' ->. cbn. apply bool_decide_true. by rewrite Hr. }
      apply Hrid. by destruct (truthy_str _). }
    reflexivity.
  - rewrite bool_decide_false by (intros Hne; by apply Hne).
    erewrite bind_ok; last first.
    { apply (db_update_ok _ g); [exact Hm|]. by apply update_allowed_same. }
    reflexivity.
Qed.

Lemma activate_gift_reaches_call clock sub code uid w id g :
  redeemable clock code uid w id g ->
  let wc := at_external_call clock id uid g w in
  GiftService.activate_gift clock sub code uid w
  = match sub wc uid (tariff_id g) with
    | SubActivated r =>
        (Ok (true, Gift_activated_successfully,
             Some (ActivatedData id (subscription_id r) (end_date r)
                     (subscription_url r) (donor_username g)
                     (message_to_recipient g))),
         mkWorld (gifts wc) (gifts wc) ∅ (gift_id_seq w) (users w) (tariffs w)
           (ticks wc) (draws w)
           ((trace wc ++ [EvActivateSubscription uid (tariff_id g)])
            ++ [EvCommit]))
    | SubNothing =>
        (Ok (false, Failed_to_activate_subscription, None),
         mkWorld (committed w) (committed w) ∅ (gift_id_seq w) (users w)
           (tariffs w) (ticks wc) (draws w)
           ((trace wc ++ [EvActivateSubscription uid (tariff_id g)])
            ++ [EvRollback]))
    | SubRaised =>
        (Ok (false, Internal_error SubscriptionError, None),
         mkWorld (committed w) (committed w) ∅ (gift_id_seq w) (users w)
           (tariffs w) (ticks wc) (draws w)
           ((trace wc ++ [EvActivateSubscription uid (tariff_id g)])
            ++ [EvRollback]))
    end.
Proof.
  intros [Hfind Hst Hl1 Hl2 Hel Hknown [t Ht]] wc.
  destruct (get_gift_by_code_Some _ _ _ _ _ Hfind) as (_ & Hm & _ & _).
  unfold GiftService.activate_gift, try_except.
  mstep (validate_live clock code uid w id g Hfind Hst Hl1).
  rewrite decide_True by done.
  erewrite bind_ok; last first.
  { apply (dal_activate_gift_ok clock id uid _ g); auto. }
  cbn [ticks with_ticks locked users].
  unfold get_tariff_by_id. unfold bind at 1.
  cbn [tariffs with_gifts with_ticks locked]. rewrite Ht.
  unfold GiftService.call_activate_subscription. unfold bind at 1.
  change (with_gifts _ _) with wc.
  destruct (sub wc uid (tariff_id g)); reflexivity.
Qed.

(** C2, as stated, fails: bob redeems alice's ready gift while the
    subscription capability returns nothing. The capability is invoked
    with no commit before it, the transaction is then rolled back, and
    the gift is [ready] again, not [activated]. *)
Lemma activate_gift_failure_rolls_back :
  let g := sample_gift ready (Some 99999) in
  let res := GiftService.activate_gift at_9000 sub_fails "GIFTCODE00000001" 2
               (sample_world g) in
  res.1 = Ok (false, Failed_to_activate_subscription, None)
  ∧ trace res.2 = [EvLockRow 10; EvActivateSubscription 2 7; EvRollback]
  ∧ gifts res.2 !! 10 = Some g
  ∧ committed res.2 !! 10 = Some g
  ∧ status g ≠ activated.
Proof. vm_compute. split_and!; try reflexivity. discriminate. Qed.

(** C2, amended. When [activate_gift] reaches the external subscription
    capability, the gift's transition to [activated] is flushed into the
    open transaction and nothing has been committed. If the capability
    returns nothing, or raises, the transaction is rolled back: the
    committed table is as before the call, the session sees it again,
    and the call fails with "Failed to activate subscription", or with
    "Internal error". The commit follows a successful call only. *)
Theorem activate_gift_external_call_before_commit clock sub code uid w id g :
  redeemable clock code uid w id g ->
  let wc := at_external_call clock id uid g w in
  let res := GiftService.activate_gift clock sub code uid w in
  let call := EvActivateSubscription uid (tariff_id g) in
  committed wc = committed w
  ∧ (∃ ga, gifts wc !! id = Some ga ∧ status ga = activated)
  ∧ (sub wc uid (tariff_id g) = SubNothing ->
     res.1 = Ok (false, Failed_to_activate_subscription, None)
     ∧ trace res.2 = trace w ++ [EvLockRow id; call; EvRollback]
     ∧ committed res.2 = committed w ∧ gifts res.2 = committed w)
  ∧ (sub wc uid (tariff_id g) = SubRaised ->
     res.1 = Ok (false, Internal_error SubscriptionError, None)
     ∧ trace res.2 = trace w ++ [EvLockRow id; call; EvRollback]
     ∧ committed res.2 = committed w ∧ gifts res.2 = committed w)
  ∧ (∀ r, sub wc uid (tariff_id g) = SubActivated r ->
     res.1 = Ok (true, Gift_activated_successfully,
                 Some (ActivatedData id (subscription_id r) (end_date r)
                         (subscription_url r) (donor_username g)
                         (message_to_recipient g)))
     ∧ trace res.2 = trace w ++ [EvLockRow id; call; EvCommit]
     ∧ committed res.2 = gifts wc ∧ gifts res.2 = gifts wc).
Proof.
  intros Hrd wc res call. subst res.
  rewrite (activate_gift_reaches_call clock sub code uid w id g Hrd).
  fold wc. split_and!.
  - reflexivity.
  - eexists. split; [apply lookup_insert_eq|reflexivity].
  - intros ->. cbn. rewrite <- !app_assoc. auto.
  - intros ->. cbn. rewrite <- !app_assoc. auto.
  - intros r ->. cbn. rewrite <- !app_assoc. auto.
Qed.

Lemma sample_redeemable :
  redeemable at_9000 "GIFTCODE00000001" 2
    (sample_world (sample_gift ready (Some 99999))) 10
    (sample_gift ready (Some 99999)).
Proof.
  split; try (vm_compute; reflexivity).
  - vm_compute. discriminate.
  - intros _. vm_compute. eauto.
  - vm_compute. eauto.
Qed.

Lemma activate_gift_external_call_before_commit_witness :
  let g := sample_gift ready (Some 99999) in
  let w := sample_world g in
  let res := GiftService.activate_gift at_9000 sub_fails "GIFTCODE00000001" 2 w in
  res.1 = Ok (false, Failed_to_activate_subscription, None)
  ∧ gifts res.2 = committed w.
Proof.
  intros g w res.
  destruct (activate_gift_external_call_before_commit at_9000 sub_fails
              "GIFTCODE00000001" 2 w 10 g sample_redeemable)
    as (_ & _ & Hnothing & _).
  destruct (Hnothing eq_refl) as (H1 & _ & _ & H2). auto.
Defined.

(** ** Preview *)

(** C3 does not hold of the code: [validate_gift_code], like
    [activate_gift], goes through [validate_gift_code_for_activation],
    which selects the row [FOR UPDATE] and writes the lazy expiry. On
    the code of a [ready] gift whose [expires_at] has passed, the
    preview returns "This gift has expired", leaves the row locked and
    leaves its status [expired] in the open transaction. *)
Theorem validate_gift_code_locks_and_expires clock code uid w id g e :
  gift_dal.get_gift_by_code code false w = (Ok (Some (id, g)), w) ->
  status g = ready ->
  expires_at g = Some e ->
  e < clock (ticks w) ->
  let res := GiftService.validate_gift_code clock code uid w in
  res.1 = Ok (false, This_gift_has_expired, None)
  ∧ gifts res.2 = <[id := set_status expired g]> (gifts w)
  ∧ gifts res.2 ≠ gifts w
  ∧ row_locks res.2 = row_locks w ∪ {[id]}
  ∧ trace res.2 = trace w ++ [EvLockRow id].
Proof.
  intros Hfind Hst He Hlt res.
  assert (Hpast : is_past (expires_at g) (clock (ticks w)) = true).
  { rewrite He. cbn. by apply bool_decide_true. }
  destruct (get_gift_by_code_Some _ _ _ _ _ Hfind) as (_ & Hm & _ & _).
  subst res. unfold GiftService.validate_gift_code, try_except.
  mstep (validate_expired clock code uid w id g Hfind Hst Hpast).
  cbn. split_and!; try reflexivity.
  intros Heq.
  assert (Hl : (<[id := set_status expired g]> (gifts w)) !! id = Some g)
    by (by rewrite Heq).
  rewrite lookup_insert_eq in Hl.
  assert (Hs : status (set_status expired g) = status g) by congruence.
  cbn in Hs. congruence.
Qed.

Lemma validate_gift_code_locks_and_expires_witness :
  let g := sample_gift ready (Some 5000) in
  let w := sample_world g in
  let res := GiftService.validate_gift_code at_9000 "GIFTCODE00000001" 2 w in
  row_locks w = ∅
  ∧ gifts w !! 10 = Some g
  ∧ res.1 = Ok (false, This_gift_has_expired, None)
  ∧ gifts res.2 = <[10 := set_status expired g]> (gifts w)
  ∧ gifts res.2 ≠ gifts w
  ∧ row_locks res.2 = row_locks w ∪ {[10]}
  ∧ trace res.2 = trace w ++ [EvLockRow 10].
Proof.
  intros g w res. split; [reflexivity|]. split; [reflexivity|].
  apply (validate_gift_code_locks_and_expires at_9000 "GIFTCODE00000001" 2 w
           10 g 5000).
  - vm_compute. reflexivity.
  - reflexivity.
  - reflexivity.
  - vm_compute. reflexivity.
Defined.

(** Every preview of an existing code takes the row lock, whatever the
    state of the gift. *)
Lemma validate_gift_code_takes_lock clock code uid w id g :
  gift_dal.get_gift_by_code code false w = (Ok (Some (id, g)), w) ->
  id ∈ row_locks (GiftService.validate_gift_code clock code uid w).2.
Proof.
  intros Hfind.
  destruct (get_gift_by_code_Some _ _ _ _ _ Hfind) as (_ & Hm & _ & Hlock).
  assert (Hin : id ∈ row_locks w ∪ ({[id]} : gset Z))
    by (apply elem_of_union_r; by apply elem_of_singleton).
  unfold GiftService.validate_gift_code, try_except.
  destruct (decide (status g = ready)) as [Hst|Hst].
  - destruct (is_past (expires_at g) (clock (ticks w))) eqn:Hpast.
    + mstep (validate_expired clock code uid w id g Hfind Hst Hpast).
      exact Hin.
    + mstep (validate_live clock code uid w id g Hfind Hst Hpast).
      destruct (decide (eligible g uid)); [|exact Hin].
      unfold get_tariff_by_id, bind. cbn. exact Hin.
  - mstep (validate_status_rejected clock code uid w id g Hfind Hst).
    exact Hin.
Qed.

(** ** Cancellation *)

Lemma dal_cancel_gift_cases clock id donor w :
  gift_dal.cancel_gift clock id donor w
  = match gifts w !! id with
    | None => (Ok (None, Some Gift_not_found), w)
    | Some g =>
        if bool_decide (donor_user_id g ≠ donor)
        then (Ok (Some g, Some Not_the_donor), w)
        else if bool_decide (status g ∉ [pending_payment; ready])
        then (Ok (Some g, Some (Cannot_cancel_in_status (status g))), w)
        else
          let g' := cancelled_record (clock (ticks w)) g in
          (Ok (Some g', None),
           with_gifts (<[id := g']> (gifts w)) (with_ticks (S (ticks w)) w))
    end.
Proof.
  unfold gift_dal.cancel_gift. mstep_get.
  destruct (gifts w !! id) as [g|] eqn:Hm; [|reflexivity].
  case_bool_decide; [reflexivity|].
  case_bool_decide; [reflexivity|].
  mstep_now. cbn zeta.
  erewrite bind_ok; last first.
  { apply (db_update_ok _ g); [exact Hm|]. by apply update_allowed_same. }
  reflexivity.
Qed.

Lemma service_cancel_gift_cases clock id actor is_admin w :
  GiftService.cancel_gift clock id actor is_admin w
  = match gifts w !! id with
    | None => (Ok (false, Gift_not_found, None), w)
    | Some g =>
        if negb is_admin && bool_decide (donor_user_id g ≠ actor)
        then (Ok (false, Not_authorized_to_cancel, None), w)
        else if bool_decide (status g ∉ [pending_payment; ready])
        then (Ok (false, Cannot_cancel_in_status (status g), None), w)
        else
          let now := clock (ticks w) in
          let g' := cancelled_record now g in
          (Ok (true, Gift_cancelled_successfully,
               Some (CancelledData id (gift_code g) cancelled (Some now))),
           mkWorld (<[id := g']> (gifts w)) (<[id := g']> (gifts w)) ∅
             (gift_id_seq w) (users w) (tariffs w) (S (ticks w)) (draws w)
             (trace w ++ [EvCommit]))
    end.
Proof.
  unfold GiftService.cancel_gift, try_except. mstep_get.
  destruct (gifts w !! id) as [g|] eqn:Hm; [|reflexivity].
  destruct (negb is_admin && _); [reflexivity|].
  unfold bind at 1. rewrite dal_cancel_gift_cases, Hm.
  rewrite bool_decide_false by (intros Hne; by apply Hne).
  case_bool_decide; reflexivity.
Qed.

(** C6, as stated, fails: alice cancels her ready gift. The cancellation
    succeeds, yet no row lock is taken at any point of it: the data
    layer writes with no lock held and the trace of the whole call is a
    single commit, where a redemption of the same gift starts by locking
    the row. *)
Lemma cancel_gift_takes_no_lock :
  let g := sample_gift ready (Some 99999) in
  let w := sample_world g in
  let res := GiftService.cancel_gift at_9000 10 1 false w in
  succeeded res.1
  ∧ trace res.2 = [EvCommit]
  ∧ (EvLockRow 10 ∉ trace res.2)
  ∧ row_locks (gift_dal.cancel_gift at_9000 10 1 w).2 = ∅
  ∧ trace (GiftService.activate_gift at_9000 sub_works "GIFTCODE00000001" 2
             w).2
    = [EvLockRow 10; EvActivateSubscription 2 7; EvCommit].
Proof.
  intros g w res. split_and!.
  - by eexists _, _.
  - reflexivity.
  - assert (Ht : trace res.2 = [EvCommit]) by reflexivity.
    rewrite Ht, list_elem_of_singleton. discriminate.
  - reflexivity.
  - vm_compute. reflexivity.
Qed.

(** C6, amended. [cancel_gift] succeeds exactly when the gift exists, its
    status is [pending_payment] or [ready], and the actor is its donor
    or an admin; it then writes [status = cancelled] and [cancelled_at =
    now] and commits. It takes no row lock. On a gift that is already
    [activated] an authorised actor gets the error "Cannot cancel gift
    in status activated" and nothing is written. *)
Theorem cancel_gift_rules clock id actor is_admin w :
  let res := GiftService.cancel_gift clock id actor is_admin w in
  let now := clock (ticks w) in
  (succeeded res.1
   ↔ ∃ g, gifts w !! id = Some g ∧ cancellable (status g)
          ∧ (is_admin = true ∨ donor_user_id g = actor))
  ∧ (∀ g, gifts w !! id = Some g -> succeeded res.1 ->
     gifts res.2 = <[id := cancelled_record now g]> (gifts w)
     ∧ committed res.2 = gifts res.2
     ∧ status (cancelled_record now g) = cancelled
     ∧ cancelled_at (cancelled_record now g) = Some now
     ∧ cancelled_record now g
       = set_cancelled_at (Some now) (set_status cancelled g))
  ∧ (∀ j, EvLockRow j ∈ trace res.2 -> EvLockRow j ∈ trace w)
  ∧ (∀ g, gifts w !! id = Some g -> status g = activated ->
     is_admin = true ∨ donor_user_id g = actor ->
     res = (Ok (false, Cannot_cancel_in_status activated, None), w)).
Proof.
  intros res now. subst res. rewrite service_cancel_gift_cases.
  destruct (gifts w !! id) as [g|] eqn:Hm.
  - assert (Hauth : negb is_admin && bool_decide (donor_user_id g ≠ actor)
                    = false ↔ is_admin = true ∨ donor_user_id g = actor).
    { destruct is_admin; cbn; [split; auto|].
      case_bool_decide; split; try done.
      - intros [|]; done.
      - auto. }
    destruct (negb is_admin && _) eqn:Ha.
    + assert (Hno : ¬ (is_admin = true ∨ donor_user_id g = actor)).
      { intros H. apply Hauth in H. discriminate. }
      cbn. split_and!.
      * split; [intros (? & ? & ?); discriminate|].
        intros (g' & ? & _ & ?). simplify_eq. contradiction.
      * intros g' _ (? & ? & ?). discriminate.
      * auto.
      * intros g' ? _ ?. simplify_eq. contradiction.
    + assert (Hyes : is_admin = true ∨ donor_user_id g = actor)
        by (by apply Hauth).
      destruct (decide (status g ∉ [pending_payment; ready])) as [Hst|Hst];
        [rewrite bool_decide_true by done|rewrite bool_decide_false by done].
      * cbn. split_and!.
        -- split; [intros (? & ? & ?); discriminate|].
           intros (g' & ? & [Hs|Hs] & _); simplify_eq; exfalso; apply Hst;
             rewrite Hs, !elem_of_cons; auto.
        -- intros g' _ (? & ? & ?). discriminate.
        -- auto.
        -- intros g' ? Hs _. simplify_eq. by rewrite Hs.
      * apply cancellable_cases in Hst. cbn. split_and!.
        -- split; [|by eexists _, _]. intros _. by exists g.
        -- intros g' ? _. by simplify_eq.
        -- intros j Hj. apply elem_of_app in Hj as [|Hj]; [done|].
           apply list_elem_of_singleton in Hj. discriminate.
        -- intros g' ? Hs _. simplify_eq.
           destruct Hst as [Hst|Hst]; rewrite Hs in Hst; discriminate.
  - cbn. split_and!.
    + split; [intros (? & ? & ?); discriminate|].
      intros (g' & ? & _); discriminate.
    + intros g' ?. discriminate.
    + auto.
    + intros g' ?. discriminate.
Qed.

(** ** Creation *)

Lemma choices_draws rng n w :
  ∃ cs, gift_dal.choices rng n w = (Ok cs, with_draws (n + draws w)%nat w).
Proof.
  revert w. induction n as [|n IH]; intros w.
  - exists []. cbn. unfold ret. by destruct w.
  - cbn [gift_dal.choices]. unfold bind at 1, gift_dal.secrets_choice.
    destruct (IH (with_draws (S (draws w)) w)) as [cs Hcs].
    rewrite (bind_ok _ _ _ _ _ Hcs). eexists. unfold ret. f_equal.
    unfold with_draws. cbn. f_equal. lia.
Qed.

Lemma scalar_one_or_none_world {A} (rows : list A) w :
  ∃ r, scalar_one_or_none rows w = (r, w).
Proof. destruct rows as [|x [|y l]]; by eexists. Qed.

Lemma _gift_code_exists_world code w :
  ∃ r, gift_dal._gift_code_exists code w = (r, w).
Proof.
  unfold gift_dal._gift_code_exists, bind, select_gifts.
  match goal with |- context [scalar_one_or_none ?l w] =>
    destruct (scalar_one_or_none_world l w) as [[r|e] ->] end; by eexists.
Qed.

(** Code generation reads the table and the random source and writes
    nothing but the position in the random source. *)
Lemma generate_unique_gift_code_loop_draws rng n w :
  ∃ r d, gift_dal.generate_unique_gift_code_loop rng n w
         = (r, with_draws d w).
Proof.
  revert w. induction n as [|n IH]; intros w.
  - exists (Raise (RuntimeError_code_attempts MAX_GIFT_CODE_ATTEMPTS)),
      (draws w). cbn. unfold raise. by destruct w.
  - cbn [gift_dal.generate_unique_gift_code_loop].
    unfold gift_dal._generate_gift_code_candidate.
    destruct (choices_draws rng GIFT_CODE_LENGTH w) as [cs Hcs].
    unfold bind at 1. rewrite (bind_ok _ _ _ _ _ Hcs).
    unfold ret at 1.
    set (w1 := with_draws (GIFT_CODE_LENGTH + draws w) w).
    destruct (_gift_code_exists_world (string_of_list_ascii cs) w1)
      as [[taken|e] Hex].
    + rewrite (bind_ok _ _ _ _ _ Hex). destruct (negb taken).
      * by eexists _, _.
      * destruct (IH w1) as (r' & d & Hr'). rewrite Hr'. by eexists _, _.
    + rewrite (bind_raise _ _ _ _ _ Hex). by eexists _, _.
Qed.

(** What [create_gift_record] does to the session: nothing is committed;
    either it raises and the table is as it was, or it returns the new
    row, stored under a fresh key and carrying an idempotency key no
    other row has. *)
Lemma create_gift_record_effect clock rng gd w r w' :
  gift_dal.create_gift_record clock rng gd w = (r, w') ->
  committed w' = committed w
  ∧ match r with
    | Ok (id, g) =>
        gifts w' = <[id := g]> (gifts w)
        ∧ gifts w !! id = None
        ∧ idempotency_key g = gd_idempotency_key gd
        ∧ (∀ j g0, gifts w !! j = Some g0 ->
                   idempotency_key g0 ≠ gd_idempotency_key gd)
    | Raise _ => gifts w' = gifts w
    end.
Proof.
  unfold gift_dal.create_gift_record.
  unfold get_user_by_id at 1. unfold bind at 1.
  destruct (users w !! _) as [donor|];
    [|unfold raise; intros; by simplify_eq].
  unfold get_tariff_by_id at 1. unfold bind at 1.
  destruct (tariffs w !! _) as [tariff|];
    [|unfold raise; intros; by simplify_eq].
  unfold bind at 1.
  match goal with |- context [match ?m w with _ => _ end] =>
    assert (Hrec : ∃ r, m w = (r, w)); [|destruct Hrec as [r0 ->]] end.
  { destruct (gd_recipient_type gd); [by eexists|].
    destruct (negb _); [by eexists|].
    unfold get_user_by_id, bind. destruct (users w !! _); by eexists. }
  destruct r0 as [_|e]; [|intros; by simplify_eq].
  unfold bind at 1.
  match goal with |- context [match ?m w with _ => _ end] =>
    assert (Hcode : ∃ r d, m w = (r, with_draws d w));
      [|destruct Hcode as (r0 & d & ->)] end.
  { destruct (gd_gift_code gd).
    - exists (Ok s), (draws w). unfold ret. by destruct w.
    - exact (generate_unique_gift_code_loop_draws rng
               MAX_GIFT_CODE_ATTEMPTS w). }
  destruct r0 as [code|e]; [|intros; by simplify_eq].
  cbn zeta. mstep_now. unfold db_insert, bind.
  cbn [gifts with_ticks with_draws gift_id_seq with_gift_id_seq].
  destruct (insert_allowed _ _ _) eqn:Hins;
    [|intros; by simplify_eq].
  unfold ret. intros Heq. simplify_eq. cbn. split_and!; try done.
  - unfold insert_allowed in Hins. cbn in Hins.
    repeat (apply andb_prop in Hins as [Hins ?]).
    by apply bool_decide_eq_true in Hins.
  - intros j g0 Hj Hk.
    unfold insert_allowed in Hins. cbn in Hins.
    repeat (apply andb_prop in Hins as [Hins ?]).
    apply bool_decide_eq_true in Hins.
    match goal with H : no_other_row (fun g' => idempotency_key g' = _) _ _
                        = true |- _ =>
      apply bool_decide_eq_true in H;
      destruct (H j g0 Hj) as [Heq|Hne] end.
    + cbn in Hins. congruence.
    + by apply Hne.
Qed.

Lemma check_user_gift_rate_limit_eq clock user hours max_gifts w :
  gift_dal.check_user_gift_rate_limit clock user hours max_gifts w
  = (let count :=
       gift_dal.count_rows
         (map_to_list
            (filter (gift_dal.rate_limit_where user
                       (clock (ticks w) - timedelta_hours hours))
               (gifts w))) in
     (Ok (bool_decide (count < max_gifts), count),
      with_ticks (S (ticks w)) w)).
Proof. reflexivity. Qed.

Lemma check_user_daily_gift_spending_eq clock user max_amount w :
  gift_dal.check_user_daily_gift_spending clock user max_amount w
  = (Ok (float_lt (spent_today user (clock (ticks w)) (gifts w)) max_amount,
         spent_today user (clock (ticks w)) (gifts w)),
     with_ticks (S (ticks w)) w).
Proof. reflexivity. Qed.

Lemma creation_rejected key w w' m :
  committed w' = committed w -> gifts w' = gifts w ->
  creation_outcome key w w' (Ok (false, m, None)).
Proof. intros Hc Hg. split; [done|]. exists false, m, None. auto. Qed.

Ltac reject_now H :=
  unfold ret in H; inversion H; subst; by apply creation_rejected.

Lemma create_gift_outcome clock rng donor_id tariff_id rtype key rid msg md
    w r w' :
  GiftService.create_gift clock rng donor_id tariff_id rtype key rid msg md w
  = (r, w') ->
  creation_outcome key w w' r.
Proof.
  unfold GiftService.create_gift, try_except.
  unfold get_user_by_id at 1. unfold bind at 1.
  destruct (users w !! donor_id) as [donor|]; [|intros H; reject_now H].
  destruct (user_is_banned donor); [intros H; reject_now H|].
  rewrite (bind_ok _ _ _ _ _ (check_user_gift_rate_limit_eq _ _ _ _ _)).
  cbn beta iota zeta.
  destruct (negb _); [intros H; reject_now H|].
  rewrite (bind_ok _ _ _ _ _ (check_user_gift_rate_limit_eq _ _ _ _ _)).
  cbn beta iota zeta.
  destruct (negb _); [intros H; reject_now H|].
  rewrite (bind_ok _ _ _ _ _ (check_user_daily_gift_spending_eq _ _ _ _)).
  cbn beta iota zeta.
  destruct (negb _); [intros H; reject_now H|].
  set (w3 := with_ticks _ (with_ticks _ (with_ticks _ w))).
  assert (Hc3 : committed w3 = committed w) by reflexivity.
  assert (Hg3 : gifts w3 = gifts w) by reflexivity.
  clearbody w3.
  unfold get_tariff_by_id at 1. unfold bind at 1.
  destruct (tariffs w3 !! tariff_id) as [tariff|];
    [|intros H; reject_now H].
  destruct (negb (tariff_is_active tariff)); [intros H; reject_now H|].
  unfold bind at 1.
  match goal with |- context [match ?m w3 with _ => _ end] =>
    assert (Hrc : ∃ o, m w3 = (Ok o, w3)
                       ∧ ∀ f, o = Some f -> ∃ m', f = (false, m', None));
      [|destruct Hrc as (o & -> & Hfail)] end.
  { destruct rtype; [by eexists|].
    destruct (negb _); [eexists; split; [done|]; intros; simplify_eq; eauto|].
    unfold get_user_by_id, bind. destruct (users w3 !! _);
      [|eexists; split; [done|]; intros; simplify_eq; eauto].
    destruct (user_is_banned _);
      [eexists; split; [done|]; intros; simplify_eq; eauto|].
    destruct (bool_decide _);
      eexists; (split; [done|]); intros; simplify_eq; eauto. }
  destruct o as [failure|].
  { destruct (Hfail failure eq_refl) as [m' ->]. intros H. reject_now H. }
  destruct (float_lt _ _); [intros H; reject_now H|].
  unfold bind at 1.
  match goal with |- context [gift_dal.create_gift_record clock rng ?gd w3] =>
    destruct (gift_dal.create_gift_record clock rng gd w3) as [[[id g]|e] w4]
      eqn:Hrec;
    apply create_gift_record_effect in Hrec as [Hc4 Hrec]
  end.
  - unfold ret. intros H. inversion H; subst. split; [congruence|].
    eexists true, _, _. split; [reflexivity|].
    destruct Hrec as (Hg4 & Hnone & Hkey & Hothers).
    exists id, g. rewrite <- Hg3. split_and!; auto.
  - unfold rollback, bind, ret. intros H. inversion H; subst.
    split; [cbn; congruence|]. exists false, (Internal_error e), None.
    split_and!; auto. right. cbn. congruence.
Qed.

(** C10. [create_gift] always returns a result, and whenever the result
    is a failure nothing has been inserted: the committed table is the
    one before the call, no data is returned, and the open transaction
    sees either the table it saw before the call (a check turned the
    request down before the insert) or the committed table (an
    exception was met and the transaction rolled back), so every row it
    sees was there before. *)
Theorem create_gift_failure_inserts_nothing clock rng donor_id tariff_id rtype
    key rid msg md w :
  let res := GiftService.create_gift clock rng donor_id tariff_id rtype key
               rid msg md w in
  ∃ b m d, res.1 = Ok (b, m, d)
    ∧ committed res.2 = committed w
    ∧ (b = false ->
       d = None
       ∧ (gifts res.2 = gifts w ∨ gifts res.2 = committed w)
       ∧ (∀ id g, gifts res.2 !! id = Some g ->
                  gifts w !! id = Some g ∨ committed w !! id = Some g)).
Proof.
  intros res.
  destruct (create_gift_outcome clock rng donor_id tariff_id rtype key rid msg
              md w res.1 res.2) as (Hc & b & m & d & Hr & Hb).
  { subst res. by destruct (GiftService.create_gift _ _ _ _ _ _ _ _ _ _). }
  exists b, m, d. split_and!; auto.
  intros ->. destruct Hb as (-> & Hg). split_and!; auto.
  intros id g. destruct Hg as [-> | ->]; auto.
Qed.

(** C4, amended. A [create_gift] call whose idempotency key is already
    carried by a row the session sees fails: it returns a failure
    result without data, never the stored record; the committed table
    is unchanged and the session sees no new row. *)
Theorem create_gift_duplicate_key_fails clock rng donor_id tariff_id rtype
    key rid msg md w j g0 :
  gifts w !! j = Some g0 ->
  idempotency_key g0 = key ->
  let res := GiftService.create_gift clock rng donor_id tariff_id rtype key
               rid msg md w in
  ∃ m, res.1 = Ok (false, m, None)
       ∧ committed res.2 = committed w
       ∧ (gifts res.2 = gifts w ∨ gifts res.2 = committed w).
Proof.
  intros Hj Hk res.
  destruct (create_gift_outcome clock rng donor_id tariff_id rtype key rid msg
              md w res.1 res.2) as (Hc & b & m & d & Hr & Hb).
  { subst res. by destruct (GiftService.create_gift _ _ _ _ _ _ _ _ _ _). }
  destruct b.
  - destruct Hb as (id & g & _ & _ & _ & Hothers).
    by destruct (Hothers j g0 Hj).
  - destruct Hb as (-> & Hg). exists m. auto.
Qed.

(** C4, as stated, fails: alice creates a random gift under the key
    "key-1", the caller commits, and the request is retried with the
    same key. The retry is refused by the unique index and reported as
    an internal error; the stored record is not returned. *)
Lemma create_gift_retry_is_an_error :
  let first := GiftService.create_gift at_9000 count_up 1 7 random "key-1"
                 None None None empty_world in
  let retry := GiftService.create_gift at_9000 count_up 1 7 random "key-1"
                 None None None (commit first.2).2 in
  first.1 = Ok (true, Gift_created_successfully,
                Some (CreatedData 1 "ABCDEFGHIJKLMNOP" 300 "RUB" "Month" 30
                        random pending_payment 9000))
  ∧ retry.1 = Ok (false, Internal_error IntegrityError, None)
  ∧ size (gifts retry.2) = 1%nat.
Proof. vm_compute. auto. Qed.

Lemma create_gift_duplicate_key_fails_witness :
  let first := GiftService.create_gift at_9000 count_up 1 7 random "key-1"
                 None None None empty_world in
  let w := (commit first.2).2 in
  let res := GiftService.create_gift at_9000 count_up 1 7 random "key-1"
               None None None w in
  ∃ m, res.1 = Ok (false, m, None)
       ∧ committed res.2 = committed w
       ∧ (gifts res.2 = gifts w ∨ gifts res.2 = committed w).
Proof.
  intros first w.
  apply (create_gift_duplicate_key_fails at_9000 count_up 1 7 random "key-1"
           None None None w 1
           (mkGift "ABCDEFGHIJKLMNOP" 1 (Some "alice") random None None 7 30
              None 300 "RUB" pending_payment 9000 None None None None "key-1"
              None None)).
  - vm_compute. reflexivity.
  - reflexivity.
Defined.

(** ** Limits *)

Lemma create_gift_spend_stage clock rng donor_id tariff_id rtype key rid msg
    md w t :
  passes_earlier_checks clock donor_id tariff_id rtype rid w t ->
  let total := spent_today donor_id (clock (S (S (ticks w)))) (gifts w) in
  let remaining := float_sub MAX_DAILY_SPENDING total in
  GiftService.create_gift clock rng donor_id tariff_id rtype key rid msg md w
  = if float_lt total MAX_DAILY_SPENDING
    then
      if float_lt remaining (tariff_price t)
      then (Ok (false, Insufficient_daily_budget remaining, None),
            after_limit_checks w)
      else
        try_except
          (do '(gift_id, gift) <-
              gift_dal.create_gift_record clock rng
                (mkGiftData donor_id rtype tariff_id (tariff_duration_days t)
                   (tariff_price t) (Some (tariff_currency t)) key
                   (if truthy_id rid then rid else None)
                   (if truthy_str msg then msg else None)
                   (match md with Some (_ :: _) => md | _ => None end)
                   None None);
           ret (true, Gift_created_successfully,
                Some (CreatedData gift_id (gift_code gift) (amount gift)
                        (currency gift) (tariff_name t) (duration_days gift)
                        (recipient_type_of gift) (status gift)
                        (created_at gift))))
          (fun e => run rollback; ret (false, Internal_error e, None))
          (after_limit_checks w)
    else (Ok (false, Daily_spending_limit_exceeded total MAX_DAILY_SPENDING,
              None),
          after_limit_checks w).
Proof.
  intros [(d & Hd & Hban) Hh Hdy Ht Hact Hrec] total remaining.
  unfold GiftService.create_gift.
  unfold try_except at 1.
  unfold get_user_by_id at 1. unfold bind at 1. rewrite Hd, Hban.
  rewrite (bind_ok _ _ _ _ _ (check_user_gift_rate_limit_eq _ _ _ _ _)).
  cbn beta iota zeta. rewrite (bool_decide_true _ Hh). cbn [negb].
  rewrite (bind_ok _ _ _ _ _ (check_user_gift_rate_limit_eq _ _ _ _ _)).
  cbn beta iota zeta. cbn [ticks gifts with_ticks].
  rewrite (bool_decide_true _ Hdy). cbn [negb].
  rewrite (bind_ok _ _ _ _ _ (check_user_daily_gift_spending_eq _ _ _ _)).
  cbn beta iota zeta. cbn [ticks gifts with_ticks].
  fold total. change (with_ticks _ (with_ticks _ (with_ticks _ w)))
    with (after_limit_checks w).
  destruct (float_lt total MAX_DAILY_SPENDING); cbn [negb];
    [|reflexivity].
  unfold get_tariff_by_id at 1. unfold bind at 1.
  cbn [tariffs after_limit_checks with_ticks]. rewrite Ht, Hact. cbn [negb].
  unfold bind at 1.
  match goal with |- context [match ?m ?w3 with _ => _ end] =>
    assert (Hrc : m w3 = (Ok None, w3)); [|rewrite Hrc] end.
  { unfold recipient_accepted in Hrec. destruct rtype; [reflexivity|].
    destruct Hrec as (r & u & -> & Hr0 & Hu & Hub & Hne).
    cbn [truthy_id]. rewrite (bool_decide_true _ Hr0).
    unfold get_user_by_id, bind. cbn. rewrite Hu, Hub.
    by rewrite bool_decide_false. }
  fold remaining.
  destruct (float_lt remaining (tariff_price t)); reflexivity.
Qed.

Lemma daily_spending_where_statuses user today r :
  gift_dal.daily_spending_where user today r
  ↔ donor_user_id r.2 = user ∧ today ≤ created_at r.2
    ∧ (status r.2 = pending_payment ∨ status r.2 = ready
       ∨ status r.2 = activated).
Proof.
  unfold gift_dal.daily_spending_where.
  rewrite !elem_of_cons, elem_of_nil. tauto.
Qed.


Lemma spent_world_passes st amt tid t :
  priced_tariffs !! tid = Some t -> tariff_is_active t = true ->
  passes_earlier_checks at_9000 1 tid random None (spent_world st amt) t.
Proof.
  intros Ht Ha. split; try done.
  exists alice. split; reflexivity.
Qed.



(** ** Concurrent redemption *)

Lemma dal_activate_gift_ready clock id uid w g :
  gifts w !! id = Some g ->
  status g = ready ->
  eligible g uid ->
  let now := clock (ticks w) in
  gift_dal.activate_gift clock id uid w
  = if is_past (expires_at g) now
    then (Ok (Some (set_status expired g), Some Gift_has_expired),
          with_gifts (<[id := set_status expired g]> (gifts w))
            (with_ticks (S (ticks w)) w))
    else
      let g' := activated_record uid now (users w) g in
      if update_allowed id g g' (with_ticks (S (ticks w)) w)
      then (Ok (Some g', None),
            with_gifts (<[id := g']> (gifts w)) (with_ticks (S (ticks w)) w))
      else (Raise IntegrityError, with_ticks (S (ticks w)) w).
Proof.
  intros Hm Hst Hel now.
  unfold gift_dal.activate_gift. mstep_get. rewrite Hm.
  rewrite bool_decide_false by (rewrite Hst; auto).
  mstep_now. fold now. cbn zeta.
  destruct (is_past (expires_at g) now).
  { erewrite bind_ok; last first.
    { apply (db_update_ok _ g); [exact Hm|]. by apply update_allowed_same. }
    reflexivity. }
  unfold eligible, activated_record in *.
  destruct (recipient_type g) eqn:Hrt.
  - rewrite bool_decide_false by done.
    unfold get_user_by_id. unfold bind at 1. cbn [users with_ticks].
    unfold db_update, bind. cbn [gifts with_ticks]. rewrite Hm.
    destruct (users w !! uid) as [u|]; [destruct (truthy_str _)|];
      destruct (update_allowed _ _ _ _); reflexivity.
  - rewrite bool_decide_false by (intros Hne; by apply Hne).
    unfold db_update, bind. cbn [gifts with_ticks]. rewrite Hm.
    destruct (update_allowed _ _ _ _); reflexivity.
Qed.

Lemma activate_gift_clean clock sub code uid w id g r w' :
  gift_dal.get_gift_by_code code false w = (Ok (Some (id, g)), w) ->
  gifts w = committed w ->
  GiftService.activate_gift clock sub code uid w = (r, w') ->
  activation_outcome id g w w' r.
Proof.
  intros Hfind Hclean.
  destruct (get_gift_by_code_Some _ _ _ _ _ Hfind) as (_ & Hm & Hc & _).
  unfold GiftService.activate_gift, try_except.
  destruct (decide (status g = ready)) as [Hst|Hst]; last first.
  { mstep (validate_status_rejected clock code uid w id g Hfind Hst).
    unfold ret. intros H. inversion H; subst.
    eexists _, _, _. split; [reflexivity|]. split.
    - intros Ha. by rewrite Ha.
    - cbn. auto. }
  assert (Hna : status g = activated -> False) by (rewrite Hst; discriminate).
  destruct (is_past (expires_at g) (clock (ticks w))) eqn:Hpast.
  { mstep (validate_expired clock code uid w id g Hfind Hst Hpast).
    unfold ret. intros H. inversion H; subst.
    eexists _, _, _. split; [reflexivity|]. split; [by intros ?|].
    cbn. split; [done|]. split; [done|]. right. rewrite Hclean.
    split_and!; auto.
    intros He. assert (Hin : id ∈ row_locks w ∪ ({[id]} : gset Z))
      by (apply elem_of_union_r; by apply elem_of_singleton).
    rewrite He in Hin. by apply not_elem_of_empty in Hin. }
  mstep (validate_live clock code uid w id g Hfind Hst Hpast).
  destruct (decide (eligible g uid)) as [Hel|Hel]; last first.
  { unfold ret. intros H. inversion H; subst.
    eexists _, _, _. split; [reflexivity|]. split; [by intros ?|].
    cbn. auto. }
  unfold bind at 1.
  rewrite (dal_activate_gift_ready clock id uid _ g); [|exact Hm|done..].
  cbn [ticks users with_ticks locked]. cbn zeta.
  destruct (is_past (expires_at g) (clock (S (ticks w)))).
  { unfold rollback, bind, ret. intros H. inversion H; subst.
    eexists _, _, _. split; [reflexivity|]. split; [by intros ?|].
    cbn. auto. }
  destruct (update_allowed _ _ _ _); last first.
  { unfold rollback, bind, ret. intros H. inversion H; subst.
    eexists _, _, _. split; [reflexivity|]. split; [by intros ?|].
    cbn. auto. }
  unfold get_tariff_by_id at 1. unfold bind at 1.
  cbn [tariffs with_gifts with_ticks locked].
  destruct (tariffs w !! tariff_id g).
  2:{ unfold rollback, bind, ret. intros H. inversion H; subst.
      eexists _, _, _. split; [reflexivity|]. split; [by intros ?|].
      cbn. auto. }
  unfold GiftService.call_activate_subscription. unfold bind at 1.
  destruct (sub _ _ _).
  - unfold commit, bind, ret. intros H. inversion H; subst.
    eexists _, _, _. split; [reflexivity|]. split; [by intros ?|].
    cbn. split; [done|].
    exists (activated_record uid (clock (S (ticks w))) (users w) g).
    rewrite <- Hclean. split_and!; try reflexivity.
    unfold activated_record.
    destruct (recipient_type g); [|reflexivity].
    destruct (users w !! uid) as [u|]; [destruct (truthy_str _)|];
      reflexivity.
  - unfold rollback, bind, ret. intros H. inversion H; subst.
    eexists _, _, _. split; [reflexivity|]. split; [by intros ?|].
    cbn. auto.
  - unfold rollback, bind, ret. intros H. inversion H; subst.
    eexists _, _, _. split; [reflexivity|]. split; [by intros ?|].
    cbn. auto.
Qed.

Lemma sole_holder_found m code id g w :
  gifts w = m -> sole_holder m code id g ->
  gift_dal.get_gift_by_code code false w = (Ok (Some (id, g)), w).
Proof.
  intros <- (Hm & Hc & Hu).
  unfold gift_dal.get_gift_by_code, bind, select_gifts. cbn.
  by rewrite (select_one_inv _ _ id g Hm Hc Hu).
Qed.

Lemma sole_holder_insert m code id g g' :
  sole_holder m code id g -> gift_code g' = code ->
  sole_holder (<[id := g']> m) code id g'.
Proof.
  intros (Hm & Hc & Hu) Hc'. split_and!; auto.
  - apply lookup_insert_eq.
  - intros j h Hj Hh. destruct (decide (j = id)) as [|Hne]; [done|].
    rewrite lookup_insert_ne in Hj by done. eauto.
Qed.

Lemma uncommitted_clean w : gifts w = committed w -> uncommitted w = ∅.
Proof.
  intros Heq. unfold uncommitted. apply map_empty. intros i.
  apply map_lookup_filter_None. right. intros x Hi. cbn.
  rewrite <- Heq. intros Hne. by apply Hne.
Qed.

Lemma uncommitted_one w id g g' :
  committed w !! id = Some g -> g' ≠ g ->
  gifts w = <[id := g']> (committed w) ->
  uncommitted w = {[id := g']}.
Proof.
  intros Hc Hne Hg. unfold uncommitted. rewrite Hg.
  apply map_eq. intros j. destruct (decide (j = id)) as [->|Hj].
  - rewrite lookup_singleton_eq. apply map_lookup_filter_Some.
    rewrite lookup_insert_eq. split; [done|]. cbn. congruence.
  - rewrite lookup_singleton_ne by done. apply map_lookup_filter_None.
    right. intros x. rewrite lookup_insert_ne by done. intros Hx. cbn.
    intros Hn. by apply Hn.
Qed.

Lemma wins_insert_same l i c c' :
  l !! i = Some c -> is_win c' = is_win c -> wins (<[i := c']> l) = wins l.
Proof.
  intros Hi Hw. unfold wins.
  rewrite insert_take_drop by (by eapply lookup_lt_Some).
  rewrite <- (take_drop_middle l i c Hi) at 3.
  rewrite !filter_app, !filter_cons, !length_app, Hw.
  by destruct (decide _).
Qed.

Lemma wins_insert_win l i c c' :
  l !! i = Some c -> is_win c = false -> is_win c' = true ->
  wins (<[i := c']> l) = S (wins l).
Proof.
  intros Hi Hc Hw. unfold wins.
  rewrite insert_take_drop by (by eapply lookup_lt_Some).
  rewrite <- (take_drop_middle l i c Hi) at 3.
  rewrite !filter_app, !filter_cons, !length_app, Hc, Hw.
  rewrite decide_True by done. rewrite decide_False by done.
  cbn. lia.
Qed.

Section Redemption.

Variable clock : nat -> Z.
Variable sub : World -> Z -> Z -> SubscriptionOutcome.
Variable code : string.
Variable id : Z.

Lemma settled_clean g uid r w :
  gifts w = committed w -> settled code id g (Returned uid r w).
Proof. intros H. left. by apply uncommitted_clean. Qed.

Lemma settled_other g g' c :
  ¬ holds_row c -> settled code id g c -> settled code id g' c.
Proof.
  destruct c as [|u r w|]; cbn; auto.
  intros Hn [He|(Hl & _)]; [by left|contradiction].
Qed.

Lemma Forall_insert_settled g l i c :
  Forall (settled code id g) l -> settled code id g c ->
  Forall (settled code id g) (<[i := c]> l).
Proof.
  intros Hl Hc. destruct (decide (i < length l)%nat) as [Hi|Hi].
  - by apply Forall_insert.
  - by rewrite list_insert_ge by lia.
Qed.

Lemma redemption_inv_step s s' :
  redemption_inv code id s -> step clock sub code s s' -> redemption_inv code id s'.
Proof.
  intros (g & Hsole & Hzero & Hone & Hset) Hstep.
  destruct Hstep as [s i uid r w' Hi Hfree Hrun|s i uid r w Hi|s i uid r w Hi].
  - pose proof (sole_holder_found (store s) code id g (open_session s)
                  eq_refl Hsole) as Hfind.
    destruct (activate_gift_clean clock sub code uid (open_session s) id g
                _ _ Hfind eq_refl Hrun)
      as (b & m & d & Hr & Hact & Hb).
    inversion Hr; subst r. clear Hr.
    assert (Hothers : ∀ g', Forall (settled code id g') (callers s)).
    { intros g'. rewrite Forall_forall in Hfree, Hset |- *.
      intros c Hc. apply (settled_other g); auto. }
    destruct b.
    + destruct Hb as (Hready & g' & Hs' & Hc' & Hcom & Hg' & Hlock).
      cbn in Hcom.
      assert (Hw0 : wins (callers s) = 0%nat)
        by (apply Hzero; rewrite Hready; discriminate).
      exists g'. cbn [store callers]. rewrite Hcom. split_and!.
      * apply (sole_holder_insert _ _ _ g); [done|].
        destruct Hsole as (_ & <- & _). done.
      * intros Hn. by destruct Hn.
      * rewrite (wins_insert_win _ _ _ _ Hi); [lia|done|done].
      * apply Forall_insert_settled; [apply Hothers|].
        by apply settled_clean.
    + destruct Hb as (-> & Hcom & Hg').
      cbn in Hcom.
      assert (Hwin : wins (<[i := Returned uid (false, m, None) w']>
                             (callers s)) = wins (callers s))
        by (by apply (wins_insert_same _ _ (Idle uid))).
      exists g. cbn [store callers]. rewrite Hcom, Hwin. split_and!; auto.
      apply Forall_insert_settled; [done|].
        destruct Hg' as [Hg'|(Hready & Hg' & Hlock)].
        -- apply settled_clean. cbn in Hg'. congruence.
        -- right. split; [done|]. split; [rewrite Hready; discriminate|].
           exists (set_status expired g). split_and!.
           ++ destruct Hsole as (Hm & _).
              apply (uncommitted_one _ _ g); [by rewrite Hcom| |by rewrite Hcom].
              intros Heq. apply (f_equal status) in Heq.
              rewrite Hready in Heq. discriminate.
           ++ by destruct Hsole as (_ & Hc & _).
           ++ discriminate.
  - rewrite Forall_forall in Hset.
    assert (Hi' : Returned uid r w ∈ callers s)
      by (eapply list_elem_of_lookup_2; eauto).
    pose proof (Hset _ Hi') as Hsw. cbn in Hsw.
    assert (Hwin : wins (<[i := Done uid r]> (callers s)) = wins (callers s))
      by (by apply (wins_insert_same _ _ (Returned uid r w))).
    destruct Hsw as [He|(Hl & Hna & ge & He & Hce & Hse)].
    + exists g. cbn [store callers]. rewrite He, (left_id_L ∅ (∪)), Hwin.
      split_and!; auto.
      apply Forall_insert_settled; [by apply Forall_forall|done].
    + exists ge. cbn [store callers].
      rewrite He, <- insert_union_singleton_l, Hwin.
      split_and!; auto.
      * by apply (sole_holder_insert _ _ _ g).
      * apply Forall_insert_settled; [|done].
        apply Forall_forall. intros c Hc. specialize (Hset c Hc).
        destruct c as [|u' r' w0|]; cbn in *; auto.
        destruct Hset as [|(? & ? & ?)]; [by left|right; auto].
  - assert (Hwin : wins (<[i := Done uid r]> (callers s)) = wins (callers s))
      by (by apply (wins_insert_same _ _ (Returned uid r w))).
    exists g. cbn [store callers]. rewrite Hwin. split_and!; auto.
    by apply Forall_insert_settled.
Qed.

Lemma redemption_inv_initial m us ts uids g0 :
  sole_holder m code id g0 -> redemption_inv code id (initial m us ts uids).
Proof.
  intros Hsole. exists g0. cbn [store callers initial].
  assert (Hw : wins (Idle <$> uids) = 0%nat).
  { unfold wins. induction uids as [|u l IH]; [done|].
    rewrite fmap_cons, filter_cons. cbn. by rewrite decide_False. }
  rewrite Hw. split_and!; auto.
  apply Forall_fmap, Forall_true. by intros u.
Qed.

Lemma redemption_inv_reachable m us ts uids g0 s :
  sole_holder m code id g0 ->
  rtc (step clock sub code) (initial m us ts uids) s ->
  redemption_inv code id s.
Proof.
  intros Hsole Hrtc. revert s Hrtc. apply rtc_ind_r.
  - by eapply redemption_inv_initial.
  - intros y z _ Hstep IH. by eapply redemption_inv_step.
Qed.

Lemma activate_gift_returns uid w :
  ∃ r w', GiftService.activate_gift clock sub code uid w = (Ok r, w').
Proof.
  unfold GiftService.activate_gift, try_except.
  match goal with |- context [match ?b w with _ => _ end] =>
    destruct (b w) as [[r|e] w1] end; by eexists _, _.
Qed.

(** A run that is not over can go on: a returned call can be closed,
    and when none is open an idle caller can be served. *)
Lemma step_progress s :
  ¬ Forall is_done (callers s) -> ∃ s', step clock sub code s s'.
Proof.
  intros Hnd.
  destruct (decide (Forall (fun c => ¬ holds_row c) (callers s)))
    as [Hfree|Hheld].
  - apply not_Forall_Exists in Hnd; [|intros c; apply _].
    apply Exists_exists in Hnd as (c & Hc & Hn).
    apply list_elem_of_lookup in Hc as [i Hi].
    destruct c as [uid|uid r w|uid r]; [| |by destruct Hn].
    + destruct (activate_gift_returns uid (open_session s)) as (r & w' & Hr).
      eexists. by eapply step_call.
    + eexists. by eapply step_commit.
  - apply not_Forall_Exists in Hheld; [|intros c; apply _].
    apply Exists_exists in Hheld as (c & Hc & Hh).
    apply list_elem_of_lookup in Hc as [i Hi].
    destruct c as [uid|uid r w|uid r]; cbn in Hh;
      [exfalso; apply Hh; intros []| |exfalso; apply Hh; intros []].
    eexists. by eapply step_commit.
Qed.

Lemma uid_of_insert (l : list Caller) (i : nat) c c' :
  l !! i = Some c -> uid_of c' = uid_of c ->
  uid_of <$> <[i := c']> l = uid_of <$> l.
Proof.
  intros Hi Hu. rewrite list_fmap_insert, Hu.
  apply list_insert_id. by rewrite list_lookup_fmap, Hi.
Qed.

Lemma Forall_insert_any {A} (P : A -> Prop) (l : list A) (i : nat) x :
  Forall P l -> P x -> Forall P (<[i := x]> l).
Proof.
  intros Hl Hx. destruct (decide (i < length l)%nat) as [Hi|Hi].
  - by apply Forall_insert.
  - by rewrite list_insert_ge by lia.
Qed.

Lemma sole_holder_agree m g g' :
  sole_holder m code id g -> sole_holder m code id g' -> g = g'.
Proof. intros (H & _) (H' & _). congruence. Qed.

Lemma favourable_inv_step g0 us ts uids s s' :
  favourable clock sub g0 us ts uids ->
  redemption_inv code id s ->
  favourable_inv code id g0 us ts uids s ->
  step clock sub code s s' ->
  favourable_inv code id g0 us ts uids s'.
Proof.
  intros Hfav (g & Hsole & Hzero & Hone & Hset) (Hus & Hts & Huids & Hcase)
    Hstep.
  destruct Hstep as [s i uid r w' Hi Hfree Hrun|s i uid r w Hi|s i uid r w Hi].
  - pose proof (sole_holder_found (store s) code id g (open_session s)
                  eq_refl Hsole) as Hfind.
    assert (Huid : uid ∈ uids).
    { rewrite <- Huids. apply list_elem_of_fmap. exists (Idle uid).
      split; [done|]. by eapply list_elem_of_lookup_2. }
    split_and!; cbn [sys_users sys_tariffs callers store]; auto.
    { by rewrite (uid_of_insert _ _ (Idle uid)). }
    destruct Hcase as [(Hsole0 & Hnone)|(g1 & Hsole1 & Hact & Hw1 & Hserved)].
    + assert (g = g0) as -> by (by eapply sole_holder_agree).
      destruct (fv_eligible _ _ _ _ _ _ Hfav uid Huid) as [Hel Hkn].
      assert (Hrd : redeemable clock code uid (open_session s) id g0).
      { split.
        - exact Hfind.
        - apply (fv_ready _ _ _ _ _ _ Hfav).
        - apply (fv_live _ _ _ _ _ _ Hfav).
        - apply (fv_live _ _ _ _ _ _ Hfav).
        - exact Hel.
        - cbn. by rewrite Hus.
        - cbn. rewrite Hts. apply (fv_tariff _ _ _ _ _ _ Hfav). }
      rewrite (activate_gift_reaches_call clock sub code uid _ id g0 Hrd)
        in Hrun.
      destruct (fv_sub _ _ _ _ _ _ Hfav
                  (at_external_call clock id uid g0 (open_session s)) uid
                  (tariff_id g0)) as [sr Hsr].
      rewrite Hsr in Hrun. inversion Hrun; subst r w'. clear Hrun.
      right. cbn [committed gifts at_external_call open_session].
      eexists. split_and!.
      * apply (sole_holder_insert _ _ _ g0); [done|].
        transitivity (gift_code g0); [|by destruct Hsole0 as (_ & ? & _)].
        unfold activated_record.
        destruct (recipient_type g0); [|reflexivity].
        destruct (_ !! uid) as [u|]; [destruct (truthy_str _)|];
          reflexivity.
      * reflexivity.
      * rewrite (wins_insert_win _ _ (Idle uid)); auto.
        rewrite Hzero; [done|].
        rewrite (fv_ready _ _ _ _ _ _ Hfav). discriminate.
      * apply Forall_insert_any; [|by left].
        eapply Forall_impl; [exact Hnone|].
        intros c Hc. unfold served. by rewrite Hc.
    + assert (g = g1) as -> by (by eapply sole_holder_agree).
      destruct (activate_gift_clean clock sub code uid (open_session s) id g1
                  _ _ Hfind eq_refl Hrun)
        as (b & m & d & Hr & Hconf & Hb).
      destruct (Hconf Hact) as [-> ->]. destruct Hb as (-> & Hcom & _).
      inversion Hr; subst r. right. exists g1. rewrite Hcom.
      split_and!; auto.
      * by rewrite (wins_insert_same _ _ (Idle uid)).
      * apply Forall_insert_any; [done|]. by right.
  - split_and!; cbn [sys_users sys_tariffs callers store]; auto.
    { by rewrite (uid_of_insert _ _ (Returned uid r w)). }
    assert (Hin : Returned uid r w ∈ callers s)
      by (by eapply list_elem_of_lookup_2).
    destruct Hcase as [(Hsole0 & Hnone)|(g1 & Hsole1 & Hact & Hw1 & Hserved)].
    { rewrite Forall_forall in Hnone. by specialize (Hnone _ Hin). }
    assert (g = g1) as -> by (by eapply sole_holder_agree).
    rewrite Forall_forall in Hset. pose proof (Hset _ Hin) as Hsw.
    destruct Hsw as [He|(_ & Hna & _)]; [|contradiction].
    right. exists g1. rewrite He, (left_id_L ∅ (∪)).
    split_and!; auto.
    + by rewrite (wins_insert_same _ _ (Returned uid r w)).
    + apply Forall_insert_any; [done|].
      rewrite Forall_forall in Hserved. exact (Hserved _ Hin).
  - split_and!; cbn [sys_users sys_tariffs callers store]; auto.
    { by rewrite (uid_of_insert _ _ (Returned uid r w)). }
    assert (Hin : Returned uid r w ∈ callers s)
      by (by eapply list_elem_of_lookup_2).
    destruct Hcase as [(Hsole0 & Hnone)|(g1 & Hsole1 & Hact & Hw1 & Hserved)].
    { rewrite Forall_forall in Hnone. by specialize (Hnone _ Hin). }
    right. exists g1. split_and!; auto.
    + by rewrite (wins_insert_same _ _ (Returned uid r w)).
    + apply Forall_insert_any; [done|].
      rewrite Forall_forall in Hserved. exact (Hserved _ Hin).
Qed.

Lemma favourable_inv_reachable g0 m us ts uids s :
  sole_holder m code id g0 ->
  favourable clock sub g0 us ts uids ->
  rtc (step clock sub code) (initial m us ts uids) s ->
  favourable_inv code id g0 us ts uids s.
Proof.
  intros Hsole Hfav Hrtc. revert s Hrtc. apply rtc_ind_r.
  - split_and!; cbn; auto.
    + rewrite <- list_fmap_compose. by rewrite list_fmap_id.
    + left. split; [done|]. apply Forall_fmap, Forall_true. by intros u.
  - intros y z Hy Hstep IH.
    eapply favourable_inv_step; eauto.
    by eapply redemption_inv_reachable.
Qed.

End Redemption.

(** C1, amended. In every run of concurrent [activate_gift] calls on the
    code of a ready gift, at most one call reports success; once one
    has, every call served afterwards gets the error "This gift has
    already been activated"; a run that is not over can always go on;
    and when the gift does not lapse, every caller is eligible, the
    tariff exists and the subscription capability delivers, a finished
    run of at least one call has exactly one success and every other
    call has got that error. *)
Theorem redemption_exclusive clock sub code id m us ts uids g0 s :
  sole_holder m code id g0 ->
  status g0 = ready ->
  rtc (step clock sub code) (initial m us ts uids) s ->
  (wins (callers s) ≤ 1)%nat
  ∧ (wins (callers s) = 1%nat ->
     ∀ s' i uid r w,
       step clock sub code s s' ->
       callers s !! i = Some (Idle uid) ->
       callers s' !! i = Some (Returned uid r w) ->
       r = conflict)
  ∧ (¬ Forall is_done (callers s) -> ∃ s', step clock sub code s s')
  ∧ (favourable clock sub g0 us ts uids -> uids ≠ [] ->
     Forall is_done (callers s) ->
     wins (callers s) = 1%nat ∧ Forall served (callers s)).
Proof.
  intros Hsole Hready Hrtc.
  pose proof (redemption_inv_reachable clock sub code id m us ts uids g0 s
                Hsole Hrtc) as (g & Hsg & Hzero & Hone & Hset).
  split_and!.
  - exact Hone.
  - intros Hw s' i uid r w Hstep Hi Hi'.
    assert (Hact : status g = activated).
    { destruct (decide (status g = activated)) as [|Hn]; [done|].
      rewrite (Hzero Hn) in Hw. discriminate. }
    destruct Hstep as [s i0 uid0 r0 w0 Hi0 Hfree Hrun|s i0 uid0 r0 w0 Hi0
                      |s i0 uid0 r0 w0 Hi0]; cbn [callers] in Hi'.
    + destruct (decide (i0 = i)) as [->|Hne].
      * rewrite list_lookup_insert_eq in Hi' by (by eapply lookup_lt_Some).
        inversion Hi'; subst.
        pose proof (sole_holder_found (store s) code id g (open_session s)
                      eq_refl Hsg) as Hfind.
        destruct (activate_gift_clean clock sub code uid (open_session s) id
                    g _ _ Hfind eq_refl Hrun)
          as (b & m' & d & Hr & Hconf & Hb).
        destruct (Hconf Hact) as [-> ->]. destruct Hb as (-> & _).
        by inversion Hr.
      * rewrite list_lookup_insert_ne in Hi' by done. congruence.
    + destruct (decide (i0 = i)) as [->|Hne].
      * rewrite list_lookup_insert_eq in Hi' by (by eapply lookup_lt_Some).
        discriminate.
      * rewrite list_lookup_insert_ne in Hi' by done. congruence.
    + destruct (decide (i0 = i)) as [->|Hne].
      * rewrite list_lookup_insert_eq in Hi' by (by eapply lookup_lt_Some).
        discriminate.
      * rewrite list_lookup_insert_ne in Hi' by done. congruence.
  - apply step_progress.
  - intros Hfav Hne Hdone.
    destruct (favourable_inv_reachable clock sub code id g0 m us ts uids s
                Hsole Hfav Hrtc)
      as (_ & _ & Huids & [(_ & Hnone)|(g1 & _ & _ & Hw & Hserved)]);
      [|by split].
    exfalso. destruct (callers s) as [|c l]; [by apply Hne|].
    apply Forall_cons in Hnone as [Hc _]. apply Forall_cons in Hdone as [Hd _].
    by destruct c.
Qed.

Lemma serve_step clock sub code i s :
  is_idle (callers s !! i) ->
  Forall (fun c => ¬ holds_row c) (callers s) ->
  step clock sub code s (serve clock sub code i s).
Proof.
  intros Hi Hfree. unfold serve.
  destruct (callers s !! i) as [[uid| |]|] eqn:Hc; try by destruct Hi.
  destruct (activate_gift_returns clock sub code uid (open_session s))
    as (r & w' & Hr).
  rewrite Hr. by eapply step_call.
Qed.

Lemma close_commit_step clock sub code i s :
  is_returned (callers s !! i) ->
  step clock sub code s (close_commit i s).
Proof.
  intros Hi. unfold close_commit.
  destruct (callers s !! i) as [[|uid r w|]|] eqn:Hc; try by destruct Hi.
  by eapply step_commit.
Qed.

(** C1, as stated, fails: alice herself sends two concurrent requests
    for her own random gift. Both are served, one after the other, and
    both are turned down as self-redemption: the run is over with no
    success at all, and neither error is a conflict. *)
Lemma two_donor_calls_no_success :
  let g := sample_gift ready (Some 99999) in
  let s0 := initial {[10 := g]} sample_users sample_tariffs [1; 1] in
  let served_at i := serve at_9000 sub_works "GIFTCODE00000001" i in
  let s := close_commit 1 (served_at 1%nat (close_commit 0 (served_at 0%nat s0))) in
  rtc (step at_9000 sub_works "GIFTCODE00000001") s0 s
  ∧ Forall is_done (callers s)
  ∧ wins (callers s) = 0%nat
  ∧ result_of <$> callers s
    = [Some (false, You_cannot_activate_own_gift, None);
       Some (false, You_cannot_activate_own_gift, None)].
Proof.
  intros g s0 served_at s. split_and!.
  - eapply rtc_l.
    { apply (serve_step _ _ _ 0%nat); [exact I|].
      apply (bool_decide_unpack _). vm_compute. exact I. }
    eapply rtc_l.
    { apply (close_commit_step _ _ _ 0%nat). vm_compute. exact I. }
    eapply rtc_l.
    { apply (serve_step _ _ _ 1%nat).
      - vm_compute. exact I.
      - apply (bool_decide_unpack _). vm_compute. exact I. }
    eapply rtc_l.
    { apply (close_commit_step _ _ _ 1%nat). vm_compute. exact I. }
    apply rtc_refl.
  - apply (bool_decide_unpack _). vm_compute. exact I.
  - vm_compute. reflexivity.
  - vm_compute. reflexivity.
Qed.

Lemma sample_sole_holder g :
  gift_code g = "GIFTCODE00000001"%string ->
  sole_holder {[10 := g]} "GIFTCODE00000001" 10 g.
Proof.
  intros Hc. split_and!; [apply lookup_singleton_eq|done|].
  intros j g' Hj _. by apply lookup_singleton_Some in Hj as [<- _].
Qed.

Lemma sample_favourable :
  favourable at_9000 sub_works (sample_gift ready (Some 99999)) sample_users
    sample_tariffs [2; 3].
Proof.
  split.
  - reflexivity.
  - intros n. reflexivity.
  - intros u Hu. apply elem_of_cons in Hu as [->|Hu];
      [|apply list_elem_of_singleton in Hu as ->].
    + split; [vm_compute; discriminate|]. intros _. vm_compute. eauto.
    + split; [vm_compute; discriminate|]. intros _. vm_compute. eauto.
  - vm_compute. eauto.
  - intros w u t. by eexists.
Qed.

Lemma redemption_exclusive_witness :
  let g := sample_gift ready (Some 99999) in
  let s0 := initial {[10 := g]} sample_users sample_tariffs [2; 3] in
  let served_at i := serve at_9000 sub_works "GIFTCODE00000001" i in
  let s := close_commit 0 (close_commit 1 (served_at 0%nat (served_at 1%nat s0))) in
  (wins (callers s) ≤ 1)%nat
  ∧ wins (callers s) = 1%nat
  ∧ Forall served (callers s)
  ∧ result_of <$> callers s
    = [Some conflict;
       Some (true, Gift_activated_successfully,
             Some (ActivatedData 10 (Some 77) (Some 12000)
                     (Some "https://sub/77"%string) (Some "alice"%string)
                     None))].
Proof.
  intros g s0 served_at s.
  assert (Hrun : rtc (step at_9000 sub_works "GIFTCODE00000001") s0 s).
  { eapply rtc_l.
    { apply (serve_step _ _ _ 1%nat); [exact I|].
      apply (bool_decide_unpack _). vm_compute. exact I. }
    eapply rtc_l.
    { apply (serve_step _ _ _ 0%nat).
      - vm_compute. exact I.
      - apply (bool_decide_unpack _). vm_compute. exact I. }
    eapply rtc_l.
    { apply (close_commit_step _ _ _ 1%nat). vm_compute. exact I. }
    eapply rtc_l.
    { apply (close_commit_step _ _ _ 0%nat). vm_compute. exact I. }
    apply rtc_refl. }
  destruct (redemption_exclusive at_9000 sub_works "GIFTCODE00000001" 10
              {[10 := g]} sample_users sample_tariffs [2; 3] g s
              (sample_sole_holder g eq_refl) eq_refl Hrun)
    as (Hone & _ & _ & Hfav).
  destruct (Hfav sample_favourable) as [Hw Hs].
  - discriminate.
  - apply (bool_decide_unpack _). vm_compute. exact I.
  - split_and!; [exact Hone|exact Hw|exact Hs|vm_compute; reflexivity].
Defined.

(** ** The theorems at the sample data *)

Lemma process_gift_payment_idempotent_witness :
  let g := sample_gift pending_payment None in
  let w := sample_world g in
  let first := GiftService.process_gift_payment at_9000 55 w in
  first.1 = Ok (true, Gift_payment_processed,
                Some (PaidData 10 "GIFTCODE00000001" ready (Some 9000)
                        (Some (9000 + 90 * DAY))))
  ∧ GiftService.process_gift_payment at_9000 55 first.2
    = (Ok (false, Gift_status_is ready, None), first.2)
  ∧ ∃ g0 g',
      gifts (spent_world pending_payment 300) !! 1 = Some g0
      ∧ payment_id g0 = None
      ∧ (gift_dal.mark_gift_as_paid at_9000 1 55
           (spent_world pending_payment 300)).1 = Ok (Some g')
      ∧ payment_id g' = Some 55
      ∧ status g' = ready.
Proof.
  intros g w first.
  destruct (process_gift_payment_idempotent at_9000 55 w 10 g)
    as (Hp & _ & Hpaid & _).
  - vm_compute. reflexivity.
  - destruct (Hp eq_refl) as (g' & H1 & _ & _ & _ & _ & _ & _ & _ & H2).
    split_and!; [exact H1|exact H2|].
    destruct (Hpaid (spent_world pending_payment 300) 1
                (mkGift "GIFTCODE00000002" 1 (Some "alice") random None None
                   7 30 None 300 "RUB" pending_payment 1000 None None None
                   None "key-0" None None) 55)
      as (g1 & Hres & _ & Hpay & _ & _ & Hready & _).
    + vm_compute. reflexivity.
    + reflexivity.
    + intros j h Hj Hpj. unfold spent_world in Hj. cbn [gifts] in Hj.
      apply lookup_singleton_Some in Hj as [<- <-]. reflexivity.
    + eexists _, g1. split_and!; [vm_compute; reflexivity|reflexivity|
                                   exact Hres|exact Hpay|exact Hready].
Defined.

Lemma activate_gift_lazy_expiry_witness :
  let g := sample_gift ready (Some 5000) in
  let w := sample_world g in
  ∃ w', GiftService.activate_gift at_9000 sub_works "GIFTCODE00000001" 2 w
        = (Ok (false, This_gift_has_expired, None), w')
        ∧ gifts w' = <[10 := set_status expired g]> (gifts w)
        ∧ status (set_status expired g) = expired
        ∧ 10 ∈ row_locks w'
        ∧ trace w' = trace w ++ [EvLockRow 10]
        ∧ committed w' = committed w.
Proof.
  intros g w.
  apply (activate_gift_lazy_expiry at_9000 sub_works "GIFTCODE00000001" 2 w
           10 g 5000).
  - vm_compute. reflexivity.
  - reflexivity.
  - reflexivity.
  - vm_compute. reflexivity.
Defined.

Lemma lifecycle_moves_along_edges_witness :
  let g := sample_gift activated (Some 99999) in
  let w := sample_world g in
  row_step (gifts w) (gifts (gift_dal.expire_old_gifts at_9000 w).2) 10 g
  ∧ gift_dal.mark_gift_as_paid at_9000 10 55 w = (Ok (Some g), w)
  ∧ gift_dal.activate_gift at_9000 10 2 w
    = (Ok (Some g, Some (Gift_not_ready activated)), w)
  ∧ (∃ e, gift_dal.cancel_gift at_9000 10 1 w = (Ok (Some g, Some e), w))
  ∧ row_locks (gift_dal.cancel_gift at_9000 10 1 w).2 = row_locks w
  ∧ gift_dal.update_gift_status 10 ready [] w
    = (Ok (Some (set_status ready g)),
       with_gifts (<[10 := set_status ready g]> (gifts w)) w).
Proof.
  intros g w.
  destruct (lifecycle_moves_along_edges at_9000 w 10 g)
    as (_ & _ & _ & _ & Hsweep & Hterm & _ & Hlock & Hupdate).
  - vm_compute. reflexivity.
  - destruct (Hterm I) as (Hpaid & Hact & Hcancel & _ & _).
    split_and!; [exact Hsweep|apply Hpaid|apply Hact|apply Hcancel|
                 apply Hlock|apply Hupdate].
Defined.

(** ** Code generation *)

Lemma string_of_list_ascii_length (l : list ascii) :
  String.length (string_of_list_ascii l) = length l.
Proof. induction l as [|c l IH]; cbn; congruence. Qed.

Lemma nth_mod_elem {A} (l : list A) (d : A) (k : nat) :
  l ≠ [] -> nth (k mod length l)%nat l d ∈ l.
Proof.
  intros Hl. apply list_elem_of_In, nth_In, Nat.mod_upper_bound.
  by destruct l.
Qed.

Lemma choices_spec rng n w cs w' :
  gift_dal.choices rng n w = (Ok cs, w') ->
  length cs = n
  ∧ Forall (fun c => c ∈ list_ascii_of_string GIFT_CODE_ALPHABET) cs.
Proof.
  revert w cs w'. induction n as [|n IH]; intros w cs w'.
  - cbn. unfold ret. intros H. inversion H. auto.
  - cbn [gift_dal.choices]. unfold bind at 1, gift_dal.secrets_choice.
    pose proof (nth_mod_elem (list_ascii_of_string GIFT_CODE_ALPHABET)
                  "A"%char (rng (draws w))) as Hc.
    set (c := nth _ _ _) in *.
    destruct (gift_dal.choices rng n (with_draws (S (draws w)) w))
      as [[cs0|e] w0] eqn:Hn.
    + rewrite (bind_ok _ _ _ _ _ Hn). unfold ret. intros H.
      assert (cs = c :: cs0) as -> by congruence.
      destruct (IH _ _ _ Hn) as [Hl Hf].
      split; [cbn [length]; by f_equal|].
      constructor; [|done]. apply Hc. discriminate.
    + rewrite (bind_raise _ _ _ _ _ Hn). intros H. inversion H.
Qed.

Lemma candidate_spec rng w code w' :
  gift_dal._generate_gift_code_candidate rng w = (Ok code, w') ->
  well_formed_code code ∧ w' = with_draws (GIFT_CODE_LENGTH + draws w) w.
Proof.
  unfold gift_dal._generate_gift_code_candidate.
  destruct (choices_draws rng GIFT_CODE_LENGTH w) as [cs Hcs].
  rewrite (bind_ok _ _ _ _ _ Hcs). unfold ret. intros H. inversion H.
  destruct (choices_spec _ _ _ _ _ Hcs) as [Hl Hf].
  split; [|done]. split.
  - by rewrite string_of_list_ascii_length.
  - by rewrite list_ascii_of_string_of_list_ascii.
Qed.

Lemma _gift_code_exists_false code w w' :
  gift_dal._gift_code_exists code w = (Ok false, w') ->
  w' = w ∧ ∀ id g, gifts w !! id = Some g -> gift_code g ≠ code.
Proof.
  unfold gift_dal._gift_code_exists, bind, select_gifts.
  destruct (scalar_one_or_none _ _) as [[[z|]|e] w1] eqn:Hs;
    unfold ret; intros H; [| |by inversion H].
  - assert (Hb : bool_decide (Some z ≠ None) = false) by congruence.
    by rewrite bool_decide_true in Hb.
  - assert (w1 = w') as <- by congruence.
    apply scalar_one_or_none_None in Hs as [Hrows ->]. split; [done|].
    apply fmap_nil_inv in Hrows. apply map_to_list_empty_iff in Hrows.
    intros id g Hm Hc.
    assert (Hin : filter (fun r : Z * Gift => gift_code r.2 = code) (gifts w)
                    !! id = Some g)
      by (by apply map_lookup_filter_Some).
    rewrite Hrows in Hin. by rewrite lookup_empty in Hin.
Qed.

Lemma generate_unique_gift_code_loop_spec rng n w r w' :
  gift_dal.generate_unique_gift_code_loop rng n w = (r, w') ->
  w' = with_draws (draws w') w
  ∧ match r with
    | Ok code =>
        well_formed_code code
        ∧ (∀ id g, gifts w !! id = Some g -> gift_code g ≠ code)
        ∧ ∃ k, (1 ≤ k ≤ n)%nat
               ∧ draws w' = (draws w + GIFT_CODE_LENGTH * k)%nat
    | Raise e =>
        e = MultipleResultsFound
        ∨ (e = RuntimeError_code_attempts MAX_GIFT_CODE_ATTEMPTS
           ∧ draws w' = (draws w + GIFT_CODE_LENGTH * n)%nat)
    end.
Proof.
  revert w r w'. induction n as [|n IH]; intros w r w'.
  - cbn. unfold raise. intros H.
    assert (w' = w) as -> by congruence.
    assert (r = Raise (RuntimeError_code_attempts MAX_GIFT_CODE_ATTEMPTS))
      as -> by congruence.
    split; [by destruct w|]. right. split; [done|]. lia.
  - cbn [gift_dal.generate_unique_gift_code_loop].
    destruct (gift_dal._generate_gift_code_candidate rng w)
      as [[code|e] w1] eqn:Hcand.
    2:{ exfalso. unfold gift_dal._generate_gift_code_candidate in Hcand.
        destruct (choices_draws rng GIFT_CODE_LENGTH w) as [cs Hcs].
        rewrite (bind_ok _ _ _ _ _ Hcs) in Hcand. inversion Hcand. }
    destruct (candidate_spec _ _ _ _ Hcand) as [Hwf ->].
    rewrite (bind_ok _ _ _ _ _ Hcand).
    set (w1 := with_draws (GIFT_CODE_LENGTH + draws w) w).
    destruct (_gift_code_exists_world code w1) as [[taken|e] Hex].
    + rewrite (bind_ok _ _ _ _ _ Hex). destruct taken; cbn [negb].
      * intros Hrest. destruct (IH _ _ _ Hrest) as [Hw' Hr].
        split; [rewrite Hw'; by destruct w|].
        destruct r as [c|e].
        -- destruct Hr as (Hc & Hfresh & k & Hk & Hd).
           split_and!; [done|exact Hfresh|].
           exists (S k). split; [lia|]. rewrite Hd. cbn. lia.
        -- destruct Hr as [->|[-> Hd]]; [by left|right].
           split; [done|]. rewrite Hd. cbn. lia.
      * unfold ret. intros H. inversion H; subst.
        split; [by destruct w|].
        apply _gift_code_exists_false in Hex as [_ Hfresh].
        split_and!; [done|exact Hfresh|].
        exists 1%nat. split; [lia|]. cbn. lia.
    + rewrite (bind_raise _ _ _ _ _ Hex). intros H. inversion H; subst.
      split; [by destruct w|]. left.
      unfold gift_dal._gift_code_exists, bind, select_gifts in Hex.
      destruct (map_to_list _).*1 as [|x [|y l]]; cbn in Hex;
        unfold ret, raise in Hex; by inversion Hex.
Qed.

(** X1. A code [generate_unique_gift_code] returns has sixteen
    characters, all of the upper-case alphanumeric alphabet, and is the
    code of no gift the session sees; producing it took between one and
    fifty candidates and wrote nothing but the position in the random
    source. *)
Theorem generate_unique_gift_code_fresh rng w code w' :
  gift_dal.generate_unique_gift_code rng w = (Ok code, w') ->
  String.length code = 16%nat
  ∧ Forall (fun c => c ∈ list_ascii_of_string
                           "ABCDEFGHIJKLMNOPQRSTUVWXYZ0123456789")
      (list_ascii_of_string code)
  ∧ (∀ id g, gifts w !! id = Some g -> gift_code g ≠ code)
  ∧ w' = with_draws (draws w') w
  ∧ ∃ k, (1 ≤ k ≤ 50)%nat ∧ draws w' = (draws w + 16 * k)%nat.
Proof.
  intros H.
  destruct (generate_unique_gift_code_loop_spec rng MAX_GIFT_CODE_ATTEMPTS
              w (Ok code) w' H) as (Hw & (Hl & Hf) & Hfresh & Hk).
  split_and!; [exact Hl|exact Hf|exact Hfresh|exact Hw|exact Hk].
Qed.

(** X2. When [generate_unique_gift_code] gives up, it has drawn all
    fifty candidates and raises the [RuntimeError] naming that bound (or
    the lookup itself failed on a duplicated code); in either case the
    session is as before but for the position in the random source. *)
Theorem generate_unique_gift_code_gives_up rng w e w' :
  gift_dal.generate_unique_gift_code rng w = (Raise e, w') ->
  w' = with_draws (draws w') w
  ∧ (e = MultipleResultsFound
     ∨ (e = RuntimeError_code_attempts 50
        ∧ draws w' = (draws w + 16 * 50)%nat)).
Proof.
  intros H.
  exact (generate_unique_gift_code_loop_spec rng MAX_GIFT_CODE_ATTEMPTS
           w (Raise e) w' H).
Qed.

Lemma generate_unique_gift_code_fresh_witness :
  let res := gift_dal.generate_unique_gift_code count_up empty_world in
  res.1 = Ok "ABCDEFGHIJKLMNOP"%string
  ∧ String.length "ABCDEFGHIJKLMNOP" = 16%nat
  ∧ draws res.2 = 16%nat.
Proof.
  destruct (generate_unique_gift_code_fresh count_up empty_world
              "ABCDEFGHIJKLMNOP" (with_draws 16 empty_world))
    as (Hl & _ & _ & _ & _); [vm_compute; reflexivity|].
  split_and!; [vm_compute; reflexivity|exact Hl|vm_compute; reflexivity].
Defined.

Lemma generate_unique_gift_code_gives_up_witness :
  let w := sample_world (sample_gift ready None) in
  gift_dal.generate_unique_gift_code spells_sample_code w
  = (Raise (RuntimeError_code_attempts 50), with_draws 800 w).
Proof.
  intros w.
  assert (H : gift_dal.generate_unique_gift_code spells_sample_code w
              = (Raise (RuntimeError_code_attempts 50), with_draws 800 w))
    by (vm_compute; reflexivity).
  destruct (generate_unique_gift_code_gives_up spells_sample_code w _ _ H)
    as [_ [Hm|[_ _]]]; [discriminate Hm|exact H].
Defined.

(** ** The record [create_gift_record] inserts *)

Lemma insert_allowed_facts id g w :
  insert_allowed id g w = true ->
  gifts w !! id = None
  ∧ (∀ j g', gifts w !! j = Some g' -> gift_code g' ≠ gift_code g)
  ∧ (∀ j g', gifts w !! j = Some g' ->
             idempotency_key g' ≠ idempotency_key g)
  ∧ is_Some (users w !! donor_user_id g)
  ∧ (∀ r, recipient_user_id g = Some r -> is_Some (users w !! r))
  ∧ is_Some (tariffs w !! tariff_id g).
Proof.
  unfold insert_allowed, no_other_row. rewrite !andb_true_iff.
  intros [[[[[[H1 H2] H3] _] H5] H6] H7].
  apply bool_decide_eq_true in H1, H2, H3, H5, H7.
  split_and!; try done.
  - intros j g' Hj Hc. destruct (H2 j g' Hj) as [->|Hne];
      [congruence|by apply Hne].
  - intros j g' Hj Hc. destruct (H3 j g' Hj) as [->|Hne];
      [congruence|by apply Hne].
  - intros r Hr. rewrite Hr in H6. by apply bool_decide_eq_true in H6.
Qed.

(** What a successful [create_gift_record] has done, field by field. *)
Lemma create_gift_record_ok clock rng gd w id g w' :
  gift_dal.create_gift_record clock rng gd w = (Ok (id, g), w') ->
  ∃ donor code d,
    users w !! gd_donor_user_id gd = Some donor
    ∧ (gd_gift_code gd = None -> well_formed_code code)
    ∧ (∀ j g', gifts w !! j = Some g' -> gift_code g' ≠ code)
    ∧ (gd_recipient_type gd = direct ->
       ∃ r, gd_recipient_user_id gd = Some r ∧ r ≠ 0
            ∧ is_Some (users w !! r))
    ∧ g = inserted_record gd donor code (clock (ticks w))
    ∧ id = gift_id_seq w + 1
    ∧ gifts w !! id = None
    ∧ w' = with_gifts (<[id := g]> (gifts w))
             (with_gift_id_seq id (with_ticks (S (ticks w)) (with_draws d w))).
Proof.
  unfold gift_dal.create_gift_record.
  unfold get_user_by_id at 1. unfold bind at 1.
  destruct (users w !! _) as [donor|] eqn:Hdonor; [|intros H; by inversion H].
  unfold get_tariff_by_id at 1. unfold bind at 1.
  destruct (tariffs w !! _) as [tariff|]; [|intros H; by inversion H].
  unfold bind at 1.
  match goal with |- context [match ?m w with _ => _ end] =>
    assert (Hrec : ∃ r, m w = (r, w)
              ∧ (r = Ok tt -> gd_recipient_type gd = direct ->
                 ∃ r, gd_recipient_user_id gd = Some r ∧ r ≠ 0
                      ∧ is_Some (users w !! r)));
      [|destruct Hrec as (r0 & -> & Hrcp)] end.
  { destruct (gd_recipient_type gd);
      [eexists; split; [reflexivity|intros _ [=]]|].
    destruct (gd_recipient_user_id gd) as [r|]; cbn [truthy_id negb];
      [|eexists; split; [reflexivity|intros [=]]].
    destruct (decide (r ≠ 0)) as [Hr|Hr];
      [rewrite (bool_decide_true _ Hr)|rewrite (bool_decide_false _ Hr)];
      cbn [negb]; [|eexists; split; [reflexivity|intros [=]]].
    unfold get_user_by_id, bind. change (default 0 (Some r)) with r.
    destruct (users w !! r) eqn:Hu;
      [|eexists; split; [reflexivity|intros [=]]].
    eexists. split; [reflexivity|]. intros _ _. exists r. eauto. }
  destruct r0 as [[]|e]; [|intros H; by inversion H].
  specialize (Hrcp eq_refl).
  unfold bind at 1.
  match goal with |- context [match ?m w with _ => _ end] =>
    assert (Hcode : ∃ r d, m w = (r, with_draws d w)
                           ∧ ∀ c, r = Ok c -> gd_gift_code gd = None ->
                                  well_formed_code c);
      [|destruct Hcode as (r0 & d & -> & Hwf)] end.
  { destruct (gd_gift_code gd).
    - exists (Ok s), (draws w). unfold ret. split; [by destruct w|done].
    - destruct (gift_dal.generate_unique_gift_code rng w) as [r0 w1] eqn:Hgen.
      destruct (generate_unique_gift_code_loop_spec rng
                  MAX_GIFT_CODE_ATTEMPTS w r0 w1 Hgen) as [Hw1 Hr0].
      exists r0, (draws w1). split; [by rewrite <- Hw1|].
      intros c -> _. by destruct Hr0 as [? _]. }
  destruct r0 as [code|e]; [|intros H; by inversion H].
  specialize (Hwf code eq_refl).
  cbn zeta. mstep_now. unfold db_insert, bind.
  cbn [gifts with_ticks with_draws gift_id_seq with_gift_id_seq].
  destruct (insert_allowed _ _ _) eqn:Hins; [|intros H; by inversion H].
  unfold ret. intros Heq.
  apply insert_allowed_facts in Hins
    as (Hnone & Hcodes & _ & _ & _ & _).
  cbn [gifts with_ticks with_draws gift_code] in Hnone, Hcodes.
  injection Heq as Hid Hg Hw. subst id g w'.
  exists donor, code, d. split_and!; done.
Qed.

(** X3. The row [create_gift_record] returns is the one it inserted:
    it has the next value of the id sequence, both the lookup by id and
    the lookup by code find it afterwards, nothing is committed, and it
    starts its life unpaid - status [pending_payment] unless the caller
    gave one, created at the clock reading, with no payment, no expiry,
    no activation and no cancellation recorded. A code the function
    generated itself is well formed. *)
Theorem create_gift_record_round_trip clock rng gd w id g w' :
  gift_dal.create_gift_record clock rng gd w = (Ok (id, g), w') ->
  id = gift_id_seq w + 1
  ∧ gifts w !! id = None
  ∧ gifts w' = <[id := g]> (gifts w)
  ∧ committed w' = committed w
  ∧ gift_dal.get_gift_by_id id w' = (Ok (Some g), w')
  ∧ gift_dal.get_gift_by_code (gift_code g) false w' = (Ok (Some (id, g)), w')
  ∧ status g = default pending_payment (gd_status gd)
  ∧ created_at g = clock (ticks w)
  ∧ (payment_id g = None ∧ paid_at g = None ∧ expires_at g = None
     ∧ activated_at g = None ∧ cancelled_at g = None)
  ∧ (gd_gift_code gd = None -> well_formed_code (gift_code g)).
Proof.
  intros H. apply create_gift_record_ok in H
    as (donor & code & d & _ & Hwf & Hcodes & _ & -> & -> & Hnone & ->).
  cbn [gifts with_gifts committed with_gift_id_seq with_ticks with_draws].
  split_and!; try done.
  - unfold gift_dal.get_gift_by_id. cbn [gifts with_gifts].
    by rewrite lookup_insert_eq.
  - eapply sole_holder_found; [reflexivity|]. cbn [gifts with_gifts].
    split_and!; [by rewrite lookup_insert_eq|done|].
    intros j g' Hj Hc.
    destruct (decide (j = gift_id_seq w + 1)) as [|Hne]; [done|].
    rewrite lookup_insert_ne in Hj by done.
    by destruct (Hcodes j g' Hj).
Qed.

Lemma create_gift_record_round_trip_witness :
  let gd := mkGiftData 1 random 7 30 300 (Some "RUB"%string) "key-1" None
              None None None None in
  let res := gift_dal.create_gift_record at_9000 count_up gd empty_world in
  let g := inserted_record gd alice "ABCDEFGHIJKLMNOP" 9000 in
  res.1 = Ok (1, g)
  ∧ gift_dal.get_gift_by_code "ABCDEFGHIJKLMNOP" false res.2
    = (Ok (Some (1, g)), res.2)
  ∧ status g = pending_payment.
Proof.
  intros gd res g.
  destruct (create_gift_record_round_trip at_9000 count_up gd empty_world 1 g
              res.2) as (_ & _ & _ & _ & _ & Hcode & Hst & _);
    [vm_compute; reflexivity|].
  split_and!; [vm_compute; reflexivity|exact Hcode|exact Hst].
Defined.

(** ** What a successful [create_gift] means *)



(** ** Rate limits *)

(** X5. A donor who has created three gifts within the last hour, or
    ten within the last day, is turned away by [create_gift] with the
    count and the limit in the message; the hourly limit is looked at
    first, each check reads the clock once, and nothing is written. The
    counts take every gift of the donor's created at or after the start
    of the window, whatever its status. *)
Theorem create_gift_rate_limited clock rng donor_id tid rtype key rid msg md
    w donor :
  users w !! donor_id = Some donor ->
  user_is_banned donor = false ->
  let hourly := created_since donor_id (clock (ticks w) - 1 * HOUR) (gifts w) in
  let daily :=
    created_since donor_id (clock (S (ticks w)) - 24 * HOUR) (gifts w) in
  let res := GiftService.create_gift clock rng donor_id tid rtype key rid msg
               md w in
  (3 ≤ hourly ->
   res = (Ok (false, Hourly_gift_limit_exceeded hourly 3, None),
          with_ticks (S (ticks w)) w))
  ∧ (hourly < 3 -> 10 ≤ daily ->
     res = (Ok (false, Daily_gift_limit_exceeded daily 10, None),
            with_ticks (S (S (ticks w))) w)).
Proof.
  intros Hdonor Hban hourly daily res.
  assert (Hhour : res
    = if bool_decide (hourly < MAX_GIFTS_PER_HOUR)
      then if bool_decide (daily < MAX_GIFTS_PER_DAY)
           then res
           else (Ok (false, Daily_gift_limit_exceeded daily MAX_GIFTS_PER_DAY,
                     None), with_ticks (S (S (ticks w))) w)
      else (Ok (false, Hourly_gift_limit_exceeded hourly MAX_GIFTS_PER_HOUR,
                None), with_ticks (S (ticks w)) w)).
  { destruct (bool_decide (hourly < MAX_GIFTS_PER_HOUR)) eqn:Eh;
      [destruct (bool_decide (daily < MAX_GIFTS_PER_DAY)) eqn:Ed;
         [reflexivity|]|];
      subst res; unfold GiftService.create_gift, try_except;
      unfold get_user_by_id at 1; unfold bind at 1; rewrite Hdonor, Hban;
      rewrite (bind_ok _ _ _ _ _ (check_user_gift_rate_limit_eq _ _ _ _ _));
      cbn beta iota zeta;
      change (gift_dal.count_rows _) with hourly; rewrite Eh; cbn [negb];
      [|reflexivity].
    rewrite (bind_ok _ _ _ _ _ (check_user_gift_rate_limit_eq _ _ _ _ _)).
    cbn beta iota zeta. cbn [ticks gifts with_ticks].
    change (gift_dal.count_rows _) with daily. rewrite Ed. reflexivity. }
  clearbody res. unfold MAX_GIFTS_PER_HOUR, MAX_GIFTS_PER_DAY in Hhour.
  split.
  - intros Hh. rewrite Hhour. by rewrite bool_decide_false by lia.
  - intros Hh Hd. rewrite Hhour at 1. rewrite (bool_decide_true _ Hh).
    by rewrite bool_decide_false by lia.
Qed.

Lemma create_gift_rate_limited_witness :
  GiftService.create_gift at_9000 count_up 1 7 random "key-9" None None None
    (world_of busy_table)
  = (Ok (false, Hourly_gift_limit_exceeded 3 3, None),
     with_ticks 1 (world_of busy_table)).
Proof.
  apply (proj1 (create_gift_rate_limited at_9000 count_up 1 7 random "key-9"
                  None None None (world_of busy_table) alice eq_refl
                  eq_refl)).
  vm_compute. discriminate.
Defined.

(** ** Columns no operation writes *)

Lemma same_purchase_refl g : same_purchase g g.
Proof. by repeat split. Qed.

Lemma rows_kept_refl m : rows_kept m m.
Proof. intros id. destruct (m !! id); [apply same_purchase_refl|done]. Qed.

Lemma rows_kept_insert m id h h' :
  m !! id = Some h -> same_purchase h h' -> rows_kept m (<[id := h']> m).
Proof.
  intros Hm Hs j. destruct (decide (j = id)) as [->|Hne].
  - by rewrite Hm, lookup_insert_eq.
  - rewrite lookup_insert_ne by done.
    destruct (m !! j); [apply same_purchase_refl|done].
Qed.

Lemma rows_kept_of_update m m' gid :
  (m' = m ∨ ∃ h h', m !! gid = Some h ∧ same_purchase h h'
                    ∧ m' = <[gid := h']> m) ->
  rows_kept m m'.
Proof.
  intros [->|(h & h' & Hm & Hs & ->)];
    [apply rows_kept_refl|by eapply rows_kept_insert].
Qed.

Ltac keep_row :=
  right; eexists _, _; (split; [first [eassumption|reflexivity]|]);
  (split; [|reflexivity]);
  repeat split; try reflexivity; try (intros; congruence).

Lemma update_gift_status_kept gid st w :
  let w' := (gift_dal.update_gift_status gid st [] w).2 in
  gifts w' = gifts w
  ∨ ∃ h h', gifts w !! gid = Some h ∧ same_purchase h h'
            ∧ gifts w' = <[gid := h']> (gifts w).
Proof.
  unfold gift_dal.update_gift_status. dal_unfold.
  repeat case_match; simplify_eq/=; auto. keep_row.
Qed.

Lemma mark_gift_as_paid_kept clock gid pid w :
  let w' := (gift_dal.mark_gift_as_paid clock gid pid w).2 in
  gifts w' = gifts w
  ∨ ∃ h h', gifts w !! gid = Some h ∧ same_purchase h h'
            ∧ gifts w' = <[gid := h']> (gifts w).
Proof.
  unfold gift_dal.mark_gift_as_paid. dal_unfold.
  repeat case_match; simplify_eq/=; auto. keep_row.
Qed.

Lemma activate_gift_kept clock gid uid w :
  let w' := (gift_dal.activate_gift clock gid uid w).2 in
  gifts w' = gifts w
  ∨ ∃ h h', gifts w !! gid = Some h ∧ same_purchase h h'
            ∧ gifts w' = <[gid := h']> (gifts w).
Proof.
  unfold gift_dal.activate_gift. dal_unfold.
  repeat case_match; simplify_eq/=; auto; keep_row.
Qed.

Lemma cancel_gift_kept clock gid donor w :
  let w' := (gift_dal.cancel_gift clock gid donor w).2 in
  gifts w' = gifts w
  ∨ ∃ h h', gifts w !! gid = Some h ∧ same_purchase h h'
            ∧ gifts w' = <[gid := h']> (gifts w).
Proof.
  unfold gift_dal.cancel_gift. dal_unfold.
  repeat case_match; simplify_eq/=; auto; keep_row.
Qed.

Lemma validate_gift_code_for_activation_kept clock code uid w :
  rows_kept (gifts w)
    (gifts (gift_dal.validate_gift_code_for_activation clock code uid w).2).
Proof.
  destruct (validate_gift_code_for_activation_gifts clock code uid w)
    as [->|(gid & h & Hm & _ & ->)]; [apply rows_kept_refl|].
  eapply rows_kept_insert; [exact Hm|]. by repeat split.
Qed.

Lemma expire_old_gifts_kept clock w :
  rows_kept (gifts w) (gifts (gift_dal.expire_old_gifts clock w).2).
Proof.
  rewrite expire_old_gifts_gifts. intros id. rewrite lookup_fmap.
  destruct (gifts w !! id) as [g|]; [|done]. cbn.
  destruct (gift_dal.lapsed _ g); by repeat split.
Qed.

(** X6. No lifecycle operation on an existing gift adds or removes a row
    or touches what was bought: marking as paid, validating a code,
    activating, cancelling, a status update that passes no additional
    field (the only form the engine calls) and the expiry sweep leave
    every gift its code, donor, tariff, duration, amount, currency,
    creation time, idempotency key, message and metadata, and a direct
    gift its recipient. A status update that does pass additional fields
    assigns each of them to the row after the status, whatever the
    column, and writes the row unless a constraint refuses it: given a
    code and an amount, it replaces both. *)
Theorem lifecycle_keeps_the_purchase clock w :
  (∀ gid pid,
     rows_kept (gifts w) (gifts (gift_dal.mark_gift_as_paid clock gid pid w).2))
  ∧ (∀ code uid,
     rows_kept (gifts w)
       (gifts (gift_dal.validate_gift_code_for_activation clock code uid w).2))
  ∧ (∀ gid uid,
     rows_kept (gifts w) (gifts (gift_dal.activate_gift clock gid uid w).2))
  ∧ (∀ gid donor,
     rows_kept (gifts w) (gifts (gift_dal.cancel_gift clock gid donor w).2))
  ∧ (∀ gid st,
     rows_kept (gifts w) (gifts (gift_dal.update_gift_status gid st [] w).2))
  ∧ rows_kept (gifts w) (gifts (gift_dal.expire_old_gifts clock w).2)
  ∧ (∀ gid st fields g,
     gifts w !! gid = Some g ->
     let g' := foldl (fun g f => setattr f g) (set_status st g) fields in
     gift_dal.update_gift_status gid st fields w
     = if update_allowed gid g g' w
       then (Ok (Some g'), with_gifts (<[gid := g']> (gifts w)) w)
       else (Raise IntegrityError, w))
  ∧ (∃ g',
     (gifts (gift_dal.update_gift_status 2 ready
               [F_gift_code "Z"; F_amount 1] (world_of busy_table)).2)
       !! 2 = Some g'
     ∧ busy_table !! 2 = Some (listed_gift "B" 1 ready 500 8500)
     ∧ gift_code g' = "Z"%string ∧ amount g' = 1).
Proof.
  split_and!; [| | | | | |intros gid st fields g Hg;
                          by apply update_gift_status_eq|
               eexists; split_and!; vm_compute; reflexivity].
  - intros gid pid. eapply rows_kept_of_update, mark_gift_as_paid_kept.
  - intros code uid. apply validate_gift_code_for_activation_kept.
  - intros gid uid. eapply rows_kept_of_update, activate_gift_kept.
  - intros gid donor. eapply rows_kept_of_update, cancel_gift_kept.
  - intros gid st. eapply rows_kept_of_update, update_gift_status_kept.
  - apply expire_old_gifts_kept.
Qed.

(** ** Codes stay unique *)

Lemma codes_unique_kept m m' :
  codes_unique m -> rows_kept m m' -> codes_unique m'.
Proof.
  intros Hu Hk i j g h Hi Hj Hc.
  pose proof (Hk i) as Hki. pose proof (Hk j) as Hkj.
  rewrite Hi in Hki. rewrite Hj in Hkj.
  destruct (m !! i) as [g0|] eqn:Hi0; [|done].
  destruct (m !! j) as [h0|] eqn:Hj0; [|done].
  destruct Hki as [Hcg _]. destruct Hkj as [Hch _].
  apply (Hu i j g0 h0 Hi0 Hj0). congruence.
Qed.

Lemma codes_unique_insert_fresh m id g :
  codes_unique m ->
  (∀ j g', m !! j = Some g' -> gift_code g' ≠ gift_code g) ->
  codes_unique (<[id := g]> m).
Proof.
  intros Hu Hfresh i j x y Hi Hj Hc.
  destruct (decide (i = id)) as [->|Hi'], (decide (j = id)) as [->|Hj'];
    [done| | |].
  - rewrite lookup_insert_eq in Hi. rewrite lookup_insert_ne in Hj by done.
    simplify_eq. by destruct (Hfresh j y Hj).
  - rewrite lookup_insert_eq in Hj. rewrite lookup_insert_ne in Hi by done.
    simplify_eq. by destruct (Hfresh i x Hi).
  - rewrite lookup_insert_ne in Hi, Hj by done. eauto.
Qed.

Lemma codes_unique_select code m :
  codes_unique m ->
  (length (map_to_list (filter (fun r : Z * Gift => gift_code r.2 = code) m))
   ≤ 1)%nat.
Proof.
  intros Hu.
  destruct (map_to_list _) as [|[i g] [|[j h] l]] eqn:Hrows; cbn; [lia..|].
  exfalso.
  pose proof (NoDup_fst_map_to_list
                (filter (fun r : Z * Gift => gift_code r.2 = code) m)) as Hnd.
  rewrite Hrows in Hnd. cbn in Hnd.
  assert (Hi : (i, g) ∈ map_to_list
                 (filter (fun r : Z * Gift => gift_code r.2 = code) m))
    by (rewrite Hrows; set_solver).
  assert (Hj : (j, h) ∈ map_to_list
                 (filter (fun r : Z * Gift => gift_code r.2 = code) m))
    by (rewrite Hrows; set_solver).
  apply elem_of_map_to_list, map_lookup_filter_Some in Hi as [Hi Hci].
  apply elem_of_map_to_list, map_lookup_filter_Some in Hj as [Hj Hcj].
  cbn in Hci, Hcj.
  assert (i = j) as -> by (apply (Hu i j g h Hi Hj); congruence).
  apply NoDup_cons in Hnd as [Hnin _]. apply Hnin. set_solver.
Qed.

(** X7. Gift codes stay unique. On a table where no two gifts share a
    code, inserting a gift (with a generated or a given code) and every
    operation on an existing gift leave it so, and a lookup by code,
    locking or not, never meets more than one row: it returns the gift
    or nothing, never an error. *)
Theorem gift_codes_stay_unique clock rng w :
  codes_unique (gifts w) ->
  (∀ gd, codes_unique (gifts (gift_dal.create_gift_record clock rng gd w).2))
  ∧ (∀ gid pid,
     codes_unique (gifts (gift_dal.mark_gift_as_paid clock gid pid w).2))
  ∧ (∀ code uid,
     codes_unique
       (gifts (gift_dal.validate_gift_code_for_activation clock code uid w).2))
  ∧ (∀ gid uid,
     codes_unique (gifts (gift_dal.activate_gift clock gid uid w).2))
  ∧ (∀ gid donor,
     codes_unique (gifts (gift_dal.cancel_gift clock gid donor w).2))
  ∧ codes_unique (gifts (gift_dal.expire_old_gifts clock w).2)
  ∧ (∀ code for_update,
       ∃ r, (gift_dal.get_gift_by_code code for_update w).1 = Ok r).
Proof.
  intros Hu. split_and!.
  - intros gd.
    destruct (gift_dal.create_gift_record clock rng gd w) as [[[id g]|e] w']
      eqn:Hrec; cbn [snd].
    + apply create_gift_record_ok in Hrec
        as (dn & code & d & _ & _ & Hfresh & _ & -> & -> & _ & ->).
      cbn [gifts with_gifts]. by apply codes_unique_insert_fresh.
    + apply create_gift_record_effect in Hrec as [_ ->]. exact Hu.
  - intros gid pid. eapply codes_unique_kept; [exact Hu|].
    eapply rows_kept_of_update, mark_gift_as_paid_kept.
  - intros code uid. eapply codes_unique_kept; [exact Hu|].
    apply validate_gift_code_for_activation_kept.
  - intros gid uid. eapply codes_unique_kept; [exact Hu|].
    eapply rows_kept_of_update, activate_gift_kept.
  - intros gid donor. eapply codes_unique_kept; [exact Hu|].
    eapply rows_kept_of_update, cancel_gift_kept.
  - eapply codes_unique_kept; [exact Hu|]. apply expire_old_gifts_kept.
  - intros code for_update.
    pose proof (codes_unique_select code (gifts w) Hu) as Hlen.
    unfold gift_dal.get_gift_by_code, bind, select_gifts.
    destruct (map_to_list _) as [|x [|y l]]; cbn in Hlen; [| |lia];
      destruct for_update; by eexists.
Qed.

Lemma gift_codes_stay_unique_witness :
  codes_unique (gifts (gift_dal.create_gift_record at_9000 count_up
                         (mkGiftData 1 random 7 30 300 None "key-9" None None
                            None None None) (world_of busy_table)).2)
  ∧ ∃ r, (gift_dal.get_gift_by_code "B" true (world_of busy_table)).1 = Ok r.
Proof.
  assert (Hu : codes_unique (gifts (world_of busy_table))).
  { intros i j g h Hi Hj Hc. cbn [gifts world_of] in Hi, Hj.
    unfold busy_table in Hi, Hj.
    repeat (apply lookup_insert_Some in Hi as [[<- <-]|[? Hi]]);
      try (apply lookup_singleton_Some in Hi as [<- <-]);
      repeat (apply lookup_insert_Some in Hj as [[<- <-]|[? Hj]]);
      try (apply lookup_singleton_Some in Hj as [<- <-]);
      first [reflexivity|discriminate Hc]. }
  destruct (gift_codes_stay_unique at_9000 count_up (world_of busy_table) Hu)
    as (Hcreate & _ & _ & _ & _ & _ & Hlook).
  split; [apply Hcreate|apply Hlook].
Defined.

(** ** Redemption: the cases that do not go through *)

Lemma found_sole_holder code w id g :
  gift_dal.get_gift_by_code code false w = (Ok (Some (id, g)), w) ->
  sole_holder (gifts w) code id g.
Proof.
  unfold gift_dal.get_gift_by_code, bind, select_gifts, ret.
  intros H. apply scalar_one_or_none_Some in H as [H _].
  apply select_one in H as (Hm & Hc & Hothers).
  split_and!; [done|done|]. intros j g' Hj Hcj. by eapply Hothers.
Qed.

Lemma no_row_not_found code w :
  (∀ id g, gifts w !! id = Some g -> gift_code g ≠ code) ->
  gift_dal.get_gift_by_code code false w = (Ok None, w).
Proof.
  intros Hno. unfold gift_dal.get_gift_by_code, bind, select_gifts, ret.
  assert (Hempty : filter (fun r : Z * Gift => gift_code r.2 = code) (gifts w)
                   = ∅).
  { apply map_empty. intros i. apply map_lookup_filter_None. right.
    intros g Hg Hc. by apply (Hno i g Hg). }
  rewrite Hempty, map_to_list_empty. reflexivity.
Qed.

(** X8. A caller a ready, unexpired gift is not meant for is turned
    away by [activate_gift] before anything is written and before the
    subscription capability is invoked: the donor of a random gift, and
    anyone but the addressee of a direct gift. The call neither commits
    nor rolls back, so the row lock it took is left to the caller's
    session. *)
Theorem activate_gift_ineligible_caller clock sub code uid w id g :
  gift_dal.get_gift_by_code code false w = (Ok (Some (id, g)), w) ->
  status g = ready ->
  is_past (expires_at g) (clock (ticks w)) = false ->
  match recipient_type g with
  | random => donor_user_id g = uid
  | direct => recipient_user_id g ≠ Some uid
  end ->
  let res := GiftService.activate_gift clock sub code uid w in
  res.1 = Ok (false,
              match recipient_type g with
              | random => You_cannot_activate_own_gift
              | direct => This_gift_for_another_user
              end, None)
  ∧ gifts res.2 = gifts w
  ∧ committed res.2 = committed w
  ∧ row_locks res.2 = row_locks w ∪ {[id]}
  ∧ trace res.2 = trace w ++ [EvLockRow id].
Proof.
  intros Hfind Hst Hlive Hinel res. subst res.
  unfold GiftService.activate_gift, try_except.
  mstep (validate_live clock code uid w id g Hfind Hst Hlive).
  rewrite decide_False.
  2:{ unfold eligible. destruct (recipient_type g); [by intros ?|done]. }
  unfold ineligible_msg. by destruct (recipient_type g).
Qed.

Lemma activate_gift_ineligible_caller_witness :
  let w := sample_world (sample_gift ready (Some 99999)) in
  let res := GiftService.activate_gift at_9000 sub_works "GIFTCODE00000001" 1
               w in
  res.1 = Ok (false, You_cannot_activate_own_gift, None)
  ∧ gifts res.2 = gifts w
  ∧ committed res.2 = committed w
  ∧ row_locks res.2 = row_locks w ∪ {[10]}
  ∧ trace res.2 = trace w ++ [EvLockRow 10].
Proof.
  intros w.
  apply (activate_gift_ineligible_caller at_9000 sub_works "GIFTCODE00000001"
           1 w 10 (sample_gift ready (Some 99999)));
    [vm_compute; reflexivity|reflexivity|reflexivity|reflexivity].
Defined.

(** X9. A code no gift carries is an invalid code to both
    [activate_gift] and [validate_gift_code]; nothing is locked, written,
    committed or rolled back. *)
Theorem unknown_code_is_invalid clock sub code uid w :
  (∀ id g, gifts w !! id = Some g -> gift_code g ≠ code) ->
  let unchanged (w' : World) :=
    gifts w' = gifts w ∧ committed w' = committed w
    ∧ row_locks w' = row_locks w ∧ trace w' = trace w
    ∧ ticks w' = ticks w in
  let act := GiftService.activate_gift clock sub code uid w in
  let val := GiftService.validate_gift_code clock code uid w in
  act.1 = Ok (false, Invalid_gift_code, None) ∧ unchanged act.2
  ∧ val.1 = Ok (false, Invalid_gift_code, None) ∧ unchanged val.2.
Proof.
  intros Hno unchanged act val.
  pose proof (no_row_not_found code w Hno) as Hnone.
  apply get_gift_by_code_None in Hnone as [_ Hlock].
  match type of Hlock with _ = (_, ?w0) =>
    assert (Hval : gift_dal.validate_gift_code_for_activation clock code uid w
                   = (Ok (None, Some Invalid_gift_code), w0)) end.
  { unfold gift_dal.validate_gift_code_for_activation.
    by rewrite (bind_ok _ _ _ _ _ Hlock). }
  subst act val.
  unfold GiftService.activate_gift, GiftService.validate_gift_code,
    try_except.
  rewrite !(bind_ok _ _ _ _ _ Hval). cbn.
  rewrite app_nil_r, union_empty_r_L. by repeat split.
Qed.

Lemma unknown_code_is_invalid_witness :
  let w := sample_world (sample_gift ready (Some 99999)) in
  (GiftService.activate_gift at_9000 sub_works "NOSUCHCODE" 2 w).1
  = Ok (false, Invalid_gift_code, None)
  ∧ gifts (GiftService.activate_gift at_9000 sub_works "NOSUCHCODE" 2 w).2
    = gifts w.
Proof.
  intros w.
  destruct (unknown_code_is_invalid at_9000 sub_works "NOSUCHCODE" 2 w)
    as (H1 & (H2 & _) & _).
  - intros id g Hg. cbn in Hg. apply lookup_singleton_Some in Hg as [_ <-].
    discriminate.
  - split; [exact H1|exact H2].
Defined.

(** X10. The clock is read twice on the way to an activation: once by
    the validation and once by the activation itself. A gift that is
    still in time at the first reading and past its expiry at the second
    is refused with the data layer's message, and the transaction is
    rolled back - so the [expired] mark the data layer had just written
    is undone and the committed row stays as it was. *)
Theorem activate_gift_lapse_between_readings clock sub code uid w id g :
  gift_dal.get_gift_by_code code false w = (Ok (Some (id, g)), w) ->
  status g = ready ->
  eligible g uid ->
  is_past (expires_at g) (clock (ticks w)) = false ->
  is_past (expires_at g) (clock (S (ticks w))) = true ->
  let res := GiftService.activate_gift clock sub code uid w in
  res.1 = Ok (false, Gift_has_expired, None)
  ∧ committed res.2 = committed w
  ∧ gifts res.2 = committed w
  ∧ row_locks res.2 = ∅
  ∧ trace res.2 = trace w ++ [EvLockRow id; EvRollback].
Proof.
  intros Hfind Hst Hel Hl1 Hl2 res.
  destruct (get_gift_by_code_Some _ _ _ _ _ Hfind) as (_ & Hm & _ & _).
  assert (Hres : res
    = (Ok (false, Gift_has_expired, None),
       mkWorld (committed w) (committed w) ∅ (gift_id_seq w) (users w)
         (tariffs w) (S (S (ticks w))) (draws w)
         ((trace w ++ [EvLockRow id]) ++ [EvRollback]))).
  { subst res. unfold GiftService.activate_gift, try_except.
    mstep (validate_live clock code uid w id g Hfind Hst Hl1).
    rewrite decide_True by done.
    unfold bind at 1.
    rewrite (dal_activate_gift_ready clock id uid _ g); [|exact Hm|done..].
    cbn [ticks users with_ticks locked]. cbn zeta. rewrite Hl2.
    reflexivity. }
  rewrite Hres. cbn. split_and!; try reflexivity. by rewrite <- app_assoc.
Qed.

Lemma activate_gift_lapse_between_readings_witness :
  let g := sample_gift ready (Some 9500) in
  let w := sample_world g in
  let res := GiftService.activate_gift ticking sub_works "GIFTCODE00000001" 2
               w in
  res.1 = Ok (false, Gift_has_expired, None)
  ∧ committed res.2 = committed w
  ∧ gifts res.2 = committed w
  ∧ row_locks res.2 = ∅
  ∧ trace res.2 = trace w ++ [EvLockRow 10; EvRollback].
Proof.
  intros g w.
  apply (activate_gift_lapse_between_readings ticking sub_works
           "GIFTCODE00000001" 2 w 10 g);
    [vm_compute; reflexivity|reflexivity|cbn; discriminate|reflexivity
    |reflexivity].
Defined.

(** ** How the operations compose *)

Lemma activated_record_facts uid now us g :
  eligible g uid ->
  let g' := activated_record uid now us g in
  status g' = activated
  ∧ activated_at g' = Some now
  ∧ recipient_user_id g' = Some uid
  ∧ same_purchase g g'.
Proof.
  unfold eligible, activated_record. intros Hel.
  destruct (recipient_type g) eqn:Hrt.
  - destruct (us !! uid) as [u|]; [destruct (truthy_str _)|]; cbn;
      split_and!; try done; repeat split; try done; cbn; try congruence.
  - cbn. split_and!; try done; by repeat split.
Qed.

Lemma not_succeeded_false (m : Msg) (d : option ResultData) :
  ¬ succeeded (Ok (false, m, d)).
Proof. intros (m' & d' & H). discriminate H. Qed.

Lemma cancel_gift_not_cancellable clock id actor is_admin w g :
  gifts w !! id = Some g ->
  ¬ cancellable (status g) ->
  ¬ succeeded (GiftService.cancel_gift clock id actor is_admin w).1.
Proof.
  intros Hm Hnc. rewrite service_cancel_gift_cases, Hm.
  destruct (negb is_admin && _); [apply not_succeeded_false|].
  case_bool_decide as Hin; [apply not_succeeded_false|].
  destruct Hnc. apply cancellable_cases. by intros Hn.
Qed.

(** X11. A redemption that goes through is final. The committed gift
    is [activated], stamped with the second clock reading of the call
    and has the redeemer as its recipient, with the purchase as it was;
    after it every further [activate_gift] on the code, by whomever and
    whatever the subscription capability would answer, gets "already
    activated" and writes nothing, and no [cancel_gift] succeeds. *)
Theorem redeemed_gift_is_final clock sub code uid w id g r :
  redeemable clock code uid w id g ->
  sub (at_external_call clock id uid g w) uid (tariff_id g) = SubActivated r ->
  let first := GiftService.activate_gift clock sub code uid w in
  let g' := activated_record uid (clock (S (ticks w))) (users w) g in
  succeeded first.1
  ∧ committed first.2 = <[id := g']> (gifts w)
  ∧ gifts first.2 = committed first.2
  ∧ status g' = activated
  ∧ activated_at g' = Some (clock (S (ticks w)))
  ∧ recipient_user_id g' = Some uid
  ∧ same_purchase g g'
  ∧ (∀ clock2 sub2 uid2,
       let again := GiftService.activate_gift clock2 sub2 code uid2 first.2 in
       again.1 = Ok (false, This_gift_already_activated, None)
       ∧ gifts again.2 = gifts first.2
       ∧ committed again.2 = committed first.2)
  ∧ (∀ clock2 actor is_admin,
       ¬ succeeded (GiftService.cancel_gift clock2 id actor is_admin
                      first.2).1).
Proof.
  intros Hred Hsub first g'.
  pose proof (activate_gift_reaches_call clock sub code uid w id g Hred)
    as Hcall. cbn zeta in Hcall. rewrite Hsub in Hcall.
  fold first in Hcall.
  destruct (activated_record_facts uid (clock (S (ticks w))) (users w) g
              (rd_eligible _ _ _ _ _ _ Hred)) as (Hst & Hat & Hrcp & Hsame).
  fold g' in Hst, Hat, Hrcp, Hsame.
  pose proof (found_sole_holder _ _ _ _ (rd_found _ _ _ _ _ _ Hred)) as Hsole.
  assert (Hcode : gift_code g' = code)
    by (destruct Hsame as [-> _]; by destruct Hsole as (_ & ? & _)).
  pose proof (sole_holder_insert _ _ _ _ g' Hsole Hcode) as Hsole'.
  rewrite Hcall. cbn [fst snd committed gifts at_external_call].
  fold g'. split_and!; try done.
  - by eexists _, _.
  - intros clock2 sub2 uid2.
    match goal with |- context [GiftService.activate_gift _ _ _ _ ?w1] =>
      set (w1' := w1) end.
    assert (Hfound : gift_dal.get_gift_by_code code false w1'
                     = (Ok (Some (id, g')), w1'))
      by (by eapply sole_holder_found).
    assert (Hagain : GiftService.activate_gift clock2 sub2 code uid2 w1'
      = (Ok (false, This_gift_already_activated, None), locked id w1')).
    { unfold GiftService.activate_gift, try_except.
      erewrite bind_ok; last first.
      { apply (validate_status_rejected clock2 code uid2 w1' id g' Hfound).
        rewrite Hst. discriminate. }
      rewrite Hst. reflexivity. }
    rewrite Hagain. by cbn.
  - intros clock2 actor is_admin.
    eapply cancel_gift_not_cancellable.
    + cbn [gifts]. apply lookup_insert_eq.
    + rewrite Hst. intros [|]; discriminate.
Qed.

Lemma redeemed_gift_is_final_witness :
  let g := sample_gift ready (Some 99999) in
  let w := sample_world g in
  let first := GiftService.activate_gift at_9000 sub_works "GIFTCODE00000001"
                 2 w in
  succeeded first.1
  ∧ (GiftService.activate_gift at_9000 sub_works "GIFTCODE00000001" 3
       first.2).1
    = Ok (false, This_gift_already_activated, None)
  ∧ ¬ succeeded (GiftService.cancel_gift at_9000 10 1 false first.2).1.
Proof.
  intros g w first.
  destruct (redeemed_gift_is_final at_9000 sub_works "GIFTCODE00000001" 2 w 10
              g (mkSub (Some 77) (Some 12000) (Some "https://sub/77"%string))
              sample_redeemable eq_refl)
    as (H1 & _ & _ & _ & _ & _ & _ & H2 & H3).
  split_and!; [exact H1|apply (H2 at_9000 sub_works 3)|apply H3].
Defined.

(** X12. A cancelled gift is dead. After a [cancel_gift] that
    succeeded, redeeming the code gets "has been cancelled" from
    whomever tries, a payment notification for the gift is turned down
    with the status and changes nothing, a second cancellation fails,
    and the expiry sweep leaves the row alone. *)
Theorem cancelled_gift_is_dead clock sub code id g actor is_admin w :
  sole_holder (gifts w) code id g ->
  succeeded (GiftService.cancel_gift clock id actor is_admin w).1 ->
  let w1 := (GiftService.cancel_gift clock id actor is_admin w).2 in
  let g' := cancelled_record (clock (ticks w)) g in
  gifts w1 = <[id := g']> (gifts w)
  ∧ committed w1 = gifts w1
  ∧ same_purchase g g'
  ∧ (∀ clock2 uid,
       (GiftService.activate_gift clock2 sub code uid w1).1
       = Ok (false, This_gift_has_been_cancelled, None))
  ∧ (∀ clock2 pid,
       gift_dal.get_gift_by_payment_id pid w1 = (Ok (Some (id, g')), w1) ->
       GiftService.process_gift_payment clock2 pid w1
       = (Ok (false, Gift_status_is cancelled, None), w1))
  ∧ (∀ clock2 actor2 is_admin2,
       ¬ succeeded (GiftService.cancel_gift clock2 id actor2 is_admin2 w1).1)
  ∧ (∀ clock2,
       gifts (gift_dal.expire_old_gifts clock2 w1).2 !! id = Some g').
Proof.
  intros Hsole Hok w1 g'. destruct (Hsole) as (Hm & Hc & _).
  assert (Hw1 : w1
    = mkWorld (<[id := g']> (gifts w)) (<[id := g']> (gifts w)) ∅
        (gift_id_seq w) (users w) (tariffs w) (S (ticks w)) (draws w)
        (trace w ++ [EvCommit])).
  { subst w1. revert Hok. rewrite service_cancel_gift_cases, Hm.
    destruct (negb is_admin && _);
      [intros Hs; by apply not_succeeded_false in Hs|].
    destruct (bool_decide _);
      [intros Hs; by apply not_succeeded_false in Hs|].
    reflexivity. }
  clearbody w1. subst w1.
  cbn [gifts committed].
  assert (Hsole' : sole_holder (<[id := g']> (gifts w)) code id g')
    by (apply (sole_holder_insert _ _ _ g); [exact Hsole|exact Hc]).
  split_and!; try done.
  - intros clock2 uid.
    match goal with |- context [GiftService.activate_gift _ _ _ _ ?w0] =>
      set (w1 := w0) end.
    assert (Hfound : gift_dal.get_gift_by_code code false w1
                     = (Ok (Some (id, g')), w1))
      by (by eapply sole_holder_found).
    unfold GiftService.activate_gift, try_except.
    erewrite bind_ok; last first.
    { apply (validate_status_rejected clock2 code uid w1 id g' Hfound).
      discriminate. }
    reflexivity.
  - intros clock2 pid Hpay.
    apply (process_gift_payment_not_pending clock2 pid _ id g' Hpay).
    discriminate.
  - intros clock2 actor2 is_admin2.
    eapply cancel_gift_not_cancellable.
    + cbn [gifts]. apply lookup_insert_eq.
    + intros [|]; discriminate.
  - intros clock2. rewrite expire_old_gifts_gifts. cbn [gifts].
    rewrite lookup_fmap, lookup_insert_eq. reflexivity.
Qed.

Lemma cancelled_gift_is_dead_witness :
  let g := sample_gift ready (Some 99999) in
  let w := sample_world g in
  let w1 := (GiftService.cancel_gift at_9000 10 1 false w).2 in
  (GiftService.activate_gift at_9000 sub_works "GIFTCODE00000001" 2 w1).1
  = Ok (false, This_gift_has_been_cancelled, None)
  ∧ GiftService.process_gift_payment at_9000 55 w1
    = (Ok (false, Gift_status_is cancelled, None), w1).
Proof.
  intros g w w1.
  destruct (cancelled_gift_is_dead at_9000 sub_works "GIFTCODE00000001" 10 g 1
              false w)
    as (_ & _ & _ & H1 & H2 & _).
  - by apply sample_sole_holder.
  - vm_compute. by eexists _, _.
  - split; [apply H1|apply H2]. vm_compute. reflexivity.
Defined.

Lemma is_past_Some e now : is_past (Some e) now = bool_decide (e < now).
Proof. reflexivity. Qed.

(** X13. Payment opens a window of ninety days. Once
    [process_gift_payment] has marked a pending gift as paid at [t], a
    caller the gift is meant for redeems it as long as both clock
    readings of the redemption are at most [t + 90 days] (the subscription
    capability delivering); if the first reading is later than that, the
    redemption is refused as expired. *)
Theorem paid_gift_redeemable_for_90_days clock sub code pid uid w id g r :
  gift_dal.get_gift_by_payment_id pid w = (Ok (Some (id, g)), w) ->
  sole_holder (gifts w) code id g ->
  status g = pending_payment ->
  eligible g uid ->
  recipient_known g uid (users w) ->
  is_Some (tariffs w !! tariff_id g) ->
  (∀ w' u t, sub w' u t = SubActivated r) ->
  let t := clock (ticks w) in
  let paid := GiftService.process_gift_payment clock pid w in
  let redeemed := GiftService.activate_gift clock sub code uid paid.2 in
  succeeded paid.1
  ∧ (clock (S (ticks w)) ≤ t + 90 * DAY ->
     clock (S (S (ticks w))) ≤ t + 90 * DAY ->
     succeeded redeemed.1)
  ∧ (t + 90 * DAY < clock (S (ticks w)) ->
     redeemed.1 = Ok (false, This_gift_has_expired, None)).
Proof.
  intros Hpay Hsole Hst Hel Hknown Htar Hsub t paid redeemed.
  pose proof (process_gift_payment_pending clock pid w id g Hpay Hst) as Hp.
  cbn zeta in Hp. fold paid in Hp. fold t in Hp.
  set (g' := paid_record pid t g) in *.
  destruct Hsole as (Hm & Hc & Hothers).
  assert (Hsole' : sole_holder (<[id := g']> (gifts w)) code id g')
    by (apply (sole_holder_insert _ _ _ g); [by split_and!|exact Hc]).
  assert (Hexp : expires_at g' = Some (t + 90 * DAY)) by reflexivity.
  split; [rewrite Hp; by eexists _, _|].
  subst redeemed. rewrite Hp. cbn [snd].
  match goal with |- context [GiftService.activate_gift _ _ _ _ ?w0] =>
    set (w1 := w0) end.
  assert (Hfound : gift_dal.get_gift_by_code code false w1
                   = (Ok (Some (id, g')), w1))
    by (by eapply sole_holder_found).
  split.
  - intros H1 H2.
    assert (Hred : redeemable clock code uid w1 id g').
    { split; try done.
      - rewrite Hexp, is_past_Some. apply bool_decide_false. cbn [ticks w1].
        lia.
      - rewrite Hexp, is_past_Some. apply bool_decide_false. cbn [ticks w1].
        lia. }
    rewrite (activate_gift_reaches_call clock sub code uid w1 id g' Hred).
    rewrite Hsub. by eexists _, _.
  - intros Hlate.
    unfold GiftService.activate_gift, try_except.
    erewrite bind_ok; last first.
    { apply (validate_expired clock code uid w1 id g' Hfound); [done|].
      rewrite Hexp, is_past_Some. apply bool_decide_true. cbn [ticks w1].
      lia. }
    reflexivity.
Qed.

Lemma paid_gift_redeemable_for_90_days_witness :
  let g := sample_gift pending_payment None in
  let w := sample_world g in
  let paid := GiftService.process_gift_payment at_9000 55 w in
  succeeded paid.1
  ∧ succeeded (GiftService.activate_gift at_9000 sub_works "GIFTCODE00000001"
                 2 paid.2).1.
Proof.
  intros g w paid.
  destruct (paid_gift_redeemable_for_90_days at_9000 sub_works
              "GIFTCODE00000001" 55 2 w 10 g
              (mkSub (Some 77) (Some 12000) (Some "https://sub/77"%string)))
    as (H1 & H2 & _).
  - vm_compute. reflexivity.
  - by apply sample_sole_holder.
  - reflexivity.
  - cbn. discriminate.
  - intros _. by eexists.
  - by eexists.
  - reflexivity.
  - split; [exact H1|apply H2; vm_compute; discriminate].
Defined.

(** X14. A gift whose tariff row is gone previews as valid, under the
    tariff name "Unknown", and cannot be redeemed: [activate_gift] gets
    as far as writing the activation, finds no tariff, rolls the
    transaction back and reports "Tariff not found", without invoking
    the subscription capability. *)
Theorem activate_gift_tariff_gone clock sub code uid w id g :
  gift_dal.get_gift_by_code code false w = (Ok (Some (id, g)), w) ->
  status g = ready ->
  is_past (expires_at g) (clock (ticks w)) = false ->
  is_past (expires_at g) (clock (S (ticks w))) = false ->
  eligible g uid ->
  recipient_known g uid (users w) ->
  tariffs w !! tariff_id g = None ->
  let res := GiftService.activate_gift clock sub code uid w in
  res.1 = Ok (false, Tariff_not_found, None)
  ∧ committed res.2 = committed w
  ∧ gifts res.2 = committed w
  ∧ row_locks res.2 = ∅
  ∧ trace res.2 = trace w ++ [EvLockRow id; EvRollback]
  ∧ (GiftService.validate_gift_code clock code uid w).1
    = Ok (true, Gift_code_is_valid,
          Some (PreviewData id (recipient_type g) "Unknown" (duration_days g)
                  (donor_username g) (message_to_recipient g) (created_at g)
                  (expires_at g))).
Proof.
  intros Hfind Hst Hl1 Hl2 Hel Hknown Htar res.
  destruct (get_gift_by_code_Some _ _ _ _ _ Hfind) as (_ & Hm & _ & _).
  assert (Hres : res
    = (Ok (false, Tariff_not_found, None),
       mkWorld (committed w) (committed w) ∅ (gift_id_seq w) (users w)
         (tariffs w) (S (S (ticks w))) (draws w)
         ((trace w ++ [EvLockRow id]) ++ [EvRollback]))).
  { subst res. unfold GiftService.activate_gift, try_except.
    mstep (validate_live clock code uid w id g Hfind Hst Hl1).
    rewrite decide_True by done.
    erewrite bind_ok; last first.
    { apply (dal_activate_gift_ok clock id uid _ g); auto. }
    cbn [ticks with_ticks locked users].
    unfold get_tariff_by_id. unfold bind at 1.
    cbn [tariffs with_gifts with_ticks locked]. rewrite Htar.
    reflexivity. }
  rewrite Hres. cbn [fst snd committed gifts row_locks trace].
  split_and!; try reflexivity; [by rewrite <- app_assoc|].
  unfold GiftService.validate_gift_code, try_except.
  mstep (validate_live clock code uid w id g Hfind Hst Hl1).
  rewrite decide_True by done.
  unfold get_tariff_by_id, bind, ret.
  cbn [tariffs with_ticks locked]. by rewrite Htar.
Qed.

Lemma activate_gift_tariff_gone_witness :
  let g := sample_gift ready (Some 99999) in
  let w := mkWorld {[10 := g]} {[10 := g]} ∅ 10 sample_users ∅ 0 0 [] in
  let res := GiftService.activate_gift at_9000 sub_works "GIFTCODE00000001" 2
               w in
  res.1 = Ok (false, Tariff_not_found, None)
  ∧ gifts res.2 = committed w
  ∧ trace res.2 = [EvLockRow 10; EvRollback].
Proof.
  intros g w res.
  destruct (activate_gift_tariff_gone at_9000 sub_works "GIFTCODE00000001" 2
              w 10 g) as (H1 & _ & H2 & _ & H3 & _).
  - vm_compute. reflexivity.
  - reflexivity.
  - reflexivity.
  - reflexivity.
  - cbn. discriminate.
  - intros _. by eexists.
  - reflexivity.
  - split_and!; [exact H1|exact H2|exact H3].
Defined.

(** ** The expiry sweep *)

Lemma lapsed_true now g :
  gift_dal.lapsed now g = true
  ↔ status g = ready ∧ ∃ e, expires_at g = Some e ∧ e < now.
Proof.
  unfold gift_dal.lapsed. rewrite andb_true_iff, bool_decide_eq_true.
  split.
  - intros [Hst Hp]. split; [done|].
    destruct (expires_at g) as [e|]; [|done].
    exists e. split; [done|]. by apply bool_decide_eq_true in Hp.
  - intros [Hst (e & -> & He)]. split; [done|]. by apply bool_decide_eq_true.
Qed.

(** X15. [expire_old_gifts] turns exactly the gifts that are [ready]
    with an expiry strictly before the clock reading into [expired],
    returns their number and leaves every other gift as it is; when it
    is done no such gift is left, so a second sweep that reads a clock
    no later finds nothing to do. The sweep itself does not commit. *)
Theorem expire_old_gifts_sweep clock w :
  let now := clock (ticks w) in
  let res := gift_dal.expire_old_gifts clock w in
  (∀ g, gift_dal.lapsed now g = true
        ↔ status g = ready ∧ ∃ e, expires_at g = Some e ∧ e < now)
  ∧ res.1 = Ok (Z.of_nat
                  (size (filter (fun r : Z * Gift =>
                                   gift_dal.lapsed now r.2 = true) (gifts w))))
  ∧ (∀ id, gifts res.2 !! id
           = (fun g => if gift_dal.lapsed now g then set_status expired g
                       else g) <$> gifts w !! id)
  ∧ (∀ id g', gifts res.2 !! id = Some g' -> gift_dal.lapsed now g' = false)
  ∧ committed res.2 = committed w
  ∧ (clock (S (ticks w)) ≤ now ->
     let again := gift_dal.expire_old_gifts clock res.2 in
     again.1 = Ok 0 ∧ gifts again.2 = gifts res.2).
Proof.
  intros now res.
  assert (Hlook : ∀ id, gifts res.2 !! id
            = (fun g => if gift_dal.lapsed now g then set_status expired g
                        else g) <$> gifts w !! id).
  { intros id. subst res. rewrite expire_old_gifts_gifts.
    by rewrite lookup_fmap. }
  assert (Hnone : ∀ now2 id g', now2 ≤ now -> gifts res.2 !! id = Some g' ->
                                gift_dal.lapsed now2 g' = false).
  { intros now2 id g' Hle. rewrite Hlook.
    destruct (gifts w !! id) as [g|]; [|done]. cbn. intros [= <-].
    destruct (gift_dal.lapsed now g) eqn:Hl; [reflexivity|].
    apply not_true_is_false. intros Hl2.
    apply lapsed_true in Hl2 as (Hst & e & He & Hlt).
    assert (gift_dal.lapsed now g = true); [|congruence].
    apply lapsed_true. split; [done|]. exists e. split; [done|lia]. }
  split_and!; try done.
  - intros g. apply lapsed_true.
  - intros id g'. by apply Hnone.
  - intros Hle again.
    assert (Hfilter : filter (fun r : Z * Gift =>
                        gift_dal.lapsed (clock (S (ticks w))) r.2 = true)
                        (gifts res.2) = ∅).
    { apply map_empty. intros i. apply map_lookup_filter_None. right.
      intros g' Hg'. cbn. by rewrite (Hnone _ i g' Hle Hg'). }
    split.
    + subst again. unfold gift_dal.expire_old_gifts, bind.
      rewrite datetime_now_eq. cbn [fst gifts with_ticks ticks].
      change (ticks res.2) with (S (ticks w)).
      change (gifts (with_ticks _ res.2)) with (gifts res.2).
      by rewrite Hfilter, map_size_empty.
    + subst again. rewrite expire_old_gifts_gifts.
      change (ticks res.2) with (S (ticks w)).
      apply map_eq. intros i. rewrite lookup_fmap.
      destruct (gifts res.2 !! i) as [g'|] eqn:Hg'; [|done]. cbn.
      by rewrite (Hnone _ i g' Hle Hg').
Qed.

(** ** Listings *)

#[local] Instance newer_first_transitive tie :
  Transitive (gift_dal.newer_first tie).
Proof. unfold gift_dal.newer_first. intros a b c Hab Hbc. lia. Qed.

#[local] Instance newer_first_total tie : Total (gift_dal.newer_first tie).
Proof. unfold gift_dal.newer_first. intros a b. lia. Qed.

Lemma StronglySorted_weaken {A} (R S : relation A) l :
  (∀ x y, R x y -> S x y) -> StronglySorted R l -> StronglySorted S l.
Proof.
  intros HRS. induction 1 as [|x l _ IH Hx]; constructor; [done|].
  eapply Forall_impl; [exact Hx|]. auto.
Qed.

(** Whatever the order among ties, the sorted rows are the rows, no row
    before a newer one. *)
Lemma order_by_created_desc_spec tie rows :
  gift_dal.order_by_created_desc tie rows ≡ₚ rows
  ∧ StronglySorted (fun a b : Z * Gift => created_at b.2 ≤ created_at a.2)
      (gift_dal.order_by_created_desc tie rows).
Proof.
  unfold gift_dal.order_by_created_desc. split.
  - apply merge_sort_Permutation.
  - eapply StronglySorted_weaken; [|apply (StronglySorted_merge_sort _)].
    unfold gift_dal.newer_first. intros a b. lia.
Qed.

Lemma page_is_page tie (P : Z * Gift -> Prop) `{!∀ x, Decision (P x)}
    (m : gmap Z Gift) (limit offset : nat) :
  is_page P m limit offset
    (take limit
       (drop offset
          (gift_dal.order_by_created_desc tie (map_to_list (filter P m))))).
Proof.
  set (all := map_to_list (filter P m)).
  set (sorted := gift_dal.order_by_created_desc tie all).
  destruct (order_by_created_desc_spec tie all) as [Hperm Hsorted].
  fold sorted in Hperm, Hsorted.
  assert (Hlen : length sorted = size (filter P m))
    by (rewrite Hperm; apply length_map_to_list).
  assert (Hin : ∀ id g, (id, g) ∈ sorted ↔ m !! id = Some g ∧ P (id, g)).
  { intros id g. rewrite Hperm. unfold all.
    rewrite elem_of_map_to_list, map_lookup_filter_Some. done. }
  split_and!.
  - rewrite length_take, length_drop, Hlen. done.
  - intros id g Hp. apply Hin.
    eapply elem_of_sublist; [|apply sublist_drop].
    eapply elem_of_sublist; [exact Hp|apply sublist_take].
  - rewrite fmap_take, fmap_drop.
    eapply sublist_NoDup; [|apply sublist_take].
    eapply sublist_NoDup; [|apply sublist_drop].
    rewrite Hperm. apply NoDup_fst_map_to_list.
  - rewrite <- (take_drop offset sorted) in Hsorted.
    apply StronglySorted_app_1_r in Hsorted.
    rewrite <- (take_drop limit (drop offset sorted)) in Hsorted.
    by apply StronglySorted_app_1_l in Hsorted.
  - intros -> Hfit id g Hm HP. rewrite drop_0, take_ge by lia.
    by apply Hin.
Qed.

(** When no two of the rows were created at the same instant, there are
    no ties to break: every execution sorts them the same way. *)
Lemma order_by_created_desc_unique tie1 tie2
    (P : Z * Gift -> Prop) `{!∀ x, Decision (P x)} (m : gmap Z Gift) :
  created_apart P m ->
  gift_dal.order_by_created_desc tie1 (map_to_list (filter P m))
  = gift_dal.order_by_created_desc tie2 (map_to_list (filter P m)).
Proof.
  intros Hapart.
  set (all := map_to_list (filter P m)).
  destruct (order_by_created_desc_spec tie1 all) as [Hp1 Hs1].
  destruct (order_by_created_desc_spec tie2 all) as [Hp2 Hs2].
  eapply StronglySorted_unique_strong;
    [|exact Hs1|exact Hs2|by rewrite Hp1, Hp2].
  intros [i g] [j h] Hi Hj Hle Hge. cbn in Hle, Hge.
  rewrite Hp1 in Hi. rewrite Hp2 in Hj. unfold all in Hi, Hj.
  apply elem_of_map_to_list, map_lookup_filter_Some in Hi as [Hi HPi].
  apply elem_of_map_to_list, map_lookup_filter_Some in Hj as [Hj HPj].
  assert (i = j) as -> by (apply (Hapart i j g h); auto; lia).
  congruence.
Qed.

(** X16. The three listings return pages. [get_gifts_by_donor],
    [get_gifts_by_recipient] and [get_gifts_for_admin] return, without
    touching the session, the rows that match their filters (the donor,
    the recipient, and the optional status and recipient type), newest
    first, skipping [offset] rows and stopping at [limit]: no row twice,
    no row that does not match, and all of them when they fit on the
    first page - however the database orders the rows created at the
    same instant. *)
Theorem listings_return_pages tie limit offset w :
  (∀ donor st,
     ∃ page, gift_dal.get_gifts_by_donor tie donor st limit offset w
             = (Ok page, w)
             ∧ is_page (fun r => donor_user_id r.2 = donor
                                 ∧ gift_dal.status_matches st r.2)
                 (gifts w) limit offset page)
  ∧ (∀ recipient st,
     ∃ page, gift_dal.get_gifts_by_recipient tie recipient st limit offset w
             = (Ok page, w)
             ∧ is_page (fun r => recipient_user_id r.2 = Some recipient
                                 ∧ gift_dal.status_matches st r.2)
                 (gifts w) limit offset page)
  ∧ (∀ st rt,
     ∃ page, gift_dal.get_gifts_for_admin tie st rt limit offset w
             = (Ok page, w)
             ∧ is_page (fun r => gift_dal.status_matches st r.2
                                 ∧ gift_dal.recipient_type_matches rt r.2)
                 (gifts w) limit offset page).
Proof.
  split_and!; intros; eexists; (split; [reflexivity|]);
    apply (page_is_page tie _ (gifts w) limit offset).
Qed.

(** X17. The admin count and the admin listing agree. For the same
    filters, [count_gifts_for_admin] returns the number [n] of matching
    gifts, and the page at [offset] has [min limit (n - offset)] rows -
    none at or past [n] - however the database orders ties. Three
    executions of the listing, each with its own order among ties - the
    page at [offset], the page at [offset + limit] and the page of twice
    the size at [offset] - return as many rows in the two pages as in
    the double page; when no two matching gifts were created at the same
    instant, the two pages one after the other are the double page. With
    ties they need not be: of two gifts created together, the first page
    of one execution and the second page of another can both be the same
    gift. *)
Theorem admin_pages_tile tie1 tie2 tie3 st rt limit offset w :
  (∃ n page next both,
     gift_dal.count_gifts_for_admin st rt w = (Ok (Z.of_nat n), w)
     ∧ gift_dal.get_gifts_for_admin tie1 st rt limit offset w = (Ok page, w)
     ∧ gift_dal.get_gifts_for_admin tie2 st rt limit (offset + limit) w
       = (Ok next, w)
     ∧ gift_dal.get_gifts_for_admin tie3 st rt (limit + limit) offset w
       = (Ok both, w)
     ∧ length page = (limit `min` (n - offset))%nat
     ∧ ((n ≤ offset)%nat -> page = [])
     ∧ (length page + length next = length both)%nat
     ∧ (created_apart (gift_dal.admin_where st rt) (gifts w) ->
        page ++ next = both))
  ∧ (let a := listed_gift "A" 1 ready 300 8000 in
     twins !! 1 = Some a
     ∧ twins !! 2 = Some (listed_gift "B" 1 ready 300 8000)
     ∧ gift_dal.get_gifts_for_admin (fun id => Z.to_nat id) None None 1 0
         (world_of twins)
       = (Ok [(1, a)], world_of twins)
     ∧ gift_dal.get_gifts_for_admin (fun id => Z.to_nat (3 - id)) None None
         1 1 (world_of twins)
       = (Ok [(1, a)], world_of twins)).
Proof.
  split; [|split_and!; vm_compute; reflexivity].
  set (P := gift_dal.admin_where st rt).
  eexists (size (filter P (gifts w))), _, _, _.
  split_and!; try reflexivity.
  - unfold gift_dal.count_gifts_for_admin, bind, select_gifts, ret,
      gift_dal.count_rows. by rewrite length_map_to_list.
  - apply (page_is_page tie1 _ (gifts w) limit offset).
  - intros Hn. apply length_zero_iff_nil.
    rewrite (proj1 (page_is_page tie1 _ (gifts w) limit offset)). fold P. lia.
  - rewrite (proj1 (page_is_page tie1 _ (gifts w) limit offset)),
      (proj1 (page_is_page tie2 _ (gifts w) limit (offset + limit))),
      (proj1 (page_is_page tie3 _ (gifts w) (limit + limit) offset)).
    fold P. lia.
  - intros Hapart.
    rewrite (order_by_created_desc_unique tie2 tie1 _ _ Hapart),
      (order_by_created_desc_unique tie3 tie1 _ _ Hapart).
    rewrite <- drop_drop. apply take_take_drop.
Qed.

Lemma admin_pages_tile_witness :
  created_apart (gift_dal.admin_where (Some ready) None) busy_table
  ∧ gift_dal.get_gifts_for_admin (fun id => Z.to_nat id) (Some ready) None 1 0
      (world_of busy_table)
    = (Ok [(4, listed_gift "D" 2 ready 300 8800)], world_of busy_table)
  ∧ gift_dal.get_gifts_for_admin (fun id => Z.to_nat (5 - id)) (Some ready)
      None 1 1 (world_of busy_table)
    = (Ok [(2, listed_gift "B" 1 ready 500 8500)], world_of busy_table)
  ∧ gift_dal.get_gifts_for_admin (fun _ => 0%nat) (Some ready) None 2 0
      (world_of busy_table)
    = (Ok [(4, listed_gift "D" 2 ready 300 8800);
           (2, listed_gift "B" 1 ready 500 8500)], world_of busy_table).
Proof.
  assert (Hapart : created_apart (gift_dal.admin_where (Some ready) None)
                     busy_table).
  { intros i j g h Hi Hj.
    assert (Hall : map_Forall (fun i g => (i, created_at g) ∈
                     [(1, 8000); (2, 8500); (3, 7000); (4, 8800)]) busy_table).
    { apply (bool_decide_unpack _). vm_compute. exact I. }
    apply Hall in Hi, Hj. intros _ _ Heq. rewrite <- Heq in Hj. clear Heq.
    revert Hi Hj. generalize (created_at g). intros c Hi Hj.
    repeat (apply elem_of_cons in Hi as [Hi|Hi]; [injection Hi as -> ->|]);
      [..|by apply elem_of_nil in Hi];
      repeat (apply elem_of_cons in Hj as [Hj|Hj];
              [by injection Hj as ->|]); by apply elem_of_nil in Hj. }
  split; [exact Hapart|].
  destruct (admin_pages_tile (fun id => Z.to_nat id)
              (fun id => Z.to_nat (5 - id)) (fun _ => 0%nat) (Some ready) None
              1 0 (world_of busy_table))
    as [(n & page & next & both & _ & Hpage & Hnext & Hboth & _ & _ & _ & Htile)
        _].
  specialize (Htile Hapart).
  vm_compute in Hpage, Hnext. injection Hpage as <-. injection Hnext as <-.
  split_and!; [vm_compute; reflexivity|vm_compute; reflexivity|].
  rewrite <- Htile in Hboth. exact Hboth.
Defined.

(** ** Statistics *)

Lemma sum_counts_cons p l : sum_counts (p :: l) = p.2 + sum_counts l.
Proof. reflexivity. Qed.

Lemma sum_counts_positive (l : list (GiftStatus * Z)) :
  Forall (fun p => 0 ≤ p.2) l ->
  sum_counts (filter (fun p => 0 < p.2) l) = sum_counts l.
Proof.
  induction 1 as [|p l Hp _ IH]; [done|].
  rewrite filter_cons.
  destruct (decide (0 < p.2)); rewrite !sum_counts_cons, IH; lia.
Qed.

Lemma count_status_cons st r page :
  GiftService.count_status st (r :: page)
  = (if decide (status r.2 = st) then 1 else 0)
    + GiftService.count_status st page.
Proof.
  unfold GiftService.count_status. rewrite filter_cons.
  destruct (decide (status r.2 = st)); cbn [length]; lia.
Qed.

Lemma count_status_total page :
  sum_counts ((fun st => (st, GiftService.count_status st page))
                <$> gift_dal.all_statuses)
  = Z.of_nat (length page).
Proof.
  induction page as [|r page IH]; [reflexivity|].
  cbn [gift_dal.all_statuses fmap list_fmap sum_counts foldr snd] in *.
  rewrite !count_status_cons.
  destruct (status r.2); repeat case_decide; try done; cbn [length]; lia.
Qed.

Lemma by_status_spec page :
  sum_counts (GiftService.by_status page) = Z.of_nat (length page)
  ∧ Forall (fun p => 0 < p.2) (GiftService.by_status page)
  ∧ NoDup (GiftService.by_status page).*1.
Proof.
  unfold GiftService.by_status. split_and!.
  - rewrite sum_counts_positive; [apply count_status_total|].
    apply Forall_fmap, Forall_forall. intros st _. cbn.
    unfold GiftService.count_status. lia.
  - apply Forall_forall. intros p Hp. by apply list_elem_of_filter in Hp as [? _].
  - eapply sublist_NoDup; [|apply fmap_sublist, sublist_filter].
    rewrite <- list_fmap_compose.
    unfold gift_dal.all_statuses. cbn.
    apply (bool_decide_unpack _). vm_compute. exact I.
Qed.

(** X18. A user's statistics are taken from the first fifty rows of
    each listing. [get_user_gift_statistics] always returns statistics,
    leaves the session alone, and reports as sent (received) the number
    of gifts the user gave (was given), capped at fifty; each breakdown
    lists every status at most once, only with a positive count, and
    its counts add up to the number reported - however the database
    orders the rows created at the same instant. *)
Theorem get_user_gift_statistics_capped tie_sent tie_received user_id w :
  let given := size (filter (fun r : Z * Gift => donor_user_id r.2 = user_id)
                       (gifts w)) in
  let got := size (filter (fun r : Z * Gift =>
                             recipient_user_id r.2 = Some user_id)
                     (gifts w)) in
  ∃ s, GiftService.get_user_gift_statistics tie_sent tie_received user_id w
       = (Ok (inl s), w)
    ∧ GiftService.stats_user_id s = user_id
    ∧ GiftService.gifts_sent s = Z.of_nat (50 `min` given)
    ∧ GiftService.gifts_received s = Z.of_nat (50 `min` got)
    ∧ sum_counts (GiftService.sent_by_status s) = GiftService.gifts_sent s
    ∧ sum_counts (GiftService.received_by_status s)
      = GiftService.gifts_received s
    ∧ Forall (fun p => 0 < p.2) (GiftService.sent_by_status s)
    ∧ Forall (fun p => 0 < p.2) (GiftService.received_by_status s)
    ∧ NoDup (GiftService.sent_by_status s).*1
    ∧ NoDup (GiftService.received_by_status s).*1.
Proof.
  intros given got. eexists. split; [reflexivity|].
  cbn [GiftService.stats_user_id GiftService.gifts_sent
       GiftService.gifts_received GiftService.sent_by_status
       GiftService.received_by_status].
  pose proof (page_is_page tie_sent (gift_dal.by_donor_where user_id None)
                (gifts w) 50 0) as [Hsent _].
  pose proof (page_is_page tie_received
                (gift_dal.by_recipient_where user_id None)
                (gifts w) 50 0) as [Hrecv _].
  assert (Hgiven : size (filter (gift_dal.by_donor_where user_id None)
                           (gifts w)) = given).
  { unfold given. f_equal. apply map_filter_ext. intros i g _.
    unfold gift_dal.by_donor_where. cbn. tauto. }
  assert (Hgot : size (filter (gift_dal.by_recipient_where user_id None)
                         (gifts w)) = got).
  { unfold got. f_equal. apply map_filter_ext. intros i g _.
    unfold gift_dal.by_recipient_where. cbn. tauto. }
  rewrite Hgiven in Hsent. rewrite Hgot in Hrecv.
  rewrite Nat.sub_0_r in Hsent, Hrecv.
  unfold gift_dal.count_rows.
  split_and!; try done.
  - by rewrite Hsent.
  - by rewrite Hrecv.
  - apply by_status_spec.
  - apply by_status_spec.
  - apply by_status_spec.
  - apply by_status_spec.
  - apply by_status_spec.
  - apply by_status_spec.
Qed.

Lemma size_filter_insert (P : Z * Gift -> Prop) `{!∀ x, Decision (P x)}
    (m : gmap Z Gift) i x :
  m !! i = None ->
  size (filter P (<[i := x]> m))
  = if decide (P (i, x)) then S (size (filter P m)) else size (filter P m).
Proof.
  intros Hi. destruct (decide (P (i, x))) as [HP|HP].
  - rewrite map_filter_insert_True by done.
    apply map_size_insert_None, map_lookup_filter_None. by left.
  - rewrite map_filter_insert_not'; [done|done|]. intros y Hy. congruence.
Qed.

Lemma status_partition (m : gmap Z Gift) :
  (size (filter (fun r : Z * Gift => status r.2 = pending_payment) m)
   + size (filter (fun r : Z * Gift => status r.2 = payment_failed) m)
   + size (filter (fun r : Z * Gift => status r.2 = ready) m)
   + size (filter (fun r : Z * Gift => status r.2 = activated) m)
   + size (filter (fun r : Z * Gift => status r.2 = expired) m)
   + size (filter (fun r : Z * Gift => status r.2 = cancelled) m)
   + size (filter (fun r : Z * Gift => status r.2 = refunded) m))%nat
  = size m.
Proof.
  induction m as [|i x m Hi IH] using map_ind.
  - by rewrite !map_filter_empty, map_size_empty.
  - rewrite !size_filter_insert, map_size_insert_None by done. cbn [snd].
    destruct (status x); repeat case_decide; try done; lia.
Qed.

Lemma size_list_to_set_le (l : list Z) :
  (size (list_to_set l : gset Z) ≤ length l)%nat.
Proof.
  induction l as [|x l IH]; cbn [list_to_set length].
  - by rewrite size_empty.
  - rewrite size_union_alt, size_singleton.
    assert (size (list_to_set l ∖ {[x]} : gset Z)
            ≤ size (list_to_set l : gset Z))%nat
      by (apply subseteq_size, subseteq_difference_l; reflexivity).
    lia.
Qed.

Lemma count_distinct_bound (values : list (option Z)) :
  0 ≤ gift_dal.count_distinct values ≤ Z.of_nat (length values).
Proof.
  unfold gift_dal.count_distinct.
  pose proof (size_list_to_set_le (omap id values)) as H1.
  assert (length (omap id values) ≤ length values)%nat as H2.
  { clear H1. induction values as [|[v|] l IH]; cbn; lia. }
  lia.
Qed.

Lemma size_filter_le (P : Z * Gift -> Prop) `{!∀ x, Decision (P x)}
    (m : gmap Z Gift) :
  (size (filter P m) ≤ size m)%nat.
Proof. apply map_subseteq_size, map_filter_subseteq. Qed.

(** X19. The global statistics are consistent with each other.
    [get_global_gift_statistics] always returns statistics, reading the
    clock once and writing nothing: the total is the number of gifts,
    the breakdown lists the seven statuses in the order of the
    enumeration and its counts add up to the total, neither the distinct
    donors nor the distinct recipients nor the gifts created in the last
    24 hours outnumber the gifts, and the activations of the last 24
    hours do not outnumber the activated gifts. *)
Theorem global_statistics_consistent clock w :
  ∃ s, GiftService.get_global_gift_statistics clock w
       = (Ok (inl s), with_ticks (S (ticks w)) w)
    ∧ gift_dal.total_gifts s = Z.of_nat (size (gifts w))
    ∧ (gift_dal.status_breakdown s).*1
      = [pending_payment; payment_failed; ready; activated; expired;
         cancelled; refunded]
    ∧ sum_counts (gift_dal.status_breakdown s) = gift_dal.total_gifts s
    ∧ 0 ≤ gift_dal.unique_donors s ≤ gift_dal.total_gifts s
    ∧ 0 ≤ gift_dal.unique_recipients s ≤ gift_dal.total_gifts s
    ∧ 0 ≤ gift_dal.created_last_24h s ≤ gift_dal.total_gifts s
    ∧ ∃ n, gift_dal.status_breakdown s !! 3%nat = Some (activated, n)
           ∧ 0 ≤ gift_dal.activated_last_24h s ≤ n.
Proof.
  eexists. split; [reflexivity|].
  cbn [gift_dal.total_gifts gift_dal.status_breakdown gift_dal.unique_donors
       gift_dal.unique_recipients gift_dal.created_last_24h
       gift_dal.activated_last_24h].
  unfold gift_dal.count_rows. rewrite !length_map_to_list.
  assert (Hall : filter (fun _ : Z * Gift => True) (gifts w) = gifts w)
    by (by apply map_filter_id).
  rewrite Hall.
  split_and!; try done.
  - cbn [sum_counts foldr snd]. rewrite <- (status_partition (gifts w)). lia.
  - apply (count_distinct_bound _).
  - pose proof (count_distinct_bound
                  ((fun r : Z * Gift => Some (donor_user_id r.2))
                     <$> map_to_list (gifts w))) as Hb.
    rewrite length_fmap, length_map_to_list in Hb. lia.
  - apply (count_distinct_bound _).
  - pose proof (count_distinct_bound
                  ((fun r : Z * Gift => recipient_user_id r.2)
                     <$> map_to_list
                           (filter (fun r : Z * Gift =>
                                      recipient_user_id r.2 ≠ None)
                              (gifts w)))) as Hb.
    rewrite length_fmap, length_map_to_list in Hb.
    pose proof (size_filter_le
                  (fun r : Z * Gift => recipient_user_id r.2 ≠ None)
                  (gifts w)).
    lia.
  - lia.
  - apply inj_le, size_filter_le.
  - eexists. split; [reflexivity|]. split; [lia|].
    apply inj_le, map_subseteq_size, map_subseteq_spec.
    intros i g. rewrite !map_lookup_filter_Some. cbn. tauto.
Qed.

(** ** The random recipient *)

(** X20. [get_random_eligible_user] never picks a banned user or one
    of the excluded ids: the user it selects exists, is not banned and
    is not in the exclusion list, and it reports that there is no
    eligible user only when every user that is not banned is excluded.
    An empty exclusion list excludes nobody. One value of the
    database's random source is consumed and nothing is written. *)
Theorem random_recipient_is_eligible db_random ex w :
  let res := GiftService.get_random_eligible_user db_random ex w in
  res.2 = with_draws (S (draws w)) w
  ∧ match res.1 with
    | Ok (GiftService.Random_user_selected id) =>
        ∃ u, users w !! id = Some u ∧ user_is_banned u = false
             ∧ ∀ l, ex = Some l -> id ∉ l
    | Ok GiftService.No_eligible_users_found =>
        ∀ id u, users w !! id = Some u -> user_is_banned u = false ->
                ∃ l, ex = Some l ∧ id ∈ l
    | _ => False
    end.
Proof.
  intros res. subst res.
  unfold GiftService.get_random_eligible_user, try_except, bind,
    gift_dal.get_random_active_user.
  set (rows := map_to_list (filter (gift_dal.active_user_where ex) (users w))).
  destruct (rows !! (db_random (draws w) mod length rows)%nat)
    as [[id u]|] eqn:Hpick; cbn [fst snd ret].
  - split; [reflexivity|].
    apply list_elem_of_lookup_2, elem_of_map_to_list,
      map_lookup_filter_Some in Hpick as (Hu & Hnb & Hex).
    exists u. split_and!; [done|done|]. intros l ->.
    destruct l as [|x l]; [apply not_elem_of_nil|exact Hex].
  - split; [reflexivity|].
    assert (Hrows : rows = []).
    { destruct rows as [|r rows'] eqn:Hr; [done|].
      apply lookup_ge_None in Hpick.
      pose proof (Nat.mod_upper_bound (db_random (draws w))
                    (length (r :: rows'))) as Hlt.
      cbn [length] in *. lia. }
    intros id u Hu Hnb.
    destruct (decide (gift_dal.active_user_where ex (id, u))) as [Hact|Hact].
    + assert (Hin : (id, u) ∈ rows)
        by (apply elem_of_map_to_list, map_lookup_filter_Some; by split).
      rewrite Hrows in Hin. by apply elem_of_nil in Hin.
    + unfold gift_dal.active_user_where in Hact. cbn [fst snd] in Hact.
      destruct ex as [[|x l]|]; [tauto| |tauto].
      exists (x :: l). split; [done|].
      destruct (decide (id ∈ x :: l)); [done|tauto].
Qed.

(** ** Payments *)

Lemma payments_unique_select pid m :
  payments_unique m ->
  (length (map_to_list
             (filter (fun r : Z * Gift => payment_id r.2 = Some pid) m))
   ≤ 1)%nat.
Proof.
  intros Hu.
  destruct (map_to_list _) as [|[i g] [|[j h] l]] eqn:Hrows; cbn; [lia..|].
  exfalso.
  pose proof (NoDup_fst_map_to_list
                (filter (fun r : Z * Gift => payment_id r.2 = Some pid) m))
    as Hnd.
  rewrite Hrows in Hnd. cbn in Hnd.
  assert (Hi : (i, g) ∈ map_to_list
                 (filter (fun r : Z * Gift => payment_id r.2 = Some pid) m))
    by (rewrite Hrows; apply list_elem_of_here).
  assert (Hj : (j, h) ∈ map_to_list
                 (filter (fun r : Z * Gift => payment_id r.2 = Some pid) m))
    by (rewrite Hrows; apply list_elem_of_further, list_elem_of_here).
  apply elem_of_map_to_list, map_lookup_filter_Some in Hi as [Hi Hci].
  apply elem_of_map_to_list, map_lookup_filter_Some in Hj as [Hj Hcj].
  cbn in Hci, Hcj.
  assert (i = j) as -> by (by apply (Hu i j g h pid)).
  apply NoDup_cons in Hnd as [Hnin _]. apply Hnin, list_elem_of_here.
Qed.

Lemma payments_unique_lookup pid w :
  payments_unique (gifts w) ->
  gift_dal.get_gift_by_payment_id pid w = (Ok None, w)
  ∧ (∀ id g, gifts w !! id = Some g -> payment_id g ≠ Some pid)
  ∨ ∃ id g, gift_dal.get_gift_by_payment_id pid w = (Ok (Some (id, g)), w)
            ∧ gifts w !! id = Some g ∧ payment_id g = Some pid.
Proof.
  intros Hu. pose proof (payments_unique_select pid (gifts w) Hu) as Hlen.
  unfold gift_dal.get_gift_by_payment_id, bind, select_gifts.
  destruct (map_to_list _) as [|[i g] [|y l]] eqn:Hrows; cbn in Hlen;
    [| |lia].
  - left. split; [reflexivity|]. intros id g Hg Hp.
    assert (Hin : (id, g) ∈ map_to_list
              (filter (fun r : Z * Gift => payment_id r.2 = Some pid)
                 (gifts w)))
      by (by apply elem_of_map_to_list, map_lookup_filter_Some).
    rewrite Hrows in Hin. by apply elem_of_nil in Hin.
  - right. exists i, g. split; [reflexivity|].
    assert (Hin : (i, g) ∈ map_to_list
              (filter (fun r : Z * Gift => payment_id r.2 = Some pid)
                 (gifts w)))
      by (rewrite Hrows; apply list_elem_of_here).
    by apply elem_of_map_to_list, map_lookup_filter_Some in Hin.
Qed.

Lemma payments_unique_insert m id g g' :
  payments_unique m -> m !! id = Some g ->
  (payment_id g' = payment_id g
   ∨ ∀ p, payment_id g' = Some p ->
          ∀ j h, m !! j = Some h -> payment_id h = Some p -> j = id) ->
  payments_unique (<[id := g']> m).
Proof.
  intros Hu Hm Hpay i j x y p Hi Hj Hpx Hpy.
  assert (Hother : ∀ k h, k ≠ id -> m !! k = Some h ->
                          payment_id h = Some p -> payment_id g' = Some p ->
                          False).
  { intros k h Hk Hh Hph Hpg. destruct Hpay as [Heq|Hfresh].
    - apply Hk. apply (Hu k id h g p); congruence.
    - apply Hk. by apply (Hfresh p Hpg k h). }
  destruct (decide (i = id)) as [->|Hi'], (decide (j = id)) as [->|Hj'];
    [done| | |].
  - rewrite lookup_insert_eq in Hi. rewrite lookup_insert_ne in Hj by done.
    simplify_eq. by destruct (Hother j y).
  - rewrite lookup_insert_eq in Hj. rewrite lookup_insert_ne in Hi by done.
    simplify_eq. by destruct (Hother i x).
  - rewrite lookup_insert_ne in Hi, Hj by done. eauto.
Qed.

(** X21. A payment pays for at most one gift, and processing it never
    fails internally. On a table where no two gifts carry the same
    payment, [process_gift_payment] succeeds exactly when the gift
    carrying the payment is [pending_payment]; when no gift carries it
    the answer is "not found" and the session is untouched; the answer
    is never an internal error; and the table it leaves still has no
    payment on two gifts. *)
Theorem process_gift_payment_outcomes clock pid w :
  payments_unique (gifts w) ->
  let res := GiftService.process_gift_payment clock pid w in
  (succeeded res.1
   ↔ ∃ id g, gifts w !! id = Some g ∧ payment_id g = Some pid
             ∧ status g = pending_payment)
  ∧ ((∀ id g, gifts w !! id = Some g -> payment_id g ≠ Some pid) ->
     res = (Ok (false, Gift_not_found_for_payment, None), w))
  ∧ (∀ e d, res.1 ≠ Ok (false, Internal_error e, d))
  ∧ payments_unique (gifts res.2).
Proof.
  intros Hu res.
  destruct (payments_unique_lookup pid w Hu)
    as [[Hnone Hno]|(id & g & Hsome & Hm & Hp)].
  - assert (Hres : res = (Ok (false, Gift_not_found_for_payment, None), w)).
    { subst res. unfold GiftService.process_gift_payment, try_except.
      by rewrite (bind_ok _ _ _ _ _ Hnone). }
    rewrite Hres. cbn [fst snd]. split_and!; try done.
    split.
    + intros Hs. by apply not_succeeded_false in Hs.
    + intros (id & g & Hg & Hpg & _). by destruct (Hno id g Hg).
  - destruct (decide (status g = pending_payment)) as [Hst|Hst].
    + pose proof (process_gift_payment_pending clock pid w id g Hsome Hst)
        as Hres. cbn zeta in Hres. fold res in Hres.
      rewrite Hres. cbn [fst snd gifts]. split_and!; try done.
      * split; [intros _; by exists id, g|intros _; by eexists _, _].
      * intros Hno. by destruct (Hno id g Hm).
      * apply (payments_unique_insert _ _ g); [done|done|]. by left.
    + pose proof (process_gift_payment_not_pending clock pid w id g Hsome Hst)
        as Hres. fold res in Hres.
      rewrite Hres. cbn [fst snd]. split_and!; try done.
      * split; [intros Hs; by apply not_succeeded_false in Hs|].
        intros (id' & g' & Hg' & Hp' & Hst').
        assert (id' = id) as -> by (by apply (Hu id' id g' g pid)).
        congruence.
      * intros Hno. by destruct (Hno id g Hm).
Qed.

Lemma process_gift_payment_outcomes_witness :
  let w := sample_world (sample_gift pending_payment None) in
  succeeded (GiftService.process_gift_payment at_9000 55 w).1
  ∧ GiftService.process_gift_payment at_9000 56 w
    = (Ok (false, Gift_not_found_for_payment, None), w).
Proof.
  intros w.
  assert (Hu : payments_unique (gifts w)).
  { intros i j g h p Hi Hj _ _. cbn in Hi, Hj.
    apply lookup_singleton_Some in Hi as [<- _].
    by apply lookup_singleton_Some in Hj as [<- _]. }
  destruct (process_gift_payment_outcomes at_9000 55 w Hu) as (H1 & _).
  destruct (process_gift_payment_outcomes at_9000 56 w Hu) as (_ & H2 & _).
  split.
  - apply H1. exists 10, (sample_gift pending_payment None).
    split_and!; [vm_compute|..]; reflexivity.
  - apply H2. intros id g Hg. cbn in Hg.
    apply lookup_singleton_Some in Hg as [_ <-]. discriminate.
Defined.

(** ** The rate limit and the life of a gift *)

Lemma rows_kept_count (P : Z * Gift -> Prop) `{!∀ x, Decision (P x)}
    (m m' : gmap Z Gift) :
  rows_kept m m' ->
  (∀ id g g', same_purchase g g' -> P (id, g) ↔ P (id, g')) ->
  size (filter P m') = size (filter P m).
Proof.
  intros Hk HP. rewrite <- !(size_dom (D := gset Z)). f_equal.
  apply set_eq. intros i. rewrite !elem_of_dom. unfold is_Some.
  setoid_rewrite map_lookup_filter_Some.
  specialize (Hk i).
  destruct (m !! i) as [g|], (m' !! i) as [g'|]; try done.
  specialize (HP i g g' Hk). split; intros (x & [= <-] & Hx); eexists;
    (split; [reflexivity|]); tauto.
Qed.

(** X22. Nothing that happens to a gift gives a rate-limit slot back.
    [check_user_gift_rate_limit] counts a donor's gifts by creation time
    alone, so after a gift is paid, validated, redeemed, cancelled or
    swept as expired the donor's count for any window is what it was. *)
Theorem rate_limit_ignores_lifecycle clock w user threshold :
  let count m := created_since user threshold m in
  (∀ hours max_gifts,
     threshold = clock (ticks w) - timedelta_hours hours ->
     (gift_dal.check_user_gift_rate_limit clock user hours max_gifts w).1
     = Ok (bool_decide (count (gifts w) < max_gifts), count (gifts w)))
  ∧ (∀ gid pid,
     count (gifts (gift_dal.mark_gift_as_paid clock gid pid w).2)
     = count (gifts w))
  ∧ (∀ code uid,
     count (gifts (gift_dal.validate_gift_code_for_activation clock code uid
                     w).2)
     = count (gifts w))
  ∧ (∀ gid uid,
     count (gifts (gift_dal.activate_gift clock gid uid w).2)
     = count (gifts w))
  ∧ (∀ gid donor,
     count (gifts (gift_dal.cancel_gift clock gid donor w).2)
     = count (gifts w))
  ∧ count (gifts (gift_dal.expire_old_gifts clock w).2) = count (gifts w)
  ∧ (∀ gid actor is_admin,
     succeeded (GiftService.cancel_gift clock gid actor is_admin w).1 ->
     count (gifts (GiftService.cancel_gift clock gid actor is_admin w).2)
     = count (gifts w)).
Proof.
  intros count.
  assert (Hcount : ∀ m', rows_kept (gifts w) m' -> count m' = count (gifts w)).
  { intros m' Hk. unfold count, created_since, gift_dal.count_rows.
    rewrite !length_map_to_list. f_equal.
    apply rows_kept_count; [done|].
    intros id g g' (_ & Hd & _ & _ & _ & _ & _ & _ & Hcr & _).
    unfold gift_dal.rate_limit_where. cbn. by rewrite Hd, Hcr. }
  split_and!.
  - intros hours max_gifts ->. reflexivity.
  - intros gid pid. eapply Hcount, rows_kept_of_update, mark_gift_as_paid_kept.
  - intros code uid. apply Hcount, validate_gift_code_for_activation_kept.
  - intros gid uid. eapply Hcount, rows_kept_of_update, activate_gift_kept.
  - intros gid donor. eapply Hcount, rows_kept_of_update, cancel_gift_kept.
  - apply Hcount, expire_old_gifts_kept.
  - intros gid actor is_admin. rewrite service_cancel_gift_cases.
    destruct (gifts w !! gid) as [g|] eqn:Hg;
      [|intros Hs; by apply not_succeeded_false in Hs].
    destruct (negb is_admin && _);
      [intros Hs; by apply not_succeeded_false in Hs|].
    destruct (bool_decide _);
      [intros Hs; by apply not_succeeded_false in Hs|].
    intros _. cbn [snd gifts]. apply Hcount.
    eapply rows_kept_insert; [exact Hg|]. by repeat split.
Qed.
